(** * Cross-region replication: setup tool and replication verifiers

    A shallow embedding of the Go programs of the repository:

    - the setup tool ([ensureBucketExists], [ensureReplicationRole],
      [putReplicationConfiguration]),
    - the extended verifier (destination discovery, region detection,
      bounded polling, listing) and the basic verifier (same polling loop).

    Calls to the AWS SDK, the clock and standard output are the visible
    operations of a small program monad; a run threads the history of the
    operations performed so far and asks the environment for each answer. *)

From Stdlib Require Import ZArith String.
From stdpp Require Import base list strings.

Local Open Scope string_scope.
Local Open Scope list_scope.
#[local] Set Warnings "-register-all".


(** ** Go values *)

(** [int64] arithmetic: values are kept as [Z], addition wraps around. *)
Definition int64_min : Z := (- 2 ^ 63)%Z.
Definition int64_max : Z := (2 ^ 63 - 1)%Z.
Definition wrap64 (z : Z) : Z := ((z + 2 ^ 63) mod 2 ^ 64 - 2 ^ 63)%Z.
Definition add64 (a b : Z) : Z := wrap64 (a + b).

(** ** The part of the S3 API types the setup tool reads and writes.

    Every field is a pointer in the SDK, hence the options.  Only the fields
    the programs mention are kept; a struct literal leaves the others nil. *)
Module s3.

Record ReplicationRuleFilter := { Prefix : option string }.

Record DeleteMarkerReplication := { Status : option string }.

Record Destination := { Bucket : option string }.

Record ReplicationRule := {
  rr_ID : option string;
  rr_Status : option string;
  rr_Priority : option Z;
  rr_Filter : option ReplicationRuleFilter;
  rr_Destination : option Destination;
  rr_DeleteMarkerReplication : option DeleteMarkerReplication
}.

Record ReplicationConfiguration := {
  Role : option string;
  Rules : list ReplicationRule
}.

Record GetBucketReplicationOutput := {
  ReplicationConfiguration_ : option ReplicationConfiguration
}.

Record GetBucketLocationOutput := {
  LocationConstraint : option string
}.

(** The error codes of the SDK that [ensureBucketExists] compares with. *)
Definition ErrCodeBucketAlreadyOwnedByYou : string := "BucketAlreadyOwnedByYou".
Definition ErrCodeBucketAlreadyExists : string := "BucketAlreadyExists".

End s3.

(** ** The rule reconciliation of [putReplicationConfiguration]

    The statements between the fetch and the write-back of
    [putReplicationConfiguration], as functions of the fetched rules. *)
Section Reconcile.

Variable dstBucket : string.

(** [dstARN := fmt.Sprintf("arn:aws:s3:::%s", dstBucket)] *)
Definition dstARN : string := "arn:aws:s3:::" +:+ dstBucket.

Definition destination : s3.Destination := {| s3.Bucket := Some dstARN |}.

(** [ruleID := fmt.Sprintf("replicate-to-%s", dstBucket)] *)
Definition ruleID : string := "replicate-to-" +:+ dstBucket.

(** First loop: [maxPriority] starts at 0 and is raised by every rule
    whose priority is present and strictly greater. *)
Definition maxPriority (existingRules : list s3.ReplicationRule) : Z :=
  fold_left
    (fun m r =>
       match s3.rr_Priority r with
       | Some p => if (p >? m)%Z then p else m
       | None => m
       end)
    existingRules 0%Z.

(** The test of the second loop:
    [r.Destination != nil && r.Destination.Bucket != nil &&
     destination.Bucket != nil && *r.Destination.Bucket == *destination.Bucket] *)
Definition sameDestination (r : s3.ReplicationRule) : bool :=
  match s3.rr_Destination r with
  | Some d =>
      match s3.Bucket d, s3.Bucket destination with
      | Some b, Some b' => String.eqb b b'
      | _, _ => false
      end
  | None => false
  end.

(** The rule literal written at both places of the function. *)
Definition mkRule (priority : option Z) : s3.ReplicationRule :=
  {| s3.rr_ID := Some ruleID;
     s3.rr_Status := Some "Enabled";
     s3.rr_Priority := priority;
     s3.rr_Filter := Some {| s3.Prefix := Some "" |};
     s3.rr_Destination := Some destination;
     s3.rr_DeleteMarkerReplication := Some {| s3.Status := Some "Disabled" |} |}.

(** [priority := r.Priority; if priority == nil { priority = aws.Int64(maxPriority + 1) }] *)
Definition keptPriority (maxP : Z) (r : s3.ReplicationRule) : option Z :=
  match s3.rr_Priority r with
  | Some p => Some p
  | None => Some (add64 maxP 1)
  end.

(** Second loop, [for i, r := range existingRules]: [rest] is what the
    range still has to visit, [i] the index of its head, [existingRules]
    the slice that [existingRules[i] = ...] assigns into.  The result is
    the slice and the flag [updated]. *)
Fixpoint updateLoop (maxP : Z) (i : nat) (rest existingRules : list s3.ReplicationRule)
  : list s3.ReplicationRule * bool :=
  match rest with
  | [] => (existingRules, false)
  | r :: rest' =>
      if sameDestination r
      then (<[i := mkRule (keptPriority maxP r)]> existingRules, true)
      else updateLoop maxP (S i) rest' existingRules
  end.

(** The rule list handed to the write-back. *)
Definition reconcileRules (existingRules : list s3.ReplicationRule)
  : list s3.ReplicationRule :=
  let maxP := maxPriority existingRules in
  let '(rules, updated) := updateLoop maxP 0 existingRules existingRules in
  if updated then rules
  else rules ++ [mkRule (Some (add64 maxP 1))].

End Reconcile.

(** ** Errors, clients and the remaining API types *)

(** A Go [error] value.  [AwsError] stands for the values on which the type
    assertion [err.(awserr.Error)] succeeds, [PlainError] for every other
    error (including the ones built by [fmt.Errorf] without [%w]), and
    [WrapError p e] for [fmt.Errorf(p ++ "%w", e)]. *)
Inductive error : Type :=
| AwsError (code message : string)
| PlainError (message : string)
| WrapError (prefix : string) (err : error).

(** [aerr, ok := err.(awserr.Error)] followed by [aerr.Code()]. *)
Definition awserrCode (err : error) : option string :=
  match err with
  | AwsError code _ => Some code
  | _ => None
  end.

(** The result of an SDK call whose output the caller reads when the error
    is nil. *)
Inductive result (T : Type) : Type :=
| Ok (out : T)
| Failed (err : error).
Arguments Ok {T} out.
Arguments Failed {T} err.

(** A service client: the session it was made from, that is the region and
    the credential profile. *)
Record client := { Region : string; Profile : string }.

Module iam.

Record Role := { Arn : option string }.

Record CreateRoleOutput := { cr_Role : option Role }.

Record GetRoleOutput := { gr_Role : option Role }.

(** The error code of the SDK that [ensureReplicationRole] compares with. *)
Definition ErrCodeEntityAlreadyExistsException : string := "EntityAlreadyExists".

End iam.

(** The documents built as [map[string]interface{}] values and passed
    through [json.Marshal]; the operations below carry the value that is
    marshalled. *)
Inductive json : Type :=
| JString (s : string)
| JArray (items : list json)
| JObject (fields : list (string * json)).

(** [time.Duration] counts nanoseconds. *)
Definition Second : Z := 1000000000%Z.

(** Arguments of the formatted output calls.  Format strings are kept as
    they are written in the source, escapes included. *)
Inductive fmtArg : Type :=
| FStr (s : string)
| FInt (n : Z)
| FErr (err : option error).

(** ** Operations and programs *)

(** The calls that leave the program, indexed by the type of their answer.
    [option error] is the error of a call whose output is discarded
    ([None] is nil).  [ListObjectsV2Pages] answers with the pages handed to
    the callback (the keys of each page's contents) and the final error. *)
Inductive Op : Type -> Type :=
| HeadBucket (c : client) (bucket : string) : Op (option error)
| CreateBucket (c : client) (bucket : string) (locationConstraint : option string)
  : Op (option error)
| WaitUntilBucketExists (c : client) (bucket : string) : Op (option error)
| PutBucketVersioning (c : client) (bucket status : string) : Op (option error)
| CreateRole (c : client) (roleName : string) (assumeRolePolicyDocument : json)
    (description : string) : Op (result iam.CreateRoleOutput)
| GetRole (c : client) (roleName : string) : Op (result iam.GetRoleOutput)
| PutRolePolicy (c : client) (roleName policyName : string) (policyDocument : json)
  : Op (option error)
| GetBucketReplication (c : client) (bucket : string)
  : Op (result s3.GetBucketReplicationOutput)
| PutBucketReplication (c : client) (bucket : string)
    (configuration : s3.ReplicationConfiguration) : Op (option error)
| PutObject (c : client) (bucket key body : string) : Op (option error)
| HeadObject (c : client) (bucket key : string) : Op (option error)
| GetBucketLocation (c : client) (bucket : string)
  : Op (result s3.GetBucketLocationOutput)
| ListObjectsV2Pages (c : client) (bucket : string)
  : Op (list (list (option string)) * option error)
| Sleep (d : Z) : Op unit
| Printf (format : string) (args : list fmtArg) : Op unit
| Println (line : string) : Op unit.

(** What stops a program before it returns: [log.Fatalf] (exit status 1)
    or a nil pointer dereference. *)
Inductive halt : Type :=
| Fatalf (format : string) (args : list fmtArg)
| NilDereference.

Inductive prog (A : Type) : Type :=
| Ret (a : A)
| Halt (h : halt)
| Vis {R : Type} (op : Op R) (k : R -> prog A).
Arguments Ret {A} a.
Arguments Halt {A} h.
Arguments Vis {A R} op k.

Fixpoint bind {A B : Type} (m : prog A) (f : A -> prog B) : prog B :=
  match m with
  | Ret a => f a
  | Halt h => Halt h
  | Vis op k => Vis op (fun r => bind (k r) f)
  end.

Definition call {R : Type} (op : Op R) : prog R := Vis op Ret.

Notation "x <- m ;; k" := (bind m (fun x => k))
  (at level 100, m at next level, right associativity).
Notation "m ;;; k" := (bind m (fun _ => k))
  (at level 100, right associativity).

(** [for _, x := range l { body x }] *)
Fixpoint forEach {X : Type} (l : list X) (body : X -> prog unit) : prog unit :=
  match l with
  | [] => Ret tt
  | x :: l' => body x ;;; forEach l' body
  end.

(** *** Running a program *)

(** One performed operation with the answer it got. *)
Inductive event : Type :=
| Ev {R : Type} (op : Op R) (r : R).

(** The environment chooses each answer from the operation and the history
    of the run so far. *)
Definition handler : Type := forall R : Type, Op R -> list event -> R.

Inductive outcome (A : Type) : Type :=
| Done (a : A)
| Stopped (h : halt).
Arguments Done {A} a.
Arguments Stopped {A} h.

Fixpoint run {A : Type} (h : handler) (m : prog A) (hist : list event)
  : list event * outcome A :=
  match m with
  | Ret a => (hist, Done a)
  | Halt x => (hist, Stopped x)
  | Vis op k => let r := h _ op hist in run h (k r) (hist ++ [Ev op r])
  end.

(** [aws.StringValue] *)
Definition StringValue (p : option string) : string :=
  match p with
  | Some s => s
  | None => ""
  end.

(** ** The setup tool *)

(** [ensureBucketExists] creates a bucket if it doesn't exist. *)
Definition ensureBucketExists (s3client : client) (bucketName region : string)
  : prog (option error) :=
  err <- call (HeadBucket s3client bucketName) ;;
  match err with
  | None => Ret None
  | Some _ =>
      (* the type assertion on the HeadBucket error is made and its result
         dropped: [_ = awsErr] *)
      let locationConstraint :=
        if String.eqb region "us-east-1" then None else Some region in
      err <- call (CreateBucket s3client bucketName locationConstraint) ;;
      match err with
      | Some err =>
          match awserrCode err with
          | Some code =>
              if String.eqb code s3.ErrCodeBucketAlreadyOwnedByYou then Ret None
              else if String.eqb code s3.ErrCodeBucketAlreadyExists then
                Ret (Some (PlainError
                  ("bucket " +:+ bucketName +:+
                   " already exists and is owned by another account")))
              else Ret (Some err)
          | None => Ret (Some err)
          end
      | None =>
          err <- call (WaitUntilBucketExists s3client bucketName) ;;
          match err with
          | Some err =>
              Ret (Some (WrapError "bucket creation started but wait failed: " err))
          | None => Ret None
          end
      end
  end.

(** [enableBucketVersioning] enables versioning on the given bucket. *)
Definition enableBucketVersioning (s3client : client) (bucketName : string)
  : prog (option error) :=
  call (PutBucketVersioning s3client bucketName "Enabled").

Definition assumeRolePolicy : json :=
  JObject
    [("Version", JString "2012-10-17");
     ("Statement", JArray
        [JObject
           [("Effect", JString "Allow");
            ("Principal", JObject [("Service", JString "s3.amazonaws.com")]);
            ("Action", JString "sts:AssumeRole")]])].

Definition replicationPolicy (srcBucket dstBucket : string) : json :=
  JObject
    [("Version", JString "2012-10-17");
     ("Statement", JArray
        [JObject
           [("Effect", JString "Allow");
            ("Action", JArray
               [JString "s3:GetObjectVersion";
                JString "s3:GetObjectVersionAcl";
                JString "s3:GetObjectVersionTagging";
                JString "s3:GetObjectVersionForReplication";
                JString "s3:ListBucket";
                JString "s3:GetReplicationConfiguration"]);
            ("Resource", JArray
               [JString ("arn:aws:s3:::" +:+ srcBucket);
                JString ("arn:aws:s3:::" +:+ srcBucket +:+ "/*")])];
         JObject
           [("Effect", JString "Allow");
            ("Action", JArray
               [JString "s3:ReplicateObject";
                JString "s3:ReplicateDelete";
                JString "s3:ReplicateTags";
                JString "s3:PutObjectAcl";
                JString "s3:PutObjectVersionAcl";
                JString "s3:PutObjectVersionTagging";
                JString "s3:PutObject"]);
            ("Resource", JArray
               [JString ("arn:aws:s3:::" +:+ dstBucket);
                JString ("arn:aws:s3:::" +:+ dstBucket +:+ "/*")])]])].

(** The first half of [ensureReplicationRole]: create the role or adopt the
    existing one.  [inl roleArn] continues, [inr err] is an early
    [return "", err]. *)
Definition createOrGetRole (iamSvc : client) (roleName : string)
  : prog (string + error) :=
  r <- call (CreateRole iamSvc roleName assumeRolePolicy
               "Role for S3 cross-region replication") ;;
  match r with
  | Failed err =>
      match awserrCode err with
      | Some code =>
          if String.eqb code iam.ErrCodeEntityAlreadyExistsException then
            g <- call (GetRole iamSvc roleName) ;;
            match g with
            | Failed gerr =>
                Ret (inr (WrapError "role exists but failed to get role: " gerr))
            | Ok out =>
                match iam.gr_Role out with
                | Some role => Ret (inl (StringValue (iam.Arn role)))
                | None => Halt NilDereference
                end
            end
          else Ret (inr (WrapError "CreateRole error: " err))
      | None => Ret (inr (WrapError "CreateRole error: " err))
      end
  | Ok out =>
      match iam.cr_Role out with
      | Some role => Ret (inl (StringValue (iam.Arn role)))
      | None => Halt NilDereference
      end
  end.

(** [ensureReplicationRole] creates (or returns existing) an IAM role for S3
    replication and attaches an inline policy. *)
Definition ensureReplicationRole (iamSvc : client)
    (roleName srcBucket dstBucket dstRegion : string)
  : prog (string * option error) :=
  r <- createOrGetRole iamSvc roleName ;;
  match r with
  | inr err => Ret ("", Some err)
  | inl roleArn =>
      let policyName := roleName +:+ "-replication-" +:+ srcBucket +:+ "-to-" +:+ dstBucket in
      err <- call (PutRolePolicy iamSvc roleName policyName
                     (replicationPolicy srcBucket dstBucket)) ;;
      match err with
      | Some err => Ret ("", Some (WrapError "failed to put role policy: " err))
      | None =>
          call (Sleep (5 * Second)) ;;;
          Ret (roleArn, None)
      end
  end.

(** [existingRules] after the fetch: the rules of the fetched configuration
    when [err == nil && getOut.ReplicationConfiguration != nil], the nil
    slice otherwise. *)
Definition existingRulesOf (getOut : result s3.GetBucketReplicationOutput)
  : list s3.ReplicationRule :=
  match getOut with
  | Ok out =>
      match s3.ReplicationConfiguration_ out with
      | Some cfg => s3.Rules cfg
      | None => []
      end
  | Failed _ => []
  end.

(** [putReplicationConfiguration] configures a replication rule on the
    source bucket to the destination bucket. *)
Definition putReplicationConfiguration (s3client : client)
    (srcBucket dstBucket roleArn : string) : prog (option error) :=
  getOut <- call (GetBucketReplication s3client srcBucket) ;;
  let existingRules := reconcileRules dstBucket (existingRulesOf getOut) in
  let configuration :=
    {| s3.Role := Some roleArn; s3.Rules := existingRules |} in
  err <- call (PutBucketReplication s3client srcBucket configuration) ;;
  match err with
  | Some err => Ret (Some (WrapError "PutBucketReplication failed: " err))
  | None => Ret None
  end.

Record setupFlags := {
  sf_source_bucket : string;
  sf_source_region : string;
  sf_dest_bucket : string;
  sf_dest_region : string;
  sf_role_name : string;
  sf_profile : string
}.

(** [main] of the setup tool, after flag parsing. *)
Definition setupMain (f : setupFlags) : prog unit :=
  let srcBucket := sf_source_bucket f in
  let dstBucket := sf_dest_bucket f in
  if String.eqb srcBucket "" || String.eqb dstBucket "" then
    Halt (Fatalf "Both --source-bucket and --dest-bucket must be provided." [])
  else
    let s3Src := {| Region := sf_source_region f; Profile := sf_profile f |} in
    let s3Dst := {| Region := sf_dest_region f; Profile := sf_profile f |} in
    let iamSvc := {| Region := sf_source_region f; Profile := sf_profile f |} in
    call (Printf "Setting up replication from %s (%s) -> %s (%s)\n"
            [FStr srcBucket; FStr (sf_source_region f);
             FStr dstBucket; FStr (sf_dest_region f)]) ;;;
    err <- ensureBucketExists s3Dst dstBucket (sf_dest_region f) ;;
    match err with
    | Some err => Halt (Fatalf "Failed ensuring destination bucket: %v" [FErr (Some err)])
    | None =>
    call (Println "Destination bucket exists/ready.") ;;;
    err <- enableBucketVersioning s3Src srcBucket ;;
    match err with
    | Some err =>
        Halt (Fatalf "Failed enabling versioning on source bucket: %v" [FErr (Some err)])
    | None =>
    call (Println "Versioning enabled on source bucket.") ;;;
    err <- enableBucketVersioning s3Dst dstBucket ;;
    match err with
    | Some err =>
        Halt (Fatalf "Failed enabling versioning on destination bucket: %v"
                [FErr (Some err)])
    | None =>
    call (Println "Versioning enabled on destination bucket.") ;;;
    r <- ensureReplicationRole iamSvc (sf_role_name f) srcBucket dstBucket
           (sf_dest_region f) ;;
    match r with
    | (_, Some err) =>
        Halt (Fatalf "Failed to ensure IAM replication role: %v" [FErr (Some err)])
    | (roleArn, None) =>
    call (Printf "Replication role ready: %s\n" [FStr roleArn]) ;;;
    err <- putReplicationConfiguration s3Src srcBucket dstBucket roleArn ;;
    match err with
    | Some err =>
        Halt (Fatalf "Failed to put replication configuration: %v" [FErr (Some err)])
    | None =>
    call (Println "Replication configuration applied to source bucket.") ;;;
    call (Println "Cross-region replication setup complete.")
    end end end end end.

(** ** The verifiers *)

(** [listObjects] fetches all object keys in a bucket.  The callback
    appends [*obj.Key] for every object of every page and always asks for
    the next page. *)
Definition collectKeys (pages : list (list (option string))) : option (list string) :=
  mapM (fun k : option string => k) (concat pages).

Definition listObjects (s3client : client) (bucket : string)
  : prog (list string * option error) :=
  r <- call (ListObjectsV2Pages s3client bucket) ;;
  match collectKeys (fst r) with
  | None => Halt NilDereference
  | Some keys =>
      match snd r with
      | Some err => Ret ([], Some err)
      | None => Ret (keys, None)
      end
  end.

(** The polling loop of both verifiers,
    [for i := 0; i < 12; i++ { time.Sleep(10 * time.Second); ... }]:
    [remaining] counts the iterations left, [i] is the loop variable.  The
    result is the variable [found] after the loop. *)
Fixpoint pollLoop (s3Dst : client) (dstBucket key : string) (remaining : nat) (i : Z)
  : prog bool :=
  match remaining with
  | O => Ret false
  | S remaining' =>
      call (Sleep (10 * Second)) ;;;
      err <- call (HeadObject s3Dst dstBucket key) ;;
      match err with
      | None => Ret true
      | Some _ =>
          call (Printf "Check %d: object not replicated yet\n" [FInt (i + 1)]) ;;;
          pollLoop s3Dst dstBucket key remaining' (i + 1)%Z
      end
  end.

Definition probeContent : string :=
  "Hello extended replication test from Go SDK v1. Hello to CRR! Bye.".

(** The comparison of object counts printed at the end of both verifiers. *)
Definition caughtUp (srcObjects dstObjects : list string) : bool :=
  (length srcObjects <=? length dstObjects)%nat.

Section ExtendedVerifier.

(** [fmt.Sscanf(arn, "arn:aws:s3:::%s", &bucketName)] of the Go standard
    library: [Some bucketName] when the returned error is nil. *)
Variable scanBucketName : string -> option string.

Variables (srcBucket srcRegion profile key : string).

(** Step 2: the destination buckets named by the replication rules. *)
Definition destBucketsOf (rules : list s3.ReplicationRule) : list string :=
  fold_left
    (fun (destBuckets : list string) rule =>
       match s3.rr_Destination rule with
       | Some d =>
           match s3.Bucket d with
           | Some arn =>
               match scanBucketName arn with
               | Some bucketName => destBuckets ++ [bucketName]
               | None => destBuckets
               end
           | None => destBuckets
           end
       | None => destBuckets
       end)
    rules [].

(** The value of [detectedRegion] after the location lookup. *)
Definition resolveRegion (locOut : result s3.GetBucketLocationOutput) : string :=
  match locOut with
  | Ok out =>
      match s3.LocationConstraint out with
      | Some _ =>
          let detectedRegion := StringValue (s3.LocationConstraint out) in
          let detectedRegion :=
            if String.eqb detectedRegion "" then "us-east-1" else detectedRegion in
          if String.eqb detectedRegion "EU" then "eu-west-1" else detectedRegion
      | None => srcRegion
      end
  | Failed _ => srcRegion
  end.

(** Region detection, written out in both loops of [main]: the lookup goes
    through a client of the source region. *)
Definition detectRegion (dstBucket : string) : prog string :=
  let genericS3 := {| Region := srcRegion; Profile := profile |} in
  locOut <- call (GetBucketLocation genericS3 dstBucket) ;;
  Ret (resolveRegion locOut).

(** Body of the loop of step 3, from the creation of the destination
    client on. *)
Definition pollDestination (detectedRegion dstBucket : string) : prog unit :=
  let s3Dst := {| Region := detectedRegion; Profile := profile |} in
  call (Printf "Using region %s for bucket %s\n" [FStr detectedRegion; FStr dstBucket]) ;;;
  call (Println "Waiting for replication (may take 30–60 seconds)...") ;;;
  found <- pollLoop s3Dst dstBucket key 12 0 ;;
  if (found : bool) then
    call (Printf "✅ Object %s replicated successfully to bucket %s\n"
            [FStr key; FStr dstBucket])
  else
    call (Printf "❌ Object %s did not replicate to bucket %s within timeout\n"
            [FStr key; FStr dstBucket]).

(** Body of the loop of step 3. *)
Definition checkDestination (dstBucket : string) : prog unit :=
  call (Printf "\nChecking replication to destination bucket: %s\n" [FStr dstBucket]) ;;;
  detectedRegion <- detectRegion dstBucket ;;
  pollDestination detectedRegion dstBucket.

(** Body of the loop that lists each destination (step 4), from the
    creation of the destination client on. *)
Definition listDestinationIn (srcObjects : list string)
    (detectedRegion dstBucket : string) : prog unit :=
  let s3Dst := {| Region := detectedRegion; Profile := profile |} in
  call (Printf "\nListing objects in destination bucket: %s (region: %s)\n"
          [FStr dstBucket; FStr detectedRegion]) ;;;
  r <- listObjects s3Dst dstBucket ;;
  match r with
  | (_, Some err) =>
      Halt (Fatalf "Failed to list destination bucket %s: %v"
              [FStr dstBucket; FErr (Some err)])
  | (dstObjects, None) =>
      forEach dstObjects (fun obj => call (Printf "  %s\n" [FStr obj])) ;;;
      call (Printf
              "\nSource bucket has %d objects, destination bucket %s has %d objects\n"
              [FInt (Z.of_nat (length srcObjects)); FStr dstBucket;
               FInt (Z.of_nat (length dstObjects))]) ;;;
      if caughtUp srcObjects dstObjects then
        call (Println "✅ Destination bucket contains all (or more) objects.")
      else
        call (Println "⚠️ Some objects may not yet have replicated.")
  end.

(** Body of the loop that lists each destination (step 4). *)
Definition listDestination (srcObjects : list string) (dstBucket : string)
  : prog unit :=
  detectedRegion <- detectRegion dstBucket ;;
  listDestinationIn srcObjects detectedRegion dstBucket.

(** [main] of the extended verifier, after flag parsing. *)
Definition extendedMain : prog unit :=
  if String.eqb srcBucket "" then
    Halt (Fatalf "--source-bucket must be provided." [])
  else
    let s3Src := {| Region := srcRegion; Profile := profile |} in
    err <- call (PutObject s3Src srcBucket key probeContent) ;;
    match err with
    | Some err =>
        Halt (Fatalf "Failed to upload object to source bucket: %v" [FErr (Some err)])
    | None =>
    call (Printf "Uploaded object %s to source bucket %s\n" [FStr key; FStr srcBucket]) ;;;
    getOut <- call (GetBucketReplication s3Src srcBucket) ;;
    match getOut with
    | Failed err =>
        Halt (Fatalf "Failed to get replication configuration: %v" [FErr (Some err)])
    | Ok out =>
    match s3.ReplicationConfiguration_ out with
    | None => Halt (Fatalf "Failed to get replication configuration: %v" [FErr None])
    | Some cfg =>
    let destBuckets := destBucketsOf (s3.Rules cfg) in
    if (length destBuckets =? 0)%nat then
      Halt (Fatalf "No destination buckets found in replication rules." [])
    else
      forEach destBuckets checkDestination ;;;
      call (Println "\nListing objects in source bucket:") ;;;
      r <- listObjects s3Src srcBucket ;;
      match r with
      | (_, Some err) =>
          Halt (Fatalf "Failed to list source bucket: %v" [FErr (Some err)])
      | (srcObjects, None) =>
          forEach srcObjects (fun obj => call (Printf "  %s\n" [FStr obj])) ;;;
          forEach destBuckets (listDestination srcObjects)
      end
    end end end.

End ExtendedVerifier.

(** [main] of the basic verifier, after flag parsing: one destination,
    given on the command line together with its region. *)
Definition basicMain (srcBucket srcRegion dstBucket dstRegion profile key : string)
  : prog unit :=
  if String.eqb srcBucket "" || String.eqb dstBucket "" then
    Halt (Fatalf "Both --source-bucket and --dest-bucket must be provided." [])
  else
    let s3Src := {| Region := srcRegion; Profile := profile |} in
    let s3Dst := {| Region := dstRegion; Profile := profile |} in
    err <- call (PutObject s3Src srcBucket key probeContent) ;;
    match err with
    | Some err =>
        Halt (Fatalf "Failed to upload object to source bucket: %v" [FErr (Some err)])
    | None =>
    call (Printf "Uploaded object %s to source bucket %s\n" [FStr key; FStr srcBucket]) ;;;
    call (Println "Waiting for replication (may take 30–60 seconds)...") ;;;
    found <- pollLoop s3Dst dstBucket key 12 0 ;;
    (if (found : bool) then
       call (Printf "✅ Object %s replicated successfully to bucket %s\n"
               [FStr key; FStr dstBucket])
     else
       call (Printf "❌ Object %s did not replicate to bucket %s within timeout\n"
               [FStr key; FStr dstBucket])) ;;;
    call (Println "\nListing objects in source bucket:") ;;;
    r <- listObjects s3Src srcBucket ;;
    match r with
    | (_, Some err) => Halt (Fatalf "Failed to list source bucket: %v" [FErr (Some err)])
    | (srcObjects, None) =>
    forEach srcObjects (fun obj => call (Printf "  %s\n" [FStr obj])) ;;;
    call (Println "\nListing objects in destination bucket:") ;;;
    r <- listObjects s3Dst dstBucket ;;
    match r with
    | (_, Some err) =>
        Halt (Fatalf "Failed to list destination bucket: %v" [FErr (Some err)])
    | (dstObjects, None) =>
    forEach dstObjects (fun obj => call (Printf "  %s\n" [FStr obj])) ;;;
    call (Printf "\nSource bucket has %d objects, destination bucket has %d objects\n"
            [FInt (Z.of_nat (length srcObjects)); FInt (Z.of_nat (length dstObjects))]) ;;;
    if caughtUp srcObjects dstObjects then
      call (Println "✅ Destination bucket contains all (or more) objects.")
    else
      call (Println "⚠️ Some objects may not yet have replicated.")
    end end end.

(** ** Vocabulary of the statements *)

(** The destination reference of a rule, when it has one. *)
Definition destRef (r : s3.ReplicationRule) : option string :=
  match s3.rr_Destination r with
  | Some d => s3.Bucket d
  | None => None
  end.

(** The destination references present in a rule list, in order. *)
Definition destRefs (rules : list s3.ReplicationRule) : list string :=
  omap destRef rules.

(** The priority of a rule, a rule lacking one counting as 0. *)
Definition priorityOrZero (r : s3.ReplicationRule) : Z :=
  default 0%Z (s3.rr_Priority r).

(** The greatest priority over a rule list, rules lacking a priority
    counting as 0; it is 0 for the empty list.  Priorities are not negative
    in the data model; the value is never below 0. *)
Definition maxOver (rules : list s3.ReplicationRule) : Z :=
  foldr Z.max 0%Z (priorityOrZero <$> rules).

(** The error code with which the storage service reports that a bucket has
    no replication configuration. *)
Definition noConfigurationExists (err : error) : bool :=
  match awserrCode err with
  | Some code => String.eqb code "ReplicationConfigurationNotFoundError"
  | None => false
  end.

(** An operation without its answer. *)
Inductive invocation : Type :=
| Invoke {R : Type} (op : Op R).

Definition invocations (trace : list event) : list invocation :=
  (fun ev => match ev with Ev op _ => Invoke op end) <$> trace.

Definition isHeadObject (ev : event) : bool :=
  match ev with
  | Ev op _ => match op with HeadObject _ _ _ => true | _ => false end
  end.

(** Number of presence checks performed in a history. *)
Definition headCount (hist : list event) : nat :=
  length (filter (fun ev => isHeadObject ev = true) hist).

(** The operations of [n] unsuccessful rounds of the polling loop, the
    loop variable starting at [i]. *)
Fixpoint failedRounds (s3Dst : client) (dstBucket key : string) (n : nat) (i : Z)
  : list invocation :=
  match n with
  | O => []
  | S n' =>
      Invoke (Sleep (10 * Second))
      :: Invoke (HeadObject s3Dst dstBucket key)
      :: Invoke (Printf "Check %d: object not replicated yet\n" [FInt (i + 1)])
      :: failedRounds s3Dst dstBucket key n' (i + 1)%Z
  end.

(** A run of [putReplicationConfiguration] from history [hist] performs one
    fetch and then one write-back, and the write-back carries the role and
    the rule list [rules]. *)
Definition writesRules (h : handler) (s3client : client)
    (srcBucket dstBucket roleArn : string) (hist : list event)
    (rules : list s3.ReplicationRule) : Prop :=
  ∃ getOut err,
    fst (run h (putReplicationConfiguration s3client srcBucket dstBucket roleArn) hist)
    = hist ++ [Ev (GetBucketReplication s3client srcBucket) getOut;
               Ev (PutBucketReplication s3client srcBucket
                     {| s3.Role := Some roleArn; s3.Rules := rules |}) err].

(** *** Environments used to run the programs on concrete inputs *)

(** Every call succeeds; lookups answer with empty outputs. *)
Definition succeed : handler :=
  fun R op _ =>
    match op in Op R return R with
    | HeadBucket _ _ => None
    | CreateBucket _ _ _ => None
    | WaitUntilBucketExists _ _ => None
    | PutBucketVersioning _ _ _ => None
    | CreateRole _ _ _ _ =>
        Ok {| iam.cr_Role := Some {| iam.Arn := Some "arn:aws:iam::1:role/new" |} |}
    | GetRole _ _ =>
        Ok {| iam.gr_Role := Some {| iam.Arn := Some "arn:aws:iam::1:role/existing" |} |}
    | PutRolePolicy _ _ _ _ => None
    | GetBucketReplication _ _ => Ok {| s3.ReplicationConfiguration_ := None |}
    | PutBucketReplication _ _ _ => None
    | PutObject _ _ _ _ => None
    | HeadObject _ _ _ => None
    | GetBucketLocation _ _ => Ok {| s3.LocationConstraint := None |}
    | ListObjectsV2Pages _ _ => ([], None)
    | Sleep _ => tt
    | Printf _ _ => tt
    | Println _ => tt
    end.

(** [override f h] answers as [f] where [f] is defined and as [h] elsewhere. *)
Definition override (f : forall R : Type, Op R -> list event -> option R) (h : handler)
  : handler :=
  fun R op hist =>
    match f R op hist with
    | Some r => r
    | None => h R op hist
    end.

Definition ruleTo (id : string) (priority : option Z) (bucketARN : string)
  : s3.ReplicationRule :=
  {| s3.rr_ID := Some id;
     s3.rr_Status := Some "Disabled";
     s3.rr_Priority := priority;
     s3.rr_Filter := Some {| s3.Prefix := Some "logs/" |};
     s3.rr_Destination := Some {| s3.Bucket := Some bucketARN |};
     s3.rr_DeleteMarkerReplication := Some {| s3.Status := Some "Enabled" |} |}.

(** A rule for destination A whose priority is the largest [int64], alone
    and followed by a rule for destination B that has no priority. *)
Definition rulesAtMax : list s3.ReplicationRule :=
  [ruleTo "rule-a" (Some int64_max) "arn:aws:s3:::A"].

Definition rulesAtMaxAndB : list s3.ReplicationRule :=
  [ruleTo "rule-a" (Some int64_max) "arn:aws:s3:::A";
   ruleTo "rule-b" None "arn:aws:s3:::B"].

(** A source bucket with rules for destinations A (priority 1) and B
    (priority 2). *)
Definition rulesAB : list s3.ReplicationRule :=
  [ruleTo "rule-a" (Some 1%Z) "arn:aws:s3:::A"; ruleTo "rule-b" (Some 2%Z) "arn:aws:s3:::B"].

Definition withRulesAB : handler :=
  override
    (fun R op _ =>
       match op in Op R return option R with
       | GetBucketReplication _ _ =>
           Some (Ok {| s3.ReplicationConfiguration_ :=
                         Some {| s3.Role := Some "arn:aws:iam::1:role/old";
                                 s3.Rules := rulesAB |} |})
       | _ => None
       end)
    succeed.

(** The fetch of the replication configuration is denied. *)
Definition fetchDenied : handler :=
  override
    (fun R op _ =>
       match op in Op R return option R with
       | GetBucketReplication _ _ => Some (Failed (AwsError "AccessDenied" "Access Denied"))
       | _ => None
       end)
    succeed.

(** The bucket probe fails with [headErr] and creation with [createErr]. *)
Definition bucketTaken (headErr createErr : error) : handler :=
  override
    (fun R op _ =>
       match op in Op R return option R with
       | HeadBucket _ _ => Some (Some headErr)
       | CreateBucket _ _ _ => Some (Some createErr)
       | _ => None
       end)
    succeed.

(** Role creation fails with [createErr]. *)
Definition roleCreationFails (createErr : error) : handler :=
  override
    (fun R op _ =>
       match op in Op R return option R with
       | CreateRole _ _ _ _ => Some (Failed createErr)
       | _ => None
       end)
    succeed.

(** The probe shows up at the destination on check number [k] (never when
    [k] is 0); location lookups answer [loc]. *)
Definition replicatesAt (k : nat) (loc : result s3.GetBucketLocationOutput) : handler :=
  override
    (fun R op hist =>
       match op in Op R return option R with
       | HeadObject _ _ _ =>
           Some (if (S (headCount hist) =? k)%nat then None
                 else Some (AwsError "NotFound" "Not Found"))
       | GetBucketLocation _ _ => Some loc
       | _ => None
       end)
    succeed.

(** A source bucket configured by the setup tool for the destination
    [dst], holding the probe alone; the probe shows up at [dst] on check
    number [k] and location lookups answer [loc]. *)
Definition afterSetup (k : nat) (loc : result s3.GetBucketLocationOutput) : handler :=
  override
    (fun R op _ =>
       match op in Op R return option R with
       | GetBucketReplication _ _ =>
           Some (Ok {| s3.ReplicationConfiguration_ :=
                         Some {| s3.Role := Some "arn:aws:iam::1:role/role-x";
                                 s3.Rules := [mkRule "dst" (Some 1%Z)] |} |})
       | ListObjectsV2Pages _ _ => Some ([[Some "p.txt"]], None)
       | _ => None
       end)
    (replicatesAt k loc).

(** What [fmt.Sscanf] reads from an ARN made of the prefix and a bucket
    name without spaces. *)
Definition scanAfterPrefix (arn : string) : option string :=
  if String.prefix "arn:aws:s3:::" arn && negb (String.eqb arn "arn:aws:s3:::")
  then Some (String.substring 13 (String.length arn - 13) arn)
  else None.

(** ** Vocabulary of the further statements *)

(** The priorities present in a rule list, in order. *)
Definition priorities (rules : list s3.ReplicationRule) : list Z :=
  omap s3.rr_Priority rules.

(** The replication configuration a bucket holds after a history: the one
    carried by the last write-back to it that succeeded. *)
Definition lastWritten (bucket : string) (hist : list event)
  : option s3.ReplicationConfiguration :=
  fold_left
    (fun acc ev =>
       match ev with
       | Ev op r =>
           match op in Op R return R -> option s3.ReplicationConfiguration with
           | PutBucketReplication _ b cfg =>
               fun err =>
                 match err with
                 | None => if String.eqb b bucket then Some cfg else acc
                 | Some _ => acc
                 end
           | _ => fun _ => acc
           end r
       end)
    hist None.

(** A storage service that keeps what is written: a fetch answers with the
    configuration last written to the bucket, and with the service's
    not-found error while nothing has been written. *)
Definition bucketStore : handler :=
  override
    (fun R op hist =>
       match op in Op R return option R with
       | GetBucketReplication _ b =>
           Some (match lastWritten b hist with
                 | Some cfg => Ok {| s3.ReplicationConfiguration_ := Some cfg |}
                 | None =>
                     Failed (AwsError "ReplicationConfigurationNotFoundError"
                               "The replication configuration was not found")
                 end)
       | _ => None
       end)
    succeed.

(** Rules for A (priority 1), B (no priority) and B again (priority 5). *)
Definition rulesABB : list s3.ReplicationRule :=
  [ruleTo "rule-a" (Some 1%Z) "arn:aws:s3:::A";
   ruleTo "rule-b" None "arn:aws:s3:::B";
   ruleTo "rule-b2" (Some 5%Z) "arn:aws:s3:::B"].

(** The time spent in [time.Sleep] over a history, in nanoseconds. *)
Definition sleepTotal (hist : list event) : Z :=
  foldr
    (fun ev acc =>
       match ev with
       | Ev op _ => match op with Sleep d => (d + acc)%Z | _ => acc end
       end)
    0%Z hist.

(** Role creation succeeds and the policy attachment fails with [err]. *)
Definition policyRefused (err : error) : handler :=
  override
    (fun R op _ =>
       match op in Op R return option R with
       | PutRolePolicy _ _ _ _ => Some (Some err)
       | _ => None
       end)
    succeed.

(** The role exists already and the lookup fails with [err]. *)
Definition lookupFails (err : error) : handler :=
  override
    (fun R op _ =>
       match op in Op R return option R with
       | CreateRole _ _ _ _ =>
           Some (Failed (AwsError iam.ErrCodeEntityAlreadyExistsException "role exists"))
       | GetRole _ _ => Some (Failed err)
       | _ => None
       end)
    succeed.

(** The command line of the README's example, without a profile. *)
Definition exampleFlags : setupFlags :=
  {| sf_source_bucket := "src"; sf_source_region := "us-east-1";
     sf_dest_bucket := "dst"; sf_dest_region := "us-west-2";
     sf_role_name := "role-x"; sf_profile := "" |}.

(** Enabling versioning on [bucket] fails with [err]. *)
Definition versioningFails (bucket : string) (err : error) : handler :=
  override
    (fun R op _ =>
       match op in Op R return option R with
       | PutBucketVersioning _ b _ => if String.eqb b bucket then Some (Some err) else None
       | _ => None
       end)
    succeed.

(** The write-back of the replication configuration fails with [err]. *)
Definition writeFails (err : error) : handler :=
  override
    (fun R op _ =>
       match op in Op R return option R with
       | PutBucketReplication _ _ _ => Some (Some err)
       | _ => None
       end)
    succeed.

(** The buckets whose location was looked up over a history, in order. *)
Definition lookedUp (hist : list event) : list string :=
  flat_map
    (fun ev =>
       match ev with
       | Ev op _ => match op with GetBucketLocation _ b => [b] | _ => [] end
       end)
    hist.

(** The operations the polling loop may perform for a destination. *)
Definition isPollStep (s3Dst : client) (dstBucket key : string) (i : invocation) : Prop :=
  i = Invoke (Sleep (10 * Second))
  ∨ i = Invoke (HeadObject s3Dst dstBucket key)
  ∨ ∃ n, i = Invoke (Printf "Check %d: object not replicated yet\n" [FInt n]).

(** The bucket name step 2 of the extended verifier reads from a rule, when
    the rule has a destination reference and the scan succeeds on it. *)
Definition scannedDestination (scan : string -> option string) (r : s3.ReplicationRule)
  : option string :=
  match destRef r with
  | Some arn => scan arn
  | None => None
  end.

(** The upload of the probe fails with [err]. *)
Definition uploadFails (err : error) : handler :=
  override
    (fun R op _ =>
       match op in Op R return option R with
       | PutObject _ _ _ _ => Some (Some err)
       | _ => None
       end)
    succeed.

(** Two rules, both for the destination [dst]. *)
Definition rulesTwiceDst : list s3.ReplicationRule :=
  [ruleTo "rule-1" (Some 1%Z) "arn:aws:s3:::dst"; ruleTo "rule-2" (Some 2%Z) "arn:aws:s3:::dst"].

(** A rule without destination, as the only rule of the source bucket. *)
Definition withoutDestination : handler :=
  override
    (fun R op _ =>
       match op in Op R return option R with
       | GetBucketReplication _ _ =>
           Some (Ok {| s3.ReplicationConfiguration_ :=
                         Some {| s3.Role := None;
                                 s3.Rules :=
                                   [{| s3.rr_ID := Some "r"; s3.rr_Status := None;
                                       s3.rr_Priority := None; s3.rr_Filter := None;
                                       s3.rr_Destination := None;
                                       s3.rr_DeleteMarkerReplication := None |}] |} |})
       | _ => None
       end)
    succeed.

(** ** Vocabulary of the statements on polling and listing *)

(** The answers the presence checks got over a history, in order. *)
Definition checkAnswers (hist : list event) : list (option error) :=
  flat_map
    (fun ev =>
       match ev with
       | Ev op r =>
           match op in Op R return R -> list (option error) with
           | HeadObject _ _ _ => fun err => [err]
           | _ => fun _ => []
           end r
       end)
    hist.

(** [polls] is what the polling loop does for a destination in [n] rounds
    from loop variable [i], and [found] is what it leaves: some checks that
    failed, each with its wait before and its progress line after, then,
    if [found], one more wait and the check that succeeded.  Without
    success all [n] rounds are there. *)
Definition polledWithin (s3Dst : client) (dstBucket key : string) (n : nat) (i : Z)
    (polls : list event) (found : bool) : Prop :=
  ∃ errs : list error,
    (if found then length errs < n else length errs = n)
    ∧ invocations polls
      = failedRounds s3Dst dstBucket key (length errs) i
        ++ (if found
            then [Invoke (Sleep (10 * Second)); Invoke (HeadObject s3Dst dstBucket key)]
            else [])
    ∧ checkAnswers polls = (Some <$> errs) ++ (if found then [None] else []).

(** The line printed after the polling loop. *)
Definition verdictLine (key dstBucket : string) (found : bool) : Op unit :=
  if found
  then Printf "✅ Object %s replicated successfully to bucket %s\n"
         [FStr key; FStr dstBucket]
  else Printf "❌ Object %s did not replicate to bucket %s within timeout\n"
         [FStr key; FStr dstBucket].

(** [segment] is one turn of the check loop of the extended verifier for
    [dstBucket]: the heading, the location lookup through a client of the
    source region, the region line, the waiting line, the polling of the
    destination through a client of the detected region, and the verdict. *)
Definition checkedDestination (srcRegion profile key dstBucket : string)
    (segment : list event) : Prop :=
  ∃ locOut polls found,
    segment
    = [Ev (Printf "\nChecking replication to destination bucket: %s\n" [FStr dstBucket]) tt;
       Ev (GetBucketLocation {| Region := srcRegion; Profile := profile |} dstBucket) locOut;
       Ev (Printf "Using region %s for bucket %s\n"
             [FStr (resolveRegion srcRegion locOut); FStr dstBucket]) tt;
       Ev (Println "Waiting for replication (may take 30–60 seconds)...") tt]
      ++ polls ++ [Ev (verdictLine key dstBucket found) tt]
    ∧ polledWithin {| Region := resolveRegion srcRegion locOut; Profile := profile |}
        dstBucket key 12 0 polls found.

(** What the location lookup hands to the program for a bucket of the
    original default region: the SDK fills [LocationConstraint] from a
    non-empty element of the response only, so the service's empty
    constraint reaches the program as a nil pointer. *)
Definition defaultRegionLocation : result s3.GetBucketLocationOutput :=
  Ok {| s3.LocationConstraint := None |}.

(** * Properties *)

(** ** Arithmetic of [int64] *)

Lemma add64_no_overflow (a : Z) :
  (int64_min <= a < int64_max)%Z → add64 a 1 = (a + 1)%Z.
Proof.
  unfold add64, wrap64, int64_min, int64_max. intros Ha.
  rewrite Z.mod_small by lia. lia.
Qed.

(** ** The rule reconciliation *)

Section ReconcileFacts.

Variable dstBucket : string.

Local Abbreviation targets := (sameDestination dstBucket).

Lemma sameDestination_destRef (r : s3.ReplicationRule) :
  targets r = true ↔ destRef r = Some (dstARN dstBucket).
Proof.
  unfold sameDestination, destRef, destination. simpl.
  destruct (s3.rr_Destination r) as [d|]; [|by split].
  destruct (s3.Bucket d) as [b|]; [|by split].
  rewrite String.eqb_eq. split; congruence.
Qed.

Lemma sameDestination_false (r : s3.ReplicationRule) :
  targets r = false ↔ destRef r ≠ Some (dstARN dstBucket).
Proof.
  rewrite <- sameDestination_destRef. by destruct (targets r).
Qed.

Lemma destRef_mkRule (p : option Z) :
  destRef (mkRule dstBucket p) = Some (dstARN dstBucket).
Proof. reflexivity. Qed.

(** The first rule that targets the destination splits the list. *)
Lemma first_target_split (l : list s3.ReplicationRule) :
  Forall (λ r, targets r = false) l
  ∨ ∃ mid r post,
      l = mid ++ r :: post ∧ Forall (λ r, targets r = false) mid ∧ targets r = true.
Proof.
  induction l as [|a l IH]; [by left|].
  destruct (targets a) eqn:Ha.
  - right. exists [], a, l. by repeat split.
  - destruct IH as [IH|(mid & r & post & -> & Hmid & Hr)].
    + left. by constructor.
    + right. exists (a :: mid), r, post. repeat split; [|done]. by constructor.
Qed.

Lemma updateLoop_absent (maxP : Z) (i : nat) (rest l : list s3.ReplicationRule) :
  Forall (λ r, targets r = false) rest →
  updateLoop dstBucket maxP i rest l = (l, false).
Proof.
  intros Hrest. revert i.
  induction Hrest as [|a rest Ha _ IH]; intros i; simpl; [done|].
  by rewrite Ha.
Qed.

Lemma updateLoop_found (maxP : Z) (pre mid post : list s3.ReplicationRule)
    (r : s3.ReplicationRule) :
  Forall (λ r, targets r = false) mid →
  targets r = true →
  updateLoop dstBucket maxP (length pre) (mid ++ r :: post) (pre ++ mid ++ r :: post)
  = (pre ++ mid ++ mkRule dstBucket (keptPriority maxP r) :: post, true).
Proof.
  intros Hmid Hr. revert pre.
  induction Hmid as [|a mid Ha _ IH]; intros pre; simpl.
  - rewrite Hr. f_equal.
    replace (length pre) with (length pre + 0) by lia.
    by rewrite insert_app_r.
  - rewrite Ha.
    specialize (IH (pre ++ [a])).
    rewrite length_app in IH. simpl in IH.
    replace (length pre + 1) with (S (length pre)) in IH by lia.
    by rewrite <- !(assoc_L (++) pre [a]) in IH.
Qed.

Lemma reconcileRules_absent (existing : list s3.ReplicationRule) :
  Forall (λ r, targets r = false) existing →
  reconcileRules dstBucket existing
  = existing ++ [mkRule dstBucket (Some (add64 (maxPriority existing) 1))].
Proof.
  intros H. unfold reconcileRules. by rewrite updateLoop_absent.
Qed.

Lemma reconcileRules_found (mid post : list s3.ReplicationRule) (r : s3.ReplicationRule) :
  Forall (λ r, targets r = false) mid →
  targets r = true →
  reconcileRules dstBucket (mid ++ r :: post)
  = mid ++ mkRule dstBucket (keptPriority (maxPriority (mid ++ r :: post)) r) :: post.
Proof.
  intros Hmid Hr. unfold reconcileRules.
  by rewrite (updateLoop_found _ [] mid post r Hmid Hr).
Qed.

End ReconcileFacts.

(** [maxPriority] against its description. *)
Lemma maxOver_nonneg (rules : list s3.ReplicationRule) : (0 <= maxOver rules)%Z.
Proof. unfold maxOver. induction rules; csimpl; lia. Qed.

Lemma maxPriority_from (rules : list s3.ReplicationRule) (m : Z) :
  (0 <= m)%Z →
  fold_left
    (λ m r, match s3.rr_Priority r with
            | Some p => if (p >? m)%Z then p else m
            | None => m
            end) rules m
  = Z.max m (maxOver rules).
Proof.
  revert m. induction rules as [|a rules IH]; intros m Hm; csimpl.
  - unfold maxOver. csimpl. lia.
  - unfold maxOver in *. csimpl. unfold priorityOrZero at 1.
    destruct (s3.rr_Priority a) as [p|]; simpl.
    + destruct (Z.gtb_spec p m); rewrite IH by lia; lia.
    + rewrite IH by lia. lia.
Qed.

Lemma maxPriority_maxOver (rules : list s3.ReplicationRule) :
  maxPriority rules = maxOver rules.
Proof.
  unfold maxPriority. rewrite maxPriority_from by lia.
  pose proof (maxOver_nonneg rules). lia.
Qed.

(** [maxOver] bounds every rule, and a rule attains it unless it is 0. *)
Lemma maxOver_upper (rules : list s3.ReplicationRule) (r : s3.ReplicationRule) :
  r ∈ rules → (priorityOrZero r <= maxOver rules)%Z.
Proof.
  unfold maxOver. induction 1; csimpl; lia.
Qed.

Lemma maxOver_attained (rules : list s3.ReplicationRule) :
  maxOver rules = 0%Z ∨ ∃ r, r ∈ rules ∧ priorityOrZero r = maxOver rules.
Proof.
  unfold maxOver. induction rules as [|a rules IH]; csimpl; [by left|].
  destruct (Z.max_spec (priorityOrZero a) (foldr Z.max 0%Z (priorityOrZero <$> rules)))
    as [[_ ->]|[_ ->]].
  - destruct IH as [IH|(r & Hr & IH)]; [by left|].
    right. exists r. split; [by right|done].
  - right. exists a. split; [by left|done].
Qed.

(** ** [putReplicationConfiguration] as a whole *)

Lemma putReplicationConfiguration_run (h : handler) (s3client : client)
    (srcBucket dstBucket roleArn : string) (hist : list event) :
  let getOut := h _ (GetBucketReplication s3client srcBucket) hist in
  let hist1 := hist ++ [Ev (GetBucketReplication s3client srcBucket) getOut] in
  let configuration :=
    {| s3.Role := Some roleArn;
       s3.Rules := reconcileRules dstBucket (existingRulesOf getOut) |} in
  let put := PutBucketReplication s3client srcBucket configuration in
  let err := h _ put hist1 in
  run h (putReplicationConfiguration s3client srcBucket dstBucket roleArn) hist
  = (hist1 ++ [Ev put err],
     Done (match err with
           | Some err => Some (WrapError "PutBucketReplication failed: " err)
           | None => None
           end)).
Proof.
  unfold putReplicationConfiguration. simpl.
  by destruct (h _ (PutBucketReplication _ _ _) _).
Qed.

Lemma putReplicationConfiguration_writes (h : handler) (s3client : client)
    (srcBucket dstBucket roleArn : string) (hist : list event) :
  writesRules h s3client srcBucket dstBucket roleArn hist
    (reconcileRules dstBucket
       (existingRulesOf (h _ (GetBucketReplication s3client srcBucket) hist))).
Proof.
  unfold writesRules. rewrite putReplicationConfiguration_run. simpl.
  eexists _, _. by rewrite <- (assoc_L (++)).
Qed.

(** The [int64] sum at its upper end: with an existing priority of
    [2^63 - 1], the priority given to a new destination wraps around. *)
Example priority_wraps_for_new_destination :
  reconcileRules "C" rulesAtMax = rulesAtMax ++ [mkRule "C" (Some int64_min)].
Proof. vm_compute. reflexivity. Qed.

(** C3, as stated, does not hold for every configuration: when the greatest
    existing priority is the largest [int64], the appended rule does not
    have that priority plus one. *)
Lemma C3_priority_wraps_at_int64_max :
  ¬ (∀ (dstBucket : string) (existing : list s3.ReplicationRule),
       Forall (λ r, destRef r ≠ Some (dstARN dstBucket)) existing →
       ∃ new,
         reconcileRules dstBucket existing = existing ++ [new]
         ∧ s3.rr_Priority new = Some (maxOver existing + 1)%Z).
Proof.
  intros Hclaim.
  destruct (Hclaim "C" rulesAtMax) as (new & Hrec & Hprio).
  { apply (bool_decide_unpack _). vm_compute. exact I. }
  rewrite priority_wraps_for_new_destination in Hrec.
  apply app_inv_head in Hrec. injection Hrec as <-.
  vm_compute in Hprio. discriminate Hprio.
Qed.

(** C3, amended.  When no existing rule targets the requested destination
    (the empty configuration included), the reconciliation appends exactly
    one rule at the end of the list and leaves the existing rules as they
    are, in place.
    The appended rule has priority [maxPriority + 1], where [maxPriority] is
    the greatest priority over the existing rules, rules lacking a priority
    counting as 0 (and 0 when there is no rule).  The sum is the program's
    [int64] sum; it is the integer [maxPriority + 1] whenever [maxPriority]
    is below the largest [int64].
    This is the rule list the function writes back. *)
Theorem C3_new_destination_appended (dstBucket : string)
    (existing : list s3.ReplicationRule) :
  Forall (λ r, destRef r ≠ Some (dstARN dstBucket)) existing →
  let newRule := mkRule dstBucket (Some (add64 (maxPriority existing) 1)) in
  reconcileRules dstBucket existing = existing ++ [newRule]
  ∧ maxPriority existing = maxOver existing
  ∧ ((maxOver existing < int64_max)%Z →
     s3.rr_Priority newRule = Some (maxOver existing + 1)%Z)
  ∧ ∀ (h : handler) (s3client : client) (srcBucket roleArn : string)
      (hist : list event),
      existingRulesOf (h _ (GetBucketReplication s3client srcBucket) hist) = existing →
      writesRules h s3client srcBucket dstBucket roleArn hist (existing ++ [newRule]).
Proof.
  intros Hnone newRule.
  assert (Habsent : reconcileRules dstBucket existing = existing ++ [newRule]).
  { apply reconcileRules_absent.
    eapply Forall_impl; [exact Hnone|]. intros r. by rewrite sameDestination_false. }
  split_and!.
  - exact Habsent.
  - apply maxPriority_maxOver.
  - intros Hlt. subst newRule. simpl. rewrite maxPriority_maxOver.
    pose proof (maxOver_nonneg existing).
    rewrite add64_no_overflow; [done|]. unfold int64_min. lia.
  - intros h s3client srcBucket roleArn hist Hfetch.
    rewrite <- Habsent, <- Hfetch. apply putReplicationConfiguration_writes.
Qed.

Lemma C3_new_destination_appended_witness :
  reconcileRules "C" rulesAB = rulesAB ++ [mkRule "C" (Some 3%Z)]
  ∧ writesRules withRulesAB {| Region := "us-east-1"; Profile := "" |}
      "src" "C" "arn:aws:iam::1:role/r" [] (rulesAB ++ [mkRule "C" (Some 3%Z)]).
Proof.
  assert (H : Forall (λ r, destRef r ≠ Some (dstARN "C")) rulesAB).
  { apply (bool_decide_unpack _). vm_compute. exact I. }
  split.
  - exact (proj1 (C3_new_destination_appended "C" rulesAB H)).
  - apply (proj2 (proj2 (proj2 (C3_new_destination_appended "C" rulesAB H)))).
    reflexivity.
Defined.

(** With the greatest priority at [2^63 - 1], a replaced rule that had no
    priority gets the wrapped sum. *)
Example priority_wraps_for_replaced_rule :
  reconcileRules "B" rulesAtMaxAndB
  = [ruleTo "rule-a" (Some int64_max) "arn:aws:s3:::A"; mkRule "B" (Some int64_min)].
Proof. vm_compute. reflexivity. Qed.

(** C4, as stated, does not hold for every configuration: when the replaced
    rule has no priority and the greatest existing priority is the largest
    [int64], the new rule does not have that priority plus one. *)
Lemma C4_missing_priority_wraps_at_int64_max :
  ¬ (∀ (dstBucket : string) (existing : list s3.ReplicationRule),
       Exists (λ r, destRef r = Some (dstARN dstBucket)) existing →
       ∃ (i : nat) (old new : s3.ReplicationRule),
         existing !! i = Some old
         ∧ destRef old = Some (dstARN dstBucket)
         ∧ reconcileRules dstBucket existing = <[i := new]> existing
         ∧ s3.rr_Priority new
           = match s3.rr_Priority old with
             | Some p => Some p
             | None => Some (maxOver existing + 1)%Z
             end).
Proof.
  intros Hclaim.
  destruct (Hclaim "B" rulesAtMaxAndB) as (i & old & new & Hold & Hdest & Hrec & Hprio).
  { apply (bool_decide_unpack _). vm_compute. exact I. }
  rewrite priority_wraps_for_replaced_rule in Hrec.
  destruct i as [|[|i]]; simpl in Hold; [| |discriminate Hold].
  - injection Hold as <-. vm_compute in Hdest. discriminate Hdest.
  - injection Hold as <-. simpl in Hrec. injection Hrec as <-.
    vm_compute in Hprio. discriminate Hprio.
Qed.

(** C4, amended.  When an existing rule targets the requested destination,
    the first such rule is replaced at its own position: the new rule has the
    identifier derived from the destination, status Enabled, the empty
    prefix filter, delete-marker replication Disabled, and the priority of
    the replaced rule when it had one, [maxPriority + 1] otherwise (the
    program's [int64] sum, the integer sum below the largest [int64]).
    The list keeps its length and every other position keeps its rule.
    This is the rule list the function writes back. *)
Theorem C4_existing_destination_replaced (dstBucket : string)
    (existing : list s3.ReplicationRule) :
  Exists (λ r, destRef r = Some (dstARN dstBucket)) existing →
  ∃ (i : nat) (old new : s3.ReplicationRule),
    existing !! i = Some old
    ∧ destRef old = Some (dstARN dstBucket)
    ∧ (∀ j r, j < i → existing !! j = Some r → destRef r ≠ Some (dstARN dstBucket))
    ∧ reconcileRules dstBucket existing = <[i := new]> existing
    ∧ reconcileRules dstBucket existing !! i = Some new
    ∧ length (reconcileRules dstBucket existing) = length existing
    ∧ (∀ j, j ≠ i → reconcileRules dstBucket existing !! j = existing !! j)
    ∧ s3.rr_ID new = Some ("replicate-to-" +:+ dstBucket)
    ∧ s3.rr_Status new = Some "Enabled"
    ∧ s3.rr_Filter new = Some {| s3.Prefix := Some "" |}
    ∧ s3.rr_DeleteMarkerReplication new = Some {| s3.Status := Some "Disabled" |}
    ∧ destRef new = Some (dstARN dstBucket)
    ∧ s3.rr_Priority new
      = match s3.rr_Priority old with
        | Some p => Some p
        | None => Some (add64 (maxPriority existing) 1)
        end
    ∧ maxPriority existing = maxOver existing
    ∧ ((maxOver existing < int64_max)%Z →
       add64 (maxPriority existing) 1 = (maxOver existing + 1)%Z)
    ∧ ∀ (h : handler) (s3client : client) (srcBucket roleArn : string)
        (hist : list event),
        existingRulesOf (h _ (GetBucketReplication s3client srcBucket) hist) = existing →
        writesRules h s3client srcBucket dstBucket roleArn hist (<[i := new]> existing).
Proof.
  intros Hsome.
  destruct (first_target_split dstBucket existing)
    as [Hnone|(mid & old & post & Hsplit & Hmid & Hold)].
  { apply Exists_exists in Hsome as (r & Hr & Hdest).
    rewrite Forall_forall in Hnone. apply Hnone in Hr.
    apply sameDestination_false in Hr. done. }
  set (new := mkRule dstBucket (keptPriority (maxPriority existing) old)).
  assert (Hins : <[length mid := new]> existing = mid ++ new :: post).
  { rewrite Hsplit. replace (length mid) with (length mid + 0) by lia.
    by rewrite insert_app_r. }
  assert (Hrec : reconcileRules dstBucket existing = <[length mid := new]> existing).
  { rewrite Hins. subst new. rewrite Hsplit. by apply reconcileRules_found. }
  assert (Hlt : length mid < length existing).
  { rewrite Hsplit, length_app. simpl. lia. }
  exists (length mid), old, new. split_and!.
  - rewrite Hsplit. by apply list_lookup_middle.
  - by apply sameDestination_destRef.
  - intros j r Hj Hlook. rewrite Hsplit, lookup_app_l in Hlook by done.
    apply sameDestination_false.
    by apply (Forall_lookup_1 _ _ _ _ Hmid Hlook).
  - exact Hrec.
  - rewrite Hrec. by apply list_lookup_insert_eq.
  - rewrite Hrec. apply length_insert.
  - intros j Hj. rewrite Hrec. by apply list_lookup_insert_ne.
  - reflexivity.
  - reflexivity.
  - reflexivity.
  - reflexivity.
  - reflexivity.
  - subst new. simpl. unfold keptPriority. by destruct (s3.rr_Priority old).
  - apply maxPriority_maxOver.
  - intros Hmax. rewrite maxPriority_maxOver.
    pose proof (maxOver_nonneg existing).
    apply add64_no_overflow. unfold int64_min. lia.
  - intros h s3client srcBucket roleArn hist Hfetch.
    rewrite <- Hrec, <- Hfetch. apply putReplicationConfiguration_writes.
Qed.

Lemma C4_existing_destination_replaced_witness :
  ∃ (i : nat) (new : s3.ReplicationRule),
    reconcileRules "B" rulesAB = <[i := new]> rulesAB
    ∧ s3.rr_Priority new = Some 2%Z.
Proof.
  assert (H : Exists (λ r, destRef r = Some (dstARN "B")) rulesAB).
  { apply (bool_decide_unpack _). vm_compute. exact I. }
  destruct (C4_existing_destination_replaced "B" rulesAB H)
    as (i & old & new & Hold & _ & _ & Hrec & _ & _ & _ & _ & _ & _ & _ & _ & Hprio & _).
  exists i, new. split; [exact Hrec|].
  rewrite Hprio.
  destruct i as [|[|i]]; simpl in Hold; [discriminate| |discriminate].
  injection Hold as <-. reflexivity.
Defined.

(** C2. Starting from rules whose destination references are pairwise
    distinct, the rule list written back has pairwise distinct destination
    references and names the requested destination; when the destination
    was already named, the list of references is the one before, so the
    rule is merged into the existing one and not added again. *)
Theorem C2_destinations_stay_distinct (dstBucket : string)
    (existing : list s3.ReplicationRule) :
  NoDup (destRefs existing) →
  NoDup (destRefs (reconcileRules dstBucket existing))
  ∧ dstARN dstBucket ∈ destRefs (reconcileRules dstBucket existing)
  ∧ (dstARN dstBucket ∈ destRefs existing →
     destRefs (reconcileRules dstBucket existing) = destRefs existing)
  ∧ ∀ (h : handler) (s3client : client) (srcBucket roleArn : string)
      (hist : list event),
      existingRulesOf (h _ (GetBucketReplication s3client srcBucket) hist) = existing →
      ∃ rules,
        writesRules h s3client srcBucket dstBucket roleArn hist rules
        ∧ NoDup (destRefs rules).
Proof.
  intros Hdistinct.
  assert (Hrefs : destRefs (reconcileRules dstBucket existing)
                  = if decide (dstARN dstBucket ∈ destRefs existing)
                    then destRefs existing
                    else destRefs existing ++ [dstARN dstBucket]).
  { destruct (first_target_split dstBucket existing)
      as [Hnone|(mid & old & post & Hsplit & Hmid & Hold)].
    - rewrite reconcileRules_absent by done.
      unfold destRefs. rewrite omap_app. simpl.
      rewrite decide_False; [done|].
      intros (r & Hr & Href)%list_elem_of_omap.
      rewrite Forall_forall in Hnone. apply Hnone in Hr.
      by apply sameDestination_false in Hr.
    - apply sameDestination_destRef in Hold as Hold'.
      rewrite Hsplit, reconcileRules_found by done.
      unfold destRefs. rewrite !omap_app. simpl. rewrite Hold'.
      rewrite decide_True; [done|].
      apply elem_of_app. right. by left. }
  assert (Hnodup : NoDup (destRefs (reconcileRules dstBucket existing))).
  { rewrite Hrefs. destruct (decide _) as [|Hnot]; [done|].
    apply NoDup_app. split_and!; [done| |apply NoDup_singleton].
    intros x Hx ->%list_elem_of_singleton. done. }
  split_and!.
  - exact Hnodup.
  - rewrite Hrefs. destruct (decide _); [done|].
    apply elem_of_app. right. by left.
  - intros Hin. rewrite Hrefs. by rewrite decide_True.
  - intros h s3client srcBucket roleArn hist Hfetch.
    exists (reconcileRules dstBucket existing). split; [|done].
    rewrite <- Hfetch. apply putReplicationConfiguration_writes.
Qed.

Lemma C2_destinations_stay_distinct_witness :
  NoDup (destRefs (reconcileRules "B" rulesAB))
  ∧ destRefs (reconcileRules "B" rulesAB) = ["arn:aws:s3:::A"; "arn:aws:s3:::B"].
Proof.
  assert (H : NoDup (destRefs rulesAB)).
  { apply (bool_decide_unpack _). vm_compute. exact I. }
  split.
  - exact (proj1 (C2_destinations_stay_distinct "B" rulesAB H)).
  - reflexivity.
Defined.

(** With the fetch denied, the function answers nil and writes a
    configuration that holds the new rule alone. *)
Example fetchDenied_run :
  let s3Src := {| Region := "us-east-1"; Profile := "" |} in
  run fetchDenied (putReplicationConfiguration s3Src "src" "dst" "role") []
  = ([Ev (GetBucketReplication s3Src "src") (Failed (AwsError "AccessDenied" "Access Denied"));
      Ev (PutBucketReplication s3Src "src"
            {| s3.Role := Some "role"; s3.Rules := [mkRule "dst" (Some 1%Z)] |}) None],
     Done None).
Proof. reflexivity. Qed.

(** C1, as stated, does not hold: a fetch failure that does not mean "no
    configuration exists" is not surfaced.  The fetch is denied, and the
    function returns nil. *)
Lemma C1_other_fetch_failure_not_surfaced :
  ¬ (∀ (h : handler) (s3client : client) (srcBucket dstBucket roleArn : string)
       (hist : list event) (err : error),
       h _ (GetBucketReplication s3client srcBucket) hist = Failed err →
       noConfigurationExists err = false →
       ∃ e, snd (run h (putReplicationConfiguration s3client srcBucket dstBucket roleArn)
                   hist)
            = Done (Some e)).
Proof.
  intros Hclaim.
  destruct (Hclaim fetchDenied {| Region := "us-east-1"; Profile := "" |}
              "src" "dst" "role" [] (AwsError "AccessDenied" "Access Denied")
              eq_refl eq_refl) as [e He].
  rewrite fetchDenied_run in He. discriminate He.
Qed.

(** C1, amended.  Every failure of the fetch, whatever its cause, is
    swallowed: the existing rules are taken to be empty and the
    configuration written back holds the new rule alone, with priority 1.
    The function performs one fetch and one write-back and nothing else;
    a failure of the write-back is returned to the caller, wrapped, and a
    successful write-back returns nil. *)
Theorem C1_fetch_failure_swallowed_write_failure_surfaced (h : handler)
    (s3client : client) (srcBucket dstBucket roleArn : string) (hist : list event) :
  let getOut := h _ (GetBucketReplication s3client srcBucket) hist in
  let hist1 := hist ++ [Ev (GetBucketReplication s3client srcBucket) getOut] in
  let configuration :=
    {| s3.Role := Some roleArn;
       s3.Rules := reconcileRules dstBucket (existingRulesOf getOut) |} in
  let put := PutBucketReplication s3client srcBucket configuration in
  let err := h _ put hist1 in
  let outcome := run h (putReplicationConfiguration s3client srcBucket dstBucket roleArn) hist in
  (∀ e, getOut = Failed e →
        existingRulesOf getOut = []
        ∧ s3.Rules configuration = [mkRule dstBucket (Some 1%Z)])
  ∧ fst outcome = hist1 ++ [Ev put err]
  ∧ (∀ e, err = Some e →
          snd outcome = Done (Some (WrapError "PutBucketReplication failed: " e)))
  ∧ (err = None → snd outcome = Done None).
Proof.
  intros getOut hist1 configuration put err outcome.
  subst outcome. rewrite putReplicationConfiguration_run.
  fold getOut hist1 configuration put err. simpl.
  split_and!.
  - intros e He. subst configuration. rewrite He. by split.
  - done.
  - by intros e ->.
  - by intros ->.
Qed.

Lemma C1_fetch_failure_swallowed_write_failure_surfaced_witness :
  let s3Src := {| Region := "us-east-1"; Profile := "" |} in
  fst (run fetchDenied (putReplicationConfiguration s3Src "src" "dst" "role") [])
  = [Ev (GetBucketReplication s3Src "src") (Failed (AwsError "AccessDenied" "Access Denied"));
     Ev (PutBucketReplication s3Src "src"
           {| s3.Role := Some "role"; s3.Rules := [mkRule "dst" (Some 1%Z)] |}) None].
Proof.
  exact (proj1 (proj2 (C1_fetch_failure_swallowed_write_failure_surfaced fetchDenied
                         {| Region := "us-east-1"; Profile := "" |}
                         "src" "dst" "role" []))).
Defined.

(** ** Running sequenced programs *)

Lemma run_bind {A B : Type} (h : handler) (m : prog A) (f : A → prog B)
    (hist : list event) :
  run h (bind m f) hist
  = match run h m hist with
    | (hist', Done a) => run h (f a) hist'
    | (hist', Stopped x) => (hist', Stopped x)
    end.
Proof.
  revert hist. induction m as [a|x|R op k IH]; intros hist; simpl; [done..|].
  apply IH.
Qed.

Lemma unit_answer (u : unit) : u = tt.
Proof. by destruct u. Qed.

(** ** The setup tool: bucket and role *)

Lemma ensureBucketExists_run (h : handler) (s3client : client)
    (bucketName region : string) (hist : list event) :
  let head := HeadBucket s3client bucketName in
  let create :=
    CreateBucket s3client bucketName
      (if String.eqb region "us-east-1" then None else Some region) in
  let wait := WaitUntilBucketExists s3client bucketName in
  run h (ensureBucketExists s3client bucketName region) hist
  = match h _ head hist with
    | None => (hist ++ [Ev head None], Done None)
    | Some headErr =>
        let hist1 := hist ++ [Ev head (Some headErr)] in
        match h _ create hist1 with
        | Some err =>
            (hist1 ++ [Ev create (Some err)],
             Done (match awserrCode err with
                   | Some code =>
                       if String.eqb code s3.ErrCodeBucketAlreadyOwnedByYou then None
                       else if String.eqb code s3.ErrCodeBucketAlreadyExists then
                         Some (PlainError
                                 ("bucket " +:+ bucketName +:+
                                  " already exists and is owned by another account"))
                       else Some err
                   | None => Some err
                   end))
        | None =>
            let hist2 := hist1 ++ [Ev create None] in
            (hist2 ++ [Ev wait (h _ wait hist2)],
             Done (match h _ wait hist2 with
                   | Some err =>
                       Some (WrapError "bucket creation started but wait failed: " err)
                   | None => None
                   end))
        end
    end.
Proof.
  unfold ensureBucketExists. simpl.
  destruct (h _ (HeadBucket _ _) hist) as [headErr|]; simpl; [|done].
  destruct (h _ (CreateBucket _ _ _) _) as [err|]; simpl.
  - destruct (awserrCode err) as [code|]; [|done].
    destruct (String.eqb code s3.ErrCodeBucketAlreadyOwnedByYou); [done|].
    by destruct (String.eqb code s3.ErrCodeBucketAlreadyExists).
  - by destruct (h _ (WaitUntilBucketExists _ _) _).
Qed.

(** An error of [ensureBucketExists] ends the setup tool at once, through
    [log.Fatalf]: no later stage is run. *)
Lemma setupMain_stops_when_bucket_fails (h : handler) (f : setupFlags)
    (trace : list event) (err : error) :
  sf_source_bucket f ≠ "" →
  sf_dest_bucket f ≠ "" →
  let s3Dst := {| Region := sf_dest_region f; Profile := sf_profile f |} in
  let banner :=
    Printf "Setting up replication from %s (%s) -> %s (%s)\n"
      [FStr (sf_source_bucket f); FStr (sf_source_region f);
       FStr (sf_dest_bucket f); FStr (sf_dest_region f)] in
  run h (ensureBucketExists s3Dst (sf_dest_bucket f) (sf_dest_region f)) [Ev banner tt]
  = (trace, Done (Some err)) →
  run h (setupMain f) []
  = (trace, Stopped (Fatalf "Failed ensuring destination bucket: %v" [FErr (Some err)])).
Proof.
  intros Hsrc Hdst s3Dst banner Hrun. unfold setupMain.
  apply String.eqb_neq in Hsrc, Hdst. rewrite Hsrc, Hdst.
  cbn [orb bind call run app].
  rewrite (unit_answer (h _ _ _)).
  rewrite run_bind. fold s3Dst banner. by rewrite Hrun.
Qed.

(** C5. After a failed probe, a creation that reports the bucket as already
    owned by the caller makes [ensureBucketExists] return nil; a creation
    that reports the bucket as existing under another account makes it
    return the ownership error.  In both cases the creation is called once
    and nothing is called after it, and in the second case the setup tool
    stops there with a fatal message. *)
Theorem C5_already_owned_succeeds_conflict_is_fatal (h : handler)
    (s3client : client) (bucketName region : string) (hist : list event)
    (headErr : error) (message : string) :
  let head := HeadBucket s3client bucketName in
  let create :=
    CreateBucket s3client bucketName
      (if String.eqb region "us-east-1" then None else Some region) in
  let hist1 := hist ++ [Ev head (Some headErr)] in
  let conflict :=
    PlainError ("bucket " +:+ bucketName +:+
                " already exists and is owned by another account") in
  h _ head hist = Some headErr →
  (h _ create hist1 = Some (AwsError s3.ErrCodeBucketAlreadyOwnedByYou message) →
   run h (ensureBucketExists s3client bucketName region) hist
   = (hist1 ++ [Ev create (Some (AwsError s3.ErrCodeBucketAlreadyOwnedByYou message))],
      Done None))
  ∧ (h _ create hist1 = Some (AwsError s3.ErrCodeBucketAlreadyExists message) →
     run h (ensureBucketExists s3client bucketName region) hist
     = (hist1 ++ [Ev create (Some (AwsError s3.ErrCodeBucketAlreadyExists message))],
        Done (Some conflict))
     ∧ ∀ f : setupFlags,
         sf_source_bucket f ≠ "" →
         sf_dest_bucket f = bucketName →
         bucketName ≠ "" →
         sf_dest_region f = region →
         s3client = {| Region := sf_dest_region f; Profile := sf_profile f |} →
         hist = [Ev (Printf "Setting up replication from %s (%s) -> %s (%s)\n"
                       [FStr (sf_source_bucket f); FStr (sf_source_region f);
                        FStr (sf_dest_bucket f); FStr (sf_dest_region f)]) tt] →
         run h (setupMain f) []
         = (hist1 ++ [Ev create (Some (AwsError s3.ErrCodeBucketAlreadyExists message))],
            Stopped (Fatalf "Failed ensuring destination bucket: %v"
                       [FErr (Some conflict)]))).
Proof.
  intros head create hist1 conflict Hhead.
  pose proof (ensureBucketExists_run h s3client bucketName region hist) as Hrun.
  cbv zeta in Hrun. fold head create in Hrun. rewrite Hhead in Hrun. fold hist1 in Hrun.
  split.
  - intros Hcreate. rewrite Hcreate in Hrun. exact Hrun.
  - intros Hcreate. rewrite Hcreate in Hrun. split; [exact Hrun|].
    intros f Hsrc Hdst Hne Hregion Hclient Hhist.
    apply setupMain_stops_when_bucket_fails; [done|by rewrite Hdst|].
    cbv zeta. rewrite <- Hclient, <- Hhist, Hdst, Hregion. exact Hrun.
Qed.

Lemma C5_already_owned_succeeds_conflict_is_fatal_witness :
  let s3Dst := {| Region := "us-west-2"; Profile := "" |} in
  let owned := AwsError s3.ErrCodeBucketAlreadyOwnedByYou "yours" in
  run (bucketTaken (AwsError "Forbidden" "Forbidden") owned)
    (ensureBucketExists s3Dst "dst" "us-west-2") []
  = ([Ev (HeadBucket s3Dst "dst") (Some (AwsError "Forbidden" "Forbidden"));
      Ev (CreateBucket s3Dst "dst" (Some "us-west-2")) (Some owned)],
     Done None).
Proof.
  exact (proj1 (C5_already_owned_succeeds_conflict_is_fatal
                  (bucketTaken (AwsError "Forbidden" "Forbidden")
                     (AwsError s3.ErrCodeBucketAlreadyOwnedByYou "yours"))
                  {| Region := "us-west-2"; Profile := "" |} "dst" "us-west-2" []
                  (AwsError "Forbidden" "Forbidden") "yours" eq_refl) eq_refl).
Defined.

(** The ownership conflict, run through the whole setup tool. *)
Example setupMain_ownership_conflict :
  let f := {| sf_source_bucket := "src"; sf_source_region := "us-east-1";
              sf_dest_bucket := "dst"; sf_dest_region := "us-west-2";
              sf_role_name := "role-x"; sf_profile := "" |} in
  let s3Dst := {| Region := "us-west-2"; Profile := "" |} in
  let taken := AwsError s3.ErrCodeBucketAlreadyExists "taken" in
  run (bucketTaken (AwsError "Forbidden" "Forbidden") taken) (setupMain f) []
  = ([Ev (Printf "Setting up replication from %s (%s) -> %s (%s)\n"
            [FStr "src"; FStr "us-east-1"; FStr "dst"; FStr "us-west-2"]) tt;
      Ev (HeadBucket s3Dst "dst") (Some (AwsError "Forbidden" "Forbidden"));
      Ev (CreateBucket s3Dst "dst" (Some "us-west-2")) (Some taken)],
     Stopped (Fatalf "Failed ensuring destination bucket: %v"
                [FErr (Some (PlainError
                   "bucket dst already exists and is owned by another account"))])).
Proof. reflexivity. Qed.

(** C10. Only a successful probe returns without a creation call.  A probe
    that fails, with whatever error, is followed by the creation call, and
    the function returns what the creation (and the wait after it) decide:
    the kind of the probe error plays no part. *)
Theorem C10_any_probe_failure_leads_to_creation (h : handler)
    (s3client : client) (bucketName region : string) (hist : list event) :
  let head := HeadBucket s3client bucketName in
  let create :=
    CreateBucket s3client bucketName
      (if String.eqb region "us-east-1" then None else Some region) in
  (h _ head hist = None →
   run h (ensureBucketExists s3client bucketName region) hist
   = (hist ++ [Ev head None], Done None))
  ∧ (∀ headErr : error,
       h _ head hist = Some headErr →
       let hist1 := hist ++ [Ev head (Some headErr)] in
       ∃ rest,
         fst (run h (ensureBucketExists s3client bucketName region) hist)
         = hist1 ++ Ev create (h _ create hist1) :: rest).
Proof.
  intros head create.
  pose proof (ensureBucketExists_run h s3client bucketName region hist) as Hrun.
  cbv zeta in Hrun. fold head create in Hrun.
  split.
  - intros Hhead. by rewrite Hhead in Hrun.
  - intros headErr Hhead hist1. rewrite Hhead in Hrun. fold hist1 in Hrun.
    rewrite Hrun. destruct (h _ create hist1) as [err|]; simpl.
    + by exists [].
    + eexists [_]. by rewrite <- (assoc_L (++)).
Qed.

Lemma C10_any_probe_failure_leads_to_creation_witness :
  let s3Dst := {| Region := "us-west-2"; Profile := "" |} in
  let denied := AwsError "Forbidden" "Forbidden" in
  let taken := AwsError s3.ErrCodeBucketAlreadyExists "taken" in
  ∃ rest,
    fst (run (bucketTaken denied taken) (ensureBucketExists s3Dst "dst" "us-west-2") [])
    = [Ev (HeadBucket s3Dst "dst") (Some denied)]
      ++ Ev (CreateBucket s3Dst "dst" (Some "us-west-2")) (Some taken) :: rest.
Proof.
  exact (proj2 (C10_any_probe_failure_leads_to_creation
                  (bucketTaken (AwsError "Forbidden" "Forbidden")
                     (AwsError s3.ErrCodeBucketAlreadyExists "taken"))
                  {| Region := "us-west-2"; Profile := "" |} "dst" "us-west-2" [])
               (AwsError "Forbidden" "Forbidden") eq_refl).
Defined.

Lemma createOrGetRole_run (h : handler) (iamSvc : client) (roleName : string)
    (hist : list event) :
  let create :=
    CreateRole iamSvc roleName assumeRolePolicy "Role for S3 cross-region replication" in
  let get := GetRole iamSvc roleName in
  let adopt (err : error) :=
    let hist1 := hist ++ [Ev create (Failed err)] in
    match h _ get hist1 with
    | Failed gerr =>
        (hist1 ++ [Ev get (Failed gerr)],
         Done (inr (WrapError "role exists but failed to get role: " gerr)))
    | Ok out =>
        (hist1 ++ [Ev get (Ok out)],
         match iam.gr_Role out with
         | Some role => Done (inl (StringValue (iam.Arn role)))
         | None => Stopped NilDereference
         end)
    end in
  let refuse (err : error) :=
    (hist ++ [Ev create (Failed err)], Done (inr (WrapError "CreateRole error: " err))) in
  run h (createOrGetRole iamSvc roleName) hist
  = match h _ create hist with
    | Failed err =>
        match awserrCode err with
        | Some code =>
            if String.eqb code iam.ErrCodeEntityAlreadyExistsException
            then adopt err else refuse err
        | None => refuse err
        end
    | Ok out =>
        (hist ++ [Ev create (Ok out)],
         match iam.cr_Role out with
         | Some role => Done (inl (StringValue (iam.Arn role)))
         | None => Stopped NilDereference
         end)
    end.
Proof.
  unfold createOrGetRole. simpl.
  destruct (h _ (CreateRole _ _ _ _) hist) as [out|err]; simpl.
  - by destruct (iam.cr_Role out).
  - destruct (awserrCode err) as [code|]; [|done].
    destruct (String.eqb code iam.ErrCodeEntityAlreadyExistsException); [|done].
    simpl. destruct (h _ (GetRole _ _) _) as [out|gerr]; simpl; [|done].
    by destruct (iam.gr_Role out).
Qed.

(** C6. When role creation fails with the entity-already-exists code, the
    role is looked up by the same name; the ARN of the role found is the one
    the function goes on with, and it is returned, with a nil error, once
    the inline policy has been attached.  When role creation fails with any
    other error, the function returns that error, wrapped, after the single
    creation call: no retry and no lookup. *)
Theorem C6_adopt_existing_role_other_errors_fatal (h : handler) (iamSvc : client)
    (roleName srcBucket dstBucket dstRegion : string) (hist : list event)
    (createErr : error) :
  let create :=
    CreateRole iamSvc roleName assumeRolePolicy "Role for S3 cross-region replication" in
  let get := GetRole iamSvc roleName in
  let putPolicy :=
    PutRolePolicy iamSvc roleName
      (roleName +:+ "-replication-" +:+ srcBucket +:+ "-to-" +:+ dstBucket)
      (replicationPolicy srcBucket dstBucket) in
  let hist1 := hist ++ [Ev create (Failed createErr)] in
  h _ create hist = Failed createErr →
  (awserrCode createErr = Some iam.ErrCodeEntityAlreadyExistsException →
   ∀ (out : iam.GetRoleOutput) (role : iam.Role),
     h _ get hist1 = Ok out →
     iam.gr_Role out = Some role →
     let hist2 := hist1 ++ [Ev get (Ok out)] in
     run h (createOrGetRole iamSvc roleName) hist
     = (hist2, Done (inl (StringValue (iam.Arn role))))
     ∧ (h _ putPolicy hist2 = None →
        run h (ensureReplicationRole iamSvc roleName srcBucket dstBucket dstRegion) hist
        = (hist2 ++ [Ev putPolicy None; Ev (Sleep (5 * Second)) tt],
           Done (StringValue (iam.Arn role), None))))
  ∧ (awserrCode createErr ≠ Some iam.ErrCodeEntityAlreadyExistsException →
     run h (ensureReplicationRole iamSvc roleName srcBucket dstBucket dstRegion) hist
     = (hist1, Done ("", Some (WrapError "CreateRole error: " createErr)))).
Proof.
  intros create get putPolicy hist1 Hcreate.
  pose proof (createOrGetRole_run h iamSvc roleName hist) as Hrole.
  cbv zeta in Hrole. fold create get in Hrole. rewrite Hcreate in Hrole. fold hist1 in Hrole.
  split.
  - intros Hcode out role Hget Hrole' hist2.
    rewrite Hcode, String.eqb_refl, Hget, Hrole' in Hrole. fold hist2 in Hrole.
    split; [exact Hrole|].
    intros Hput. unfold ensureReplicationRole. rewrite run_bind, Hrole.
    simpl. fold putPolicy. rewrite Hput. simpl.
    rewrite (unit_answer (h _ _ _)). by rewrite <- (assoc_L (++)).
  - intros Hcode. unfold ensureReplicationRole. rewrite run_bind.
    destruct (awserrCode createErr) as [code|] eqn:Hc.
    + destruct (String.eqb_spec code iam.ErrCodeEntityAlreadyExistsException) as [->|_];
        [done|].
      by rewrite Hrole.
    + by rewrite Hrole.
Qed.

Lemma C6_adopt_existing_role_other_errors_fatal_witness :
  let iamSvc := {| Region := "us-east-1"; Profile := "" |} in
  let exists_ := AwsError iam.ErrCodeEntityAlreadyExistsException "role exists" in
  snd (run (roleCreationFails exists_)
         (ensureReplicationRole iamSvc "role-x" "src" "dst" "us-west-2") [])
  = Done ("arn:aws:iam::1:role/existing", None).
Proof.
  exact (f_equal snd
           (proj2 (proj1 (C6_adopt_existing_role_other_errors_fatal
                            (roleCreationFails
                               (AwsError iam.ErrCodeEntityAlreadyExistsException
                                  "role exists"))
                            {| Region := "us-east-1"; Profile := "" |}
                            "role-x" "src" "dst" "us-west-2" []
                            (AwsError iam.ErrCodeEntityAlreadyExistsException "role exists")
                            eq_refl)
                         eq_refl
                         {| iam.gr_Role :=
                              Some {| iam.Arn := Some "arn:aws:iam::1:role/existing" |} |}
                         {| iam.Arn := Some "arn:aws:iam::1:role/existing" |}
                         eq_refl eq_refl)
                  eq_refl)).
Defined.

(** Role creation is throttled: one call, and the error comes back. *)
Example role_creation_throttled :
  let iamSvc := {| Region := "us-east-1"; Profile := "" |} in
  let throttled := AwsError "Throttling" "Rate exceeded" in
  run (roleCreationFails throttled)
    (ensureReplicationRole iamSvc "role-x" "src" "dst" "us-west-2") []
  = ([Ev (CreateRole iamSvc "role-x" assumeRolePolicy
            "Role for S3 cross-region replication") (Failed throttled)],
     Done ("", Some (WrapError "CreateRole error: " throttled))).
Proof. reflexivity. Qed.

(** ** The polling loop *)

Lemma headCount_app (l1 l2 : list event) :
  headCount (l1 ++ l2) = headCount l1 + headCount l2.
Proof. unfold headCount. by rewrite filter_app, length_app. Qed.

Lemma headCount_cons (ev : event) (l : list event) :
  headCount (ev :: l) = (if isHeadObject ev then 1 else 0) + headCount l.
Proof.
  unfold headCount. rewrite filter_cons.
  destruct (isHeadObject ev); by rewrite ?decide_True, ?decide_False by done.
Qed.

Lemma invocations_app (l1 l2 : list event) :
  invocations (l1 ++ l2) = invocations l1 ++ invocations l2.
Proof. unfold invocations. apply fmap_app. Qed.

Section PollFacts.

Variable h : handler.
Variables (s3Dst : client) (dstBucket key : string).

Local Abbreviation check := (HeadObject s3Dst dstBucket key).

(** One unsuccessful round: wait, check, report, and go on from the
    extended history. *)
Lemma pollLoop_failed_round (n : nat) (i : Z) (hist : list event) (err : error) :
  let hist1 := hist ++ [Ev (Sleep (10 * Second)) tt] in
  h _ check hist1 = Some err →
  run h (pollLoop s3Dst dstBucket key (S n) i) hist
  = run h (pollLoop s3Dst dstBucket key n (i + 1)%Z)
      (hist ++ [Ev (Sleep (10 * Second)) tt;
                Ev check (Some err);
                Ev (Printf "Check %d: object not replicated yet\n" [FInt (i + 1)]) tt]).
Proof.
  intros hist1 Hcheck. simpl.
  rewrite (unit_answer (h _ (Sleep _) _)). fold hist1. rewrite Hcheck. simpl.
  rewrite (unit_answer (h _ (Printf _ _) _)).
  subst hist1. by rewrite <- !(assoc_L (++)).
Qed.

Lemma pollLoop_success_round (n : nat) (i : Z) (hist : list event) :
  let hist1 := hist ++ [Ev (Sleep (10 * Second)) tt] in
  h _ check hist1 = None →
  run h (pollLoop s3Dst dstBucket key (S n) i) hist
  = (hist ++ [Ev (Sleep (10 * Second)) tt; Ev check None], Done true).
Proof.
  intros hist1 Hcheck. simpl.
  rewrite (unit_answer (h _ (Sleep _) _)). fold hist1. rewrite Hcheck. simpl.
  subst hist1. by rewrite <- !(assoc_L (++)).
Qed.

(** Checks that always fail: the loop runs all its rounds. *)
Lemma pollLoop_never_found (n : nat) (i : Z) (hist : list event) :
  (∀ hist', h _ check hist' ≠ None) →
  ∃ trace,
    run h (pollLoop s3Dst dstBucket key n i) hist = (hist ++ trace, Done false)
    ∧ invocations trace = failedRounds s3Dst dstBucket key n i
    ∧ headCount trace = n.
Proof.
  intros Hfail. revert i hist.
  induction n as [|n IH]; intros i hist.
  - exists []. by rewrite app_nil_r.
  - destruct (h _ check (hist ++ [Ev (Sleep (10 * Second)) tt])) as [err|] eqn:Hcheck;
      [|by apply Hfail in Hcheck].
    rewrite (pollLoop_failed_round n i hist err Hcheck).
    destruct (IH (i + 1)%Z
                (hist ++ [Ev (Sleep (10 * Second)) tt; Ev check (Some err);
                          Ev (Printf "Check %d: object not replicated yet\n"
                                [FInt (i + 1)]) tt]))
      as (trace & Hrun & Hinv & Hcount).
    eexists (_ :: _ :: _ :: trace). split_and!.
    + rewrite Hrun. by rewrite <- (assoc_L (++)).
    + simpl. by rewrite <- Hinv.
    + rewrite !headCount_cons, Hcount. reflexivity.
Qed.

(** Checks that fail [j] times and then succeed: the loop stops after
    check [S j]. *)
Lemma pollLoop_found_at (j n : nat) (i : Z) (hist : list event) :
  j < n →
  (∀ m hist', m < j → headCount hist' = headCount hist + m → h _ check hist' ≠ None) →
  (∀ hist', headCount hist' = headCount hist + j → h _ check hist' = None) →
  ∃ trace,
    run h (pollLoop s3Dst dstBucket key n i) hist = (hist ++ trace, Done true)
    ∧ invocations trace
      = failedRounds s3Dst dstBucket key j i
        ++ [Invoke (Sleep (10 * Second)); Invoke check]
    ∧ headCount trace = S j.
Proof.
  revert n i hist. induction j as [|j IH]; intros n i hist Hlt Hfail Hfound.
  - destruct n as [|n]; [lia|].
    rewrite pollLoop_success_round.
    + by eexists [_; _].
    + apply Hfound. rewrite headCount_app. reflexivity.
  - destruct n as [|n]; [lia|].
    destruct (h _ check (hist ++ [Ev (Sleep (10 * Second)) tt])) as [err|] eqn:Hcheck.
    2:{ apply (Hfail 0) in Hcheck; [done|lia|]. rewrite headCount_app. simpl. reflexivity. }
    rewrite (pollLoop_failed_round n i hist err Hcheck).
    set (hist3 := hist ++ [Ev (Sleep (10 * Second)) tt; Ev check (Some err);
                            Ev (Printf "Check %d: object not replicated yet\n"
                                  [FInt (i + 1)]) tt]).
    assert (Hcount3 : headCount hist3 = headCount hist + 1).
    { subst hist3. rewrite headCount_app. reflexivity. }
    destruct (IH n (i + 1)%Z hist3) as (trace & Hrun & Hinv & Hcount).
    + lia.
    + intros m hist' Hm Hc. apply (Hfail (S m)); lia.
    + intros hist' Hc. apply Hfound. lia.
    + eexists (_ :: _ :: _ :: trace). split_and!.
      * rewrite Hrun. subst hist3. by rewrite <- (assoc_L (++)).
      * simpl. by rewrite <- Hinv.
      * rewrite !headCount_cons, Hcount. reflexivity.
Qed.

End PollFacts.

(** The loop body around the polling loop: announce, poll, report, and
    return to the caller whatever was found. *)
Lemma pollDestination_reports (h : handler) (profile key detectedRegion dstBucket : string)
    (hist trace : list event) (found : bool) :
  let s3Dst := {| Region := detectedRegion; Profile := profile |} in
  let announce :=
    [Ev (Printf "Using region %s for bucket %s\n" [FStr detectedRegion; FStr dstBucket]) tt;
     Ev (Println "Waiting for replication (may take 30–60 seconds)...") tt] in
  let report :=
    if found
    then Printf "✅ Object %s replicated successfully to bucket %s\n"
           [FStr key; FStr dstBucket]
    else Printf "❌ Object %s did not replicate to bucket %s within timeout\n"
           [FStr key; FStr dstBucket] in
  run h (pollLoop s3Dst dstBucket key 12 0) (hist ++ announce)
  = ((hist ++ announce) ++ trace, Done found) →
  run h (pollDestination profile key detectedRegion dstBucket) hist
  = (hist ++ announce ++ trace ++ [Ev report tt], Done tt).
Proof.
  intros s3Dst announce report Hpoll. unfold pollDestination.
  cbn [run bind call].
  rewrite (unit_answer (h _ (Printf _ _) _)), (unit_answer (h _ (Println _) _)).
  rewrite <- (assoc_L (++) hist [_] [_]). cbn [app].
  fold s3Dst announce. rewrite run_bind, Hpoll.
  destruct found; cbn [run call];
    rewrite (unit_answer (h _ (Printf _ _) _)); subst report;
    by rewrite <- !(assoc_L (++)).
Qed.

(** C7. When every presence check of a destination fails, the poller
    performs exactly 12 rounds, each a 10-second wait followed by one
    check, then leaves [found] false, prints the timeout line and returns
    normally.  When the checks fail [j] times ([j < 12]) and then succeed,
    the poller stops right after check [j + 1], with [found] true. *)
Theorem C7_bounded_polling (h : handler) (profile key detectedRegion dstBucket : string)
    (hist : list event) :
  let s3Dst := {| Region := detectedRegion; Profile := profile |} in
  let check := HeadObject s3Dst dstBucket key in
  let announce :=
    [Invoke (Printf "Using region %s for bucket %s\n"
               [FStr detectedRegion; FStr dstBucket]);
     Invoke (Println "Waiting for replication (may take 30–60 seconds)...")] in
  ((∀ hist', h _ check hist' ≠ None) →
   (∃ trace,
      run h (pollLoop s3Dst dstBucket key 12 0) hist = (hist ++ trace, Done false)
      ∧ invocations trace = failedRounds s3Dst dstBucket key 12 0
      ∧ headCount trace = 12)
   ∧ ∃ trace,
       run h (pollDestination profile key detectedRegion dstBucket) hist
       = (hist ++ trace, Done tt)
       ∧ invocations trace
         = announce ++ failedRounds s3Dst dstBucket key 12 0
           ++ [Invoke (Printf
                         "❌ Object %s did not replicate to bucket %s within timeout\n"
                         [FStr key; FStr dstBucket])]
       ∧ headCount trace = 12)
  ∧ ∀ j : nat,
      j < 12 →
      (∀ m hist', m < j → headCount hist' = headCount hist + m → h _ check hist' ≠ None) →
      (∀ hist', headCount hist' = headCount hist + j → h _ check hist' = None) →
      (∃ trace,
         run h (pollLoop s3Dst dstBucket key 12 0) hist = (hist ++ trace, Done true)
         ∧ invocations trace
           = failedRounds s3Dst dstBucket key j 0
             ++ [Invoke (Sleep (10 * Second)); Invoke check]
         ∧ headCount trace = S j)
      ∧ ∃ trace,
          run h (pollDestination profile key detectedRegion dstBucket) hist
          = (hist ++ trace, Done tt)
          ∧ invocations trace
            = announce ++ failedRounds s3Dst dstBucket key j 0
              ++ [Invoke (Sleep (10 * Second)); Invoke check;
                  Invoke (Printf "✅ Object %s replicated successfully to bucket %s\n"
                            [FStr key; FStr dstBucket])]
          ∧ headCount trace = S j.
Proof.
  intros s3Dst check announce.
  set (said :=
    [Ev (Printf "Using region %s for bucket %s\n" [FStr detectedRegion; FStr dstBucket]) tt;
     Ev (Println "Waiting for replication (may take 30–60 seconds)...") tt]).
  assert (Hsaid : headCount (hist ++ said) = headCount hist).
  { rewrite headCount_app. replace (headCount said) with 0 by reflexivity. lia. }
  split.
  - intros Hfail. split; [by apply pollLoop_never_found|].
    destruct (pollLoop_never_found h s3Dst dstBucket key 12 0 (hist ++ said) Hfail)
      as (trace & Hrun & Hinv & Hcount).
    exists (said ++ trace ++ [Ev (Printf
              "❌ Object %s did not replicate to bucket %s within timeout\n"
              [FStr key; FStr dstBucket]) tt]).
    split_and!.
    + by apply (pollDestination_reports h profile key detectedRegion dstBucket
                  hist trace false).
    + rewrite !invocations_app, Hinv. reflexivity.
    + rewrite !headCount_app, Hcount.
      replace (headCount said) with 0 by reflexivity. reflexivity.
  - intros j Hj Hfail Hfound. split; [by apply pollLoop_found_at|].
    destruct (pollLoop_found_at h s3Dst dstBucket key j 12 0 (hist ++ said) Hj)
      as (trace & Hrun & Hinv & Hcount).
    { intros m hist' Hm Hc. apply (Hfail m); [done|]. by rewrite <- Hsaid. }
    { intros hist' Hc. apply Hfound. by rewrite <- Hsaid. }
    exists (said ++ trace ++ [Ev (Printf
              "✅ Object %s replicated successfully to bucket %s\n"
              [FStr key; FStr dstBucket]) tt]).
    split_and!.
    + by apply (pollDestination_reports h profile key detectedRegion dstBucket
                  hist trace true).
    + rewrite !invocations_app, Hinv. rewrite <- !(assoc_L (++)). reflexivity.
    + rewrite !headCount_app, Hcount.
      replace (headCount said) with 0 by reflexivity.
      rewrite headCount_cons. simpl. change (headCount []) with 0. lia.
Qed.

Lemma C7_bounded_polling_witness :
  let s3Dst := {| Region := "us-west-2"; Profile := "" |} in
  let elsewhere := Ok {| s3.LocationConstraint := Some "us-west-2" |} in
  (∃ trace,
     run (replicatesAt 0 elsewhere) (pollLoop s3Dst "dst" "p.txt" 12 0) []
     = ([] ++ trace, Done false)
     ∧ invocations trace = failedRounds s3Dst "dst" "p.txt" 12 0
     ∧ headCount trace = 12)
  ∧ (∃ trace,
       run (replicatesAt 3 elsewhere) (pollLoop s3Dst "dst" "p.txt" 12 0) []
       = ([] ++ trace, Done true)
       ∧ invocations trace
         = failedRounds s3Dst "dst" "p.txt" 2 0
           ++ [Invoke (Sleep (10 * Second)); Invoke (HeadObject s3Dst "dst" "p.txt")]
       ∧ headCount trace = 3).
Proof.
  split.
  - apply (proj1 (C7_bounded_polling
                    (replicatesAt 0 (Ok {| s3.LocationConstraint := Some "us-west-2" |}))
                    "" "p.txt" "us-west-2" "dst" [])).
    intros hist'. discriminate.
  - apply (proj2 (C7_bounded_polling
                    (replicatesAt 3 (Ok {| s3.LocationConstraint := Some "us-west-2" |}))
                    "" "p.txt" "us-west-2" "dst" []) 2).
    + lia.
    + intros m hist' Hm Hcount. unfold replicatesAt, override. rewrite Hcount.
      destruct m as [|[|m]]; [discriminate|discriminate|lia].
    + intros hist' Hcount. unfold replicatesAt, override. by rewrite Hcount.
Defined.

(** The probe appears at the third check: three waits, three checks, two
    progress lines. *)
Example found_on_third_check :
  let s3Dst := {| Region := "us-west-2"; Profile := "" |} in
  let notYet := Some (AwsError "NotFound" "Not Found") in
  run (replicatesAt 3 (Ok {| s3.LocationConstraint := Some "us-west-2" |}))
    (pollLoop s3Dst "dst" "p.txt" 12 0) []
  = ([Ev (Sleep 10000000000) tt;
      Ev (HeadObject s3Dst "dst" "p.txt") notYet;
      Ev (Printf "Check %d: object not replicated yet\n" [FInt 1]) tt;
      Ev (Sleep 10000000000) tt;
      Ev (HeadObject s3Dst "dst" "p.txt") notYet;
      Ev (Printf "Check %d: object not replicated yet\n" [FInt 2]) tt;
      Ev (Sleep 10000000000) tt;
      Ev (HeadObject s3Dst "dst" "p.txt") None],
     Done true).
Proof. vm_compute. reflexivity. Qed.

(** ** Region detection *)

Lemma detectRegion_run (h : handler) (srcRegion profile dstBucket : string)
    (hist : list event) :
  let lookup := GetBucketLocation {| Region := srcRegion; Profile := profile |} dstBucket in
  run h (detectRegion srcRegion profile dstBucket) hist
  = (hist ++ [Ev lookup (h _ lookup hist)], Done (resolveRegion srcRegion (h _ lookup hist))).
Proof. reflexivity. Qed.

Lemma checkDestination_run (h : handler) (srcRegion profile key dstBucket : string)
    (hist : list event) :
  let lookup := GetBucketLocation {| Region := srcRegion; Profile := profile |} dstBucket in
  let hist1 :=
    hist ++ [Ev (Printf "\nChecking replication to destination bucket: %s\n"
                   [FStr dstBucket]) tt] in
  run h (checkDestination srcRegion profile key dstBucket) hist
  = run h (pollDestination profile key (resolveRegion srcRegion (h _ lookup hist1)) dstBucket)
      (hist1 ++ [Ev lookup (h _ lookup hist1)]).
Proof.
  intros lookup hist1. unfold checkDestination.
  cbn [run bind call]. rewrite (unit_answer (h _ (Printf _ _) _)). fold hist1.
  by rewrite run_bind, detectRegion_run.
Qed.

Lemma listDestination_run (h : handler) (srcRegion profile : string)
    (srcObjects : list string) (dstBucket : string) (hist : list event) :
  let lookup := GetBucketLocation {| Region := srcRegion; Profile := profile |} dstBucket in
  run h (listDestination srcRegion profile srcObjects dstBucket) hist
  = run h (listDestinationIn profile srcObjects
             (resolveRegion srcRegion (h _ lookup hist)) dstBucket)
      (hist ++ [Ev lookup (h _ lookup hist)]).
Proof.
  intros lookup. unfold listDestination.
  by rewrite run_bind, detectRegion_run.
Qed.

(** The polling loop always comes back with a value of [found]. *)
Lemma pollLoop_returns (h : handler) (s3Dst : client) (dstBucket key : string)
    (n : nat) (i : Z) (hist : list event) :
  ∃ trace found,
    run h (pollLoop s3Dst dstBucket key n i) hist = (hist ++ trace, Done found).
Proof.
  revert i hist. induction n as [|n IH]; intros i hist.
  - exists [], false. by rewrite app_nil_r.
  - destruct (h _ (HeadObject s3Dst dstBucket key)
                (hist ++ [Ev (Sleep (10 * Second)) tt])) as [err|] eqn:Hcheck.
    + rewrite (pollLoop_failed_round h s3Dst dstBucket key n i hist err Hcheck).
      destruct (IH (i + 1)%Z
                  (hist ++ [Ev (Sleep (10 * Second)) tt;
                            Ev (HeadObject s3Dst dstBucket key) (Some err);
                            Ev (Printf "Check %d: object not replicated yet\n"
                                  [FInt (i + 1)]) tt]))
        as (trace & found & Hrun).
      eexists (_ :: _ :: _ :: trace), found.
      rewrite Hrun. by rewrite <- (assoc_L (++)).
    + rewrite (pollLoop_success_round h s3Dst dstBucket key n i hist Hcheck).
      by eexists [_; _], true.
Qed.

Lemma pollDestination_returns (h : handler) (profile key detectedRegion dstBucket : string)
    (hist : list event) :
  ∃ trace, run h (pollDestination profile key detectedRegion dstBucket) hist
           = (hist ++ trace, Done tt).
Proof.
  destruct (pollLoop_returns h {| Region := detectedRegion; Profile := profile |}
              dstBucket key 12 0
              (hist ++ [Ev (Printf "Using region %s for bucket %s\n"
                              [FStr detectedRegion; FStr dstBucket]) tt;
                        Ev (Println "Waiting for replication (may take 30–60 seconds)...")
                          tt]))
    as (trace & found & Hrun).
  eexists. by apply (pollDestination_reports h profile key detectedRegion dstBucket
                       hist trace found).
Qed.

(** The extended verifier with every location lookup denied: the single
    destination is polled and listed through clients of the source region,
    and the run ends normally. *)
Example lookup_denied_run :
  let denied := Failed (AwsError "AccessDenied" "Access Denied") in
  let s3Src := {| Region := "eu-central-1"; Profile := "" |} in
  let outcome :=
    run (afterSetup 1 denied)
      (extendedMain scanAfterPrefix "src" "eu-central-1" "" "p.txt") [] in
  snd outcome = Done tt
  ∧ invocations (fst outcome)
    = [Invoke (PutObject s3Src "src" "p.txt" probeContent);
       Invoke (Printf "Uploaded object %s to source bucket %s\n" [FStr "p.txt"; FStr "src"]);
       Invoke (GetBucketReplication s3Src "src");
       Invoke (Printf "\nChecking replication to destination bucket: %s\n" [FStr "dst"]);
       Invoke (GetBucketLocation s3Src "dst");
       Invoke (Printf "Using region %s for bucket %s\n" [FStr "eu-central-1"; FStr "dst"]);
       Invoke (Println "Waiting for replication (may take 30–60 seconds)...");
       Invoke (Sleep 10000000000);
       Invoke (HeadObject s3Src "dst" "p.txt");
       Invoke (Printf "✅ Object %s replicated successfully to bucket %s\n"
                 [FStr "p.txt"; FStr "dst"]);
       Invoke (Println "\nListing objects in source bucket:");
       Invoke (ListObjectsV2Pages s3Src "src");
       Invoke (Printf "  %s\n" [FStr "p.txt"]);
       Invoke (GetBucketLocation s3Src "dst");
       Invoke (Printf "\nListing objects in destination bucket: %s (region: %s)\n"
                 [FStr "dst"; FStr "eu-central-1"]);
       Invoke (ListObjectsV2Pages s3Src "dst");
       Invoke (Printf "  %s\n" [FStr "p.txt"]);
       Invoke (Printf
                 "\nSource bucket has %d objects, destination bucket %s has %d objects\n"
                 [FInt 1; FStr "dst"; FInt 1]);
       Invoke (Println "✅ Destination bucket contains all (or more) objects.")].
Proof. vm_compute. split; reflexivity. Qed.

(** * Further properties of the setup tool *)

(** ** The rule reconciliation, run again and on any starting list *)

Lemma keptPriority_mkRule (dstBucket : string) (maxP maxP' : Z) (r : s3.ReplicationRule) :
  keptPriority maxP' (mkRule dstBucket (keptPriority maxP r)) = keptPriority maxP r.
Proof. unfold keptPriority. simpl. by destruct (s3.rr_Priority r). Qed.

Lemma sameDestination_mkRule (dstBucket : string) (p : option Z) :
  sameDestination dstBucket (mkRule dstBucket p) = true.
Proof. by apply sameDestination_destRef. Qed.

(** X1. Reconciling is idempotent: reconciling the reconciled list for the
    same destination gives that list back.  So a second run of
    [putReplicationConfiguration] that fetches what the first run wrote
    writes the same role and rules again. *)
Theorem reconcileRules_idempotent (dstBucket : string)
    (existing : list s3.ReplicationRule) :
  reconcileRules dstBucket (reconcileRules dstBucket existing)
  = reconcileRules dstBucket existing
  ∧ ∀ (h : handler) (s3client : client) (srcBucket roleArn : string)
      (hist : list event),
      existingRulesOf (h _ (GetBucketReplication s3client srcBucket) hist) = existing →
      let first :=
        run h (putReplicationConfiguration s3client srcBucket dstBucket roleArn) hist in
      h _ (GetBucketReplication s3client srcBucket) (fst first)
      = Ok {| s3.ReplicationConfiguration_ :=
                Some {| s3.Role := Some roleArn;
                        s3.Rules := reconcileRules dstBucket existing |} |} →
      writesRules h s3client srcBucket dstBucket roleArn (fst first)
        (reconcileRules dstBucket existing).
Proof.
  assert (Hidem : reconcileRules dstBucket (reconcileRules dstBucket existing)
                  = reconcileRules dstBucket existing).
  { destruct (first_target_split dstBucket existing)
      as [Hnone|(mid & old & post & -> & Hmid & Hold)].
    - rewrite (reconcileRules_absent _ _ Hnone).
      rewrite (reconcileRules_found dstBucket existing [] _ Hnone
                 (sameDestination_mkRule _ _)).
      reflexivity.
    - rewrite (reconcileRules_found dstBucket mid post old Hmid Hold).
      rewrite (reconcileRules_found dstBucket mid post _ Hmid
                 (sameDestination_mkRule _ _)).
      by rewrite keptPriority_mkRule. }
  split; [exact Hidem|].
  intros h s3client srcBucket roleArn hist Hfetch first Hsecond.
  pose proof (putReplicationConfiguration_writes h s3client srcBucket dstBucket roleArn
                (fst first)) as Hwrites.
  rewrite Hsecond in Hwrites. simpl in Hwrites. by rewrite Hidem in Hwrites.
Qed.

Lemma reconcileRules_idempotent_witness :
  let s3Src := {| Region := "us-east-1"; Profile := "" |} in
  let first := run bucketStore (putReplicationConfiguration s3Src "src" "dst" "role") [] in
  lastWritten "src" (fst first)
  = Some {| s3.Role := Some "role"; s3.Rules := [mkRule "dst" (Some 1%Z)] |}
  ∧ writesRules bucketStore s3Src "src" "dst" "role" (fst first) [mkRule "dst" (Some 1%Z)].
Proof.
  split; [reflexivity|].
  exact (proj2 (reconcileRules_idempotent "dst" [])
           bucketStore {| Region := "us-east-1"; Profile := "" |} "src" "role" []
           eq_refl eq_refl).
Defined.

Lemma priorities_le_maxOver (rules : list s3.ReplicationRule) (p : Z) :
  p ∈ priorities rules → (p <= maxOver rules)%Z.
Proof.
  intros (r & Hr & Hp)%list_elem_of_omap.
  pose proof (maxOver_upper rules r Hr) as Hle.
  unfold priorityOrZero in Hle. by rewrite Hp in Hle.
Qed.

Lemma NoDup_insert_fresh (l1 l2 : list Z) (x : Z) :
  NoDup (l1 ++ l2) → x ∉ l1 ++ l2 → NoDup (l1 ++ x :: l2).
Proof.
  intros Hnd Hx. rewrite <- Permutation_middle. by constructor.
Qed.

(** X2. Priorities stay pairwise distinct: when the priorities present in
    the existing rules are pairwise distinct and the greatest of them is
    below the largest [int64], the priorities present in the reconciled
    list are pairwise distinct too, and a priority the reconciliation
    assigns itself is above every existing one. *)
Theorem reconcileRules_priorities_distinct (dstBucket : string)
    (existing : list s3.ReplicationRule) :
  NoDup (priorities existing) →
  (maxOver existing < int64_max)%Z →
  NoDup (priorities (reconcileRules dstBucket existing))
  ∧ ∀ p, p ∈ priorities (reconcileRules dstBucket existing) →
         p ∈ priorities existing
         ∨ p = (maxOver existing + 1)%Z ∧ ∀ q, q ∈ priorities existing → (q < p)%Z.
Proof.
  intros Hdistinct Hmax.
  assert (Hsum : add64 (maxPriority existing) 1 = (maxOver existing + 1)%Z).
  { rewrite maxPriority_maxOver. pose proof (maxOver_nonneg existing).
    apply add64_no_overflow. unfold int64_min. lia. }
  assert (Hfresh : (maxOver existing + 1)%Z ∉ priorities existing).
  { intros Hin%priorities_le_maxOver. lia. }
  assert (Habove : ∀ q, q ∈ priorities existing → (q < maxOver existing + 1)%Z).
  { intros q Hq%priorities_le_maxOver. lia. }
  destruct (first_target_split dstBucket existing)
    as [Hnone|(mid & old & post & Hsplit & Hmid & Hold)].
  - rewrite (reconcileRules_absent _ _ Hnone), Hsum.
    unfold priorities in *. rewrite omap_app. simpl. split.
    + apply NoDup_app. split_and!; [done| |apply NoDup_singleton].
      intros x Hx ->%list_elem_of_singleton. done.
    + intros p [Hp| ->%list_elem_of_singleton]%elem_of_app; [by left|by right].
  - subst existing.
    rewrite (reconcileRules_found dstBucket mid post old Hmid Hold).
    unfold keptPriority. rewrite Hsum.
    unfold priorities in *. rewrite !omap_app in *. simpl in *.
    destruct (s3.rr_Priority old) as [p0|] eqn:Hp0; simpl.
    + split; [done|]. intros p Hp. by left.
    + split; [by apply NoDup_insert_fresh|].
      intros p [Hp|[->|Hp]%elem_of_cons]%elem_of_app.
      * left. apply elem_of_app. by left.
      * right. split; [done|]. exact Habove.
      * left. apply elem_of_app. by right.
Qed.

Lemma reconcileRules_priorities_distinct_witness :
  NoDup (priorities (reconcileRules "C" rulesAB))
  ∧ priorities (reconcileRules "C" rulesAB) = [1%Z; 2%Z; 3%Z].
Proof.
  assert (H1 : NoDup (priorities rulesAB)).
  { apply (bool_decide_unpack _). vm_compute. exact I. }
  assert (H2 : (maxOver rulesAB < int64_max)%Z) by (vm_compute; reflexivity).
  split.
  - exact (proj1 (reconcileRules_priorities_distinct "C" rulesAB H1 H2)).
  - reflexivity.
Defined.

(** X3. Reconciling touches the requested destination only.  The rules for
    other destinations are the same rules in the same order.  Of the rules
    for the requested destination the first is rewritten and any further
    one is kept as it is: afterwards there is one such rule if there was
    none, and as many as before otherwise. *)
Theorem reconcileRules_other_destinations_kept (dstBucket : string)
    (existing : list s3.ReplicationRule) :
  let toOthers := λ r : s3.ReplicationRule, destRef r ≠ Some (dstARN dstBucket) in
  let toDst := λ r : s3.ReplicationRule, destRef r = Some (dstARN dstBucket) in
  filter toOthers (reconcileRules dstBucket existing) = filter toOthers existing
  ∧ length (filter toDst (reconcileRules dstBucket existing))
    = Nat.max 1 (length (filter toDst existing))
  ∧ ∀ old,
      head (filter toDst existing) = Some old →
      filter toDst (reconcileRules dstBucket existing)
      = mkRule dstBucket (keptPriority (maxPriority existing) old)
        :: tail (filter toDst existing).
Proof.
  intros toOthers toDst.
  assert (Hnot : ∀ l, Forall (λ r, sameDestination dstBucket r = false) l →
                      filter toOthers l = l ∧ filter toDst l = []).
  { induction 1 as [|a l Ha _ [IH1 IH2]]; [done|].
    apply sameDestination_false in Ha.
    rewrite (filter_cons_True toOthers), (filter_cons_False toDst) by (by unfold toDst).
    by rewrite IH1, IH2. }
  assert (Hnew : ∀ p, toDst (mkRule dstBucket p)) by done.
  destruct (first_target_split dstBucket existing)
    as [Hnone|(mid & old & post & Hsplit & Hmid & Hold)].
  - rewrite (reconcileRules_absent _ _ Hnone). rewrite !filter_app.
    destruct (Hnot existing Hnone) as [-> ->].
    rewrite (filter_cons_False toOthers), (filter_cons_True toDst)
      by (by unfold toOthers; auto).
    rewrite !filter_nil, app_nil_r. by split_and!.
  - apply sameDestination_destRef in Hold as Hold'. subst existing.
    rewrite (reconcileRules_found dstBucket mid post old Hmid Hold).
    rewrite !filter_app.
    destruct (Hnot mid Hmid) as [-> ->].
    rewrite !(filter_cons_False toOthers) by (by unfold toOthers; auto).
    rewrite !(filter_cons_True toDst) by done.
    simpl. split_and!; [done|lia|].
    by intros ? [= <-].
Qed.

Lemma reconcileRules_other_destinations_kept_witness :
  filter (λ r, destRef r = Some (dstARN "B")) (reconcileRules "B" rulesABB)
  = [mkRule "B" (Some 6%Z); ruleTo "rule-b2" (Some 5%Z) "arn:aws:s3:::B"].
Proof.
  exact (proj2 (proj2 (reconcileRules_other_destinations_kept "B" rulesABB))
           (ruleTo "rule-b" None "arn:aws:s3:::B") eq_refl).
Defined.

(** ** [ensureBucketExists] on every answer of the service *)

(** X4. [ensureBucketExists] always returns, and it returns nil in exactly
    three situations: the probe succeeded; the probe failed and the
    creation reported the bucket as already owned by the caller; the probe
    failed, the creation succeeded and the wait for the bucket succeeded. *)
Theorem ensureBucketExists_nil_iff (h : handler) (s3client : client)
    (bucketName region : string) (hist : list event) :
  let head := HeadBucket s3client bucketName in
  let create :=
    CreateBucket s3client bucketName
      (if String.eqb region "us-east-1" then None else Some region) in
  let wait := WaitUntilBucketExists s3client bucketName in
  ∃ res,
    snd (run h (ensureBucketExists s3client bucketName region) hist) = Done res
    ∧ (res = None ↔
       h _ head hist = None
       ∨ ∃ headErr,
           h _ head hist = Some headErr
           ∧ let hist1 := hist ++ [Ev head (Some headErr)] in
             (∃ err, h _ create hist1 = Some err
                     ∧ awserrCode err = Some s3.ErrCodeBucketAlreadyOwnedByYou)
             ∨ (h _ create hist1 = None
                ∧ h _ wait (hist1 ++ [Ev create None]) = None)).
Proof.
  intros head create wait.
  rewrite ensureBucketExists_run. fold head create wait.
  destruct (h _ head hist) as [headErr|] eqn:Hhead; simpl.
  2:{ exists None. split; [done|]. split; [by left|done]. }
  destruct (h _ create (hist ++ [Ev head (Some headErr)])) as [err|] eqn:Hcreate; simpl.
  - eexists. split; [done|]. split.
    + intros Hnil. right. exists headErr. split; [done|]. left. exists err.
      split; [done|].
      destruct (awserrCode err) as [code|]; [|done].
      destruct (String.eqb_spec code s3.ErrCodeBucketAlreadyOwnedByYou) as [Heq|_];
        [by rewrite Heq|].
      by destruct (String.eqb code s3.ErrCodeBucketAlreadyExists).
    + intros [[=]|(headErr' & [= <-] & [(err' & Herr & Hcode)|[Hnone _]])].
      * rewrite Hcreate in Herr. injection Herr as <-. by rewrite Hcode.
      * by rewrite Hcreate in Hnone.
  - eexists. split; [done|]. split.
    + intros Hnil. right. exists headErr. split; [done|]. right. split; [done|].
      by destruct (h _ wait _).
    + intros [[=]|(headErr' & [= <-] & [(err' & Herr & _)|[_ Hwait]])].
      * by rewrite Hcreate in Herr.
      * by rewrite Hwait.
Qed.

Lemma ensureBucketExists_nil_iff_witness :
  snd (run succeed (ensureBucketExists {| Region := "us-west-2"; Profile := "" |}
                      "dst" "us-west-2") [])
  = Done None.
Proof.
  destruct (ensureBucketExists_nil_iff succeed {| Region := "us-west-2"; Profile := "" |}
              "dst" "us-west-2" []) as (res & Hres & Hiff).
  rewrite Hres. f_equal. apply Hiff. by left.
Defined.

(** X5. [ensureBucketExists] calls the service at most three times and in a
    fixed order: the probe; the creation, only after a failed probe; the
    wait, only after a successful creation.  No call is made twice. *)
Theorem ensureBucketExists_calls (h : handler) (s3client : client)
    (bucketName region : string) (hist : list event) :
  let head := HeadBucket s3client bucketName in
  let create :=
    CreateBucket s3client bucketName
      (if String.eqb region "us-east-1" then None else Some region) in
  let wait := WaitUntilBucketExists s3client bucketName in
  ∃ trace,
    fst (run h (ensureBucketExists s3client bucketName region) hist) = hist ++ trace
    ∧ (h _ head hist = None ∧ invocations trace = [Invoke head]
       ∨ (∃ headErr err,
            h _ head hist = Some headErr
            ∧ h _ create (hist ++ [Ev head (Some headErr)]) = Some err
            ∧ invocations trace = [Invoke head; Invoke create])
       ∨ (∃ headErr,
            h _ head hist = Some headErr
            ∧ h _ create (hist ++ [Ev head (Some headErr)]) = None
            ∧ invocations trace = [Invoke head; Invoke create; Invoke wait])).
Proof.
  intros head create wait.
  rewrite ensureBucketExists_run. fold head create wait.
  destruct (h _ head hist) as [headErr|] eqn:Hhead; simpl.
  2:{ eexists [_]. split; [done|]. by left. }
  destruct (h _ create (hist ++ [Ev head (Some headErr)])) as [err|] eqn:Hcreate; simpl.
  - eexists [_; _]. split; [by rewrite <- (assoc_L (++))|].
    right. left. by exists headErr, err.
  - eexists [_; _; _]. split; [by rewrite <- !(assoc_L (++))|].
    right. right. by exists headErr.
Qed.

Lemma ensureBucketExists_calls_witness :
  let s3Dst := {| Region := "us-east-1"; Profile := "" |} in
  invocations
    (fst (run (bucketTaken (AwsError "NotFound" "Not Found") (PlainError "timeout"))
            (ensureBucketExists s3Dst "dst" "us-east-1") []))
  = [Invoke (HeadBucket s3Dst "dst"); Invoke (CreateBucket s3Dst "dst" None)].
Proof.
  cbv zeta.
  destruct (ensureBucketExists_calls
              (bucketTaken (AwsError "NotFound" "Not Found") (PlainError "timeout"))
              {| Region := "us-east-1"; Profile := "" |} "dst" "us-east-1" [])
    as (trace & Htrace & [[Hhead _]|[(headErr & err & _ & _ & Hinv)|(headErr & _ & Hnone & _)]]).
  - discriminate Hhead.
  - rewrite Htrace. exact Hinv.
  - discriminate Hnone.
Defined.

(** X6. Errors of [ensureBucketExists] other than the ownership conflict:
    after a failed probe, a creation error that is not an SDK error, or
    whose code is neither already-owned nor already-exists, is returned as
    it is and nothing is awaited; a failure of the wait after a successful
    creation is returned wrapped. *)
Theorem ensureBucketExists_other_errors (h : handler) (s3client : client)
    (bucketName region : string) (hist : list event) (headErr : error) :
  let head := HeadBucket s3client bucketName in
  let create :=
    CreateBucket s3client bucketName
      (if String.eqb region "us-east-1" then None else Some region) in
  let wait := WaitUntilBucketExists s3client bucketName in
  let hist1 := hist ++ [Ev head (Some headErr)] in
  h _ head hist = Some headErr →
  (∀ err,
     h _ create hist1 = Some err →
     awserrCode err ≠ Some s3.ErrCodeBucketAlreadyOwnedByYou →
     awserrCode err ≠ Some s3.ErrCodeBucketAlreadyExists →
     run h (ensureBucketExists s3client bucketName region) hist
     = (hist1 ++ [Ev create (Some err)], Done (Some err)))
  ∧ (∀ err,
       h _ create hist1 = None →
       h _ wait (hist1 ++ [Ev create None]) = Some err →
       run h (ensureBucketExists s3client bucketName region) hist
       = (hist1 ++ [Ev create None; Ev wait (Some err)],
          Done (Some (WrapError "bucket creation started but wait failed: " err)))).
Proof.
  intros head create wait hist1 Hhead.
  pose proof (ensureBucketExists_run h s3client bucketName region hist) as Hrun.
  cbv zeta in Hrun. fold head create wait in Hrun. rewrite Hhead in Hrun.
  fold hist1 in Hrun. split.
  - intros err Hcreate Howned Hexists. rewrite Hcreate in Hrun. rewrite Hrun.
    destruct (awserrCode err) as [code|]; [|done].
    destruct (String.eqb_spec code s3.ErrCodeBucketAlreadyOwnedByYou) as [Heq|_];
      [by rewrite Heq in Howned|].
    destruct (String.eqb_spec code s3.ErrCodeBucketAlreadyExists) as [Heq|_];
      [by rewrite Heq in Hexists|done].
  - intros err Hcreate Hwait. rewrite Hcreate, Hwait in Hrun. rewrite Hrun.
    by rewrite <- (assoc_L (++)).
Qed.

Lemma ensureBucketExists_other_errors_witness :
  let s3Dst := {| Region := "us-east-1"; Profile := "" |} in
  snd (run (bucketTaken (AwsError "NotFound" "Not Found") (PlainError "timeout"))
         (ensureBucketExists s3Dst "dst" "us-east-1") [])
  = Done (Some (PlainError "timeout")).
Proof.
  exact (f_equal snd
           (proj1 (ensureBucketExists_other_errors
                     (bucketTaken (AwsError "NotFound" "Not Found") (PlainError "timeout"))
                     {| Region := "us-east-1"; Profile := "" |} "dst" "us-east-1" []
                     (AwsError "NotFound" "Not Found") eq_refl)
                  (PlainError "timeout") eq_refl
                  ltac:(discriminate) ltac:(discriminate))).
Defined.

(** ** [ensureReplicationRole] after the role is created or adopted *)

Lemma sleepTotal_app (l1 l2 : list event) :
  sleepTotal (l1 ++ l2) = (sleepTotal l1 + sleepTotal l2)%Z.
Proof.
  unfold sleepTotal. induction l1 as [|[R op r] l1 IH]; simpl; [done|].
  rewrite IH. destruct op; lia.
Qed.

Lemma ensureReplicationRole_run (h : handler) (iamSvc : client)
    (roleName srcBucket dstBucket dstRegion : string) (hist : list event) :
  let putPolicy :=
    PutRolePolicy iamSvc roleName
      (roleName +:+ "-replication-" +:+ srcBucket +:+ "-to-" +:+ dstBucket)
      (replicationPolicy srcBucket dstBucket) in
  run h (ensureReplicationRole iamSvc roleName srcBucket dstBucket dstRegion) hist
  = match run h (createOrGetRole iamSvc roleName) hist with
    | (hist', Done (inl roleArn)) =>
        match h _ putPolicy hist' with
        | Some err =>
            (hist' ++ [Ev putPolicy (Some err)],
             Done ("", Some (WrapError "failed to put role policy: " err)))
        | None =>
            (hist' ++ [Ev putPolicy None; Ev (Sleep (5 * Second)) tt],
             Done (roleArn, None))
        end
    | (hist', Done (inr err)) => (hist', Done ("", Some err))
    | (hist', Stopped x) => (hist', Stopped x)
    end.
Proof.
  intros putPolicy. unfold ensureReplicationRole. rewrite run_bind.
  destruct (run h (createOrGetRole iamSvc roleName) hist) as [hist' [[roleArn|err]|x]];
    [|done..].
  simpl. fold putPolicy. destruct (h _ putPolicy hist') as [err|]; simpl; [done|].
  rewrite (unit_answer (h _ _ _)). by rewrite <- (assoc_L (++)).
Qed.

(** X7. Once the role is created, the policy attachment decides the result
    of [ensureReplicationRole].  The inline policy is put on the role under
    the name made of the role and the two buckets.  If that fails, the
    error is returned wrapped, with an empty ARN and without the settle
    delay; if it succeeds, the function sleeps 5 seconds and returns the
    ARN of the created role. *)
Theorem ensureReplicationRole_after_creation (h : handler) (iamSvc : client)
    (roleName srcBucket dstBucket dstRegion : string) (hist : list event)
    (out : iam.CreateRoleOutput) (role : iam.Role) :
  let create :=
    CreateRole iamSvc roleName assumeRolePolicy "Role for S3 cross-region replication" in
  let putPolicy :=
    PutRolePolicy iamSvc roleName
      (roleName +:+ "-replication-" +:+ srcBucket +:+ "-to-" +:+ dstBucket)
      (replicationPolicy srcBucket dstBucket) in
  let hist1 := hist ++ [Ev create (Ok out)] in
  h _ create hist = Ok out →
  iam.cr_Role out = Some role →
  (∀ err,
     h _ putPolicy hist1 = Some err →
     run h (ensureReplicationRole iamSvc roleName srcBucket dstBucket dstRegion) hist
     = (hist1 ++ [Ev putPolicy (Some err)],
        Done ("", Some (WrapError "failed to put role policy: " err))))
  ∧ (h _ putPolicy hist1 = None →
     run h (ensureReplicationRole iamSvc roleName srcBucket dstBucket dstRegion) hist
     = (hist1 ++ [Ev putPolicy None; Ev (Sleep (5 * Second)) tt],
        Done (StringValue (iam.Arn role), None))).
Proof.
  intros create putPolicy hist1 Hcreate Hrole.
  pose proof (ensureReplicationRole_run h iamSvc roleName srcBucket dstBucket dstRegion hist)
    as Hrun.
  cbv zeta in Hrun. rewrite createOrGetRole_run in Hrun. cbv zeta in Hrun.
  fold create in Hrun. rewrite Hcreate, Hrole in Hrun. fold putPolicy hist1 in Hrun.
  split.
  - intros err Hput. by rewrite Hput in Hrun.
  - intros Hput. by rewrite Hput in Hrun.
Qed.

Lemma ensureReplicationRole_after_creation_witness :
  let iamSvc := {| Region := "us-east-1"; Profile := "" |} in
  snd (run (policyRefused (AwsError "AccessDenied" "no iam:PutRolePolicy"))
         (ensureReplicationRole iamSvc "role-x" "src" "dst" "us-west-2") [])
  = Done ("", Some (WrapError "failed to put role policy: "
                      (AwsError "AccessDenied" "no iam:PutRolePolicy"))).
Proof.
  exact (f_equal snd
           (proj1 (ensureReplicationRole_after_creation
                     (policyRefused (AwsError "AccessDenied" "no iam:PutRolePolicy"))
                     {| Region := "us-east-1"; Profile := "" |}
                     "role-x" "src" "dst" "us-west-2" []
                     {| iam.cr_Role := Some {| iam.Arn := Some "arn:aws:iam::1:role/new" |} |}
                     {| iam.Arn := Some "arn:aws:iam::1:role/new" |}
                     eq_refl eq_refl)
                  (AwsError "AccessDenied" "no iam:PutRolePolicy") eq_refl)).
Defined.

(** X8. When the role exists already and the lookup by name fails, the
    lookup error is returned wrapped, with an empty ARN; no policy is
    attached and nothing is slept. *)
Theorem ensureReplicationRole_lookup_failure (h : handler) (iamSvc : client)
    (roleName srcBucket dstBucket dstRegion : string) (hist : list event)
    (createErr gerr : error) :
  let create :=
    CreateRole iamSvc roleName assumeRolePolicy "Role for S3 cross-region replication" in
  let get := GetRole iamSvc roleName in
  let hist1 := hist ++ [Ev create (Failed createErr)] in
  h _ create hist = Failed createErr →
  awserrCode createErr = Some iam.ErrCodeEntityAlreadyExistsException →
  h _ get hist1 = Failed gerr →
  run h (ensureReplicationRole iamSvc roleName srcBucket dstBucket dstRegion) hist
  = (hist1 ++ [Ev get (Failed gerr)],
     Done ("", Some (WrapError "role exists but failed to get role: " gerr))).
Proof.
  intros create get hist1 Hcreate Hcode Hget.
  rewrite ensureReplicationRole_run, createOrGetRole_run. cbv zeta.
  fold create get. rewrite Hcreate, Hcode, String.eqb_refl. fold hist1.
  by rewrite Hget.
Qed.

Lemma ensureReplicationRole_lookup_failure_witness :
  let iamSvc := {| Region := "us-east-1"; Profile := "" |} in
  let gone := AwsError "NoSuchEntity" "role not found" in
  run (lookupFails gone) (ensureReplicationRole iamSvc "role-x" "src" "dst" "us-west-2") []
  = ([Ev (CreateRole iamSvc "role-x" assumeRolePolicy
            "Role for S3 cross-region replication")
        (Failed (AwsError iam.ErrCodeEntityAlreadyExistsException "role exists"));
      Ev (GetRole iamSvc "role-x") (Failed gone)],
     Done ("", Some (WrapError "role exists but failed to get role: " gone))).
Proof.
  exact (ensureReplicationRole_lookup_failure
           (lookupFails (AwsError "NoSuchEntity" "role not found"))
           {| Region := "us-east-1"; Profile := "" |}
           "role-x" "src" "dst" "us-west-2" []
           (AwsError iam.ErrCodeEntityAlreadyExistsException "role exists")
           (AwsError "NoSuchEntity" "role not found")
           eq_refl eq_refl eq_refl).
Defined.

Lemma createOrGetRole_no_sleep (h : handler) (iamSvc : client) (roleName : string)
    (hist : list event) :
  sleepTotal (fst (run h (createOrGetRole iamSvc roleName) hist)) = sleepTotal hist.
Proof.
  rewrite createOrGetRole_run. cbv zeta.
  destruct (h _ (CreateRole _ _ _ _) hist) as [out|err]; simpl.
  { rewrite sleepTotal_app. simpl. lia. }
  assert (Hrefuse : sleepTotal (hist ++ [Ev (CreateRole iamSvc roleName assumeRolePolicy
                       "Role for S3 cross-region replication") (Failed err)])
                    = sleepTotal hist).
  { rewrite sleepTotal_app. simpl. lia. }
  destruct (awserrCode err) as [code|]; [|done].
  destruct (String.eqb code iam.ErrCodeEntityAlreadyExistsException); [|done].
  destruct (h _ (GetRole _ _) _) as [out|gerr]; simpl;
    rewrite sleepTotal_app, Hrefuse; simpl; lia.
Qed.

(** X9. The settle delay goes with success only.  Whatever the service
    answers, a run of [ensureReplicationRole] that returns a nil error ends
    with the successful policy attachment followed by one sleep of 5
    seconds, its only sleep; a run that returns an error returns the empty
    ARN and has not slept at all. *)
Theorem ensureReplicationRole_settle_delay (h : handler) (iamSvc : client)
    (roleName srcBucket dstBucket dstRegion : string) (hist trace : list event)
    (roleArn : string) (err : option error) :
  let putPolicy :=
    PutRolePolicy iamSvc roleName
      (roleName +:+ "-replication-" +:+ srcBucket +:+ "-to-" +:+ dstBucket)
      (replicationPolicy srcBucket dstBucket) in
  run h (ensureReplicationRole iamSvc roleName srcBucket dstBucket dstRegion) hist
  = (trace, Done (roleArn, err)) →
  match err with
  | None =>
      (∃ before, trace = before ++ [Ev putPolicy None; Ev (Sleep (5 * Second)) tt])
      ∧ sleepTotal trace = (sleepTotal hist + 5 * Second)%Z
  | Some _ => roleArn = "" ∧ sleepTotal trace = sleepTotal hist
  end.
Proof.
  intros putPolicy Hrun.
  rewrite ensureReplicationRole_run in Hrun. fold putPolicy in Hrun.
  pose proof (createOrGetRole_no_sleep h iamSvc roleName hist) as Hquiet.
  destruct (run h (createOrGetRole iamSvc roleName) hist) as [hist' [[arn|e]|x]];
    simpl in Hquiet.
  - destruct (h _ putPolicy hist') as [e|]; injection Hrun as <- <- <-.
    + split; [done|]. rewrite sleepTotal_app, Hquiet. simpl. lia.
    + split; [by exists hist'|]. rewrite sleepTotal_app, Hquiet. simpl. lia.
  - injection Hrun as <- <- <-. by split.
  - discriminate Hrun.
Qed.

Lemma ensureReplicationRole_settle_delay_witness :
  let iamSvc := {| Region := "us-east-1"; Profile := "" |} in
  sleepTotal (fst (run succeed
                     (ensureReplicationRole iamSvc "role-x" "src" "dst" "us-west-2") []))
  = 5000000000%Z.
Proof.
  exact (proj2 (ensureReplicationRole_settle_delay succeed
                  {| Region := "us-east-1"; Profile := "" |}
                  "role-x" "src" "dst" "us-west-2" []
                  _ "arn:aws:iam::1:role/new" None eq_refl)).
Defined.

(** ** The setup tool as a whole *)

Section SetupMainFacts.

Variable h : handler.
Variable f : setupFlags.

Local Abbreviation srcBucket := (sf_source_bucket f).
Local Abbreviation dstBucket := (sf_dest_bucket f).
Local Abbreviation s3Src := {| Region := sf_source_region f; Profile := sf_profile f |}.
Local Abbreviation s3Dst := {| Region := sf_dest_region f; Profile := sf_profile f |}.
Local Abbreviation banner :=
  (Printf "Setting up replication from %s (%s) -> %s (%s)\n"
     [FStr (sf_source_bucket f); FStr (sf_source_region f);
      FStr (sf_dest_bucket f); FStr (sf_dest_region f)]).
Local Abbreviation versionSrc := (PutBucketVersioning s3Src srcBucket "Enabled").
Local Abbreviation versionDst := (PutBucketVersioning s3Dst dstBucket "Enabled").

(** The stages after the destination bucket is ensured. *)
Lemma setupMain_after_bucket (t1 : list event) :
  srcBucket ≠ "" →
  dstBucket ≠ "" →
  run h (ensureBucketExists s3Dst dstBucket (sf_dest_region f)) [Ev banner tt]
  = (t1, Done None) →
  let hist1 := t1 ++ [Ev (Println "Destination bucket exists/ready.") tt] in
  run h (setupMain f) []
  = match h _ versionSrc hist1 with
    | Some err =>
        (hist1 ++ [Ev versionSrc (Some err)],
         Stopped (Fatalf "Failed enabling versioning on source bucket: %v"
                    [FErr (Some err)]))
    | None =>
        let hist2 :=
          hist1 ++ [Ev versionSrc None;
                    Ev (Println "Versioning enabled on source bucket.") tt] in
        match h _ versionDst hist2 with
        | Some err =>
            (hist2 ++ [Ev versionDst (Some err)],
             Stopped (Fatalf "Failed enabling versioning on destination bucket: %v"
                        [FErr (Some err)]))
        | None =>
            let hist3 :=
              hist2 ++ [Ev versionDst None;
                        Ev (Println "Versioning enabled on destination bucket.") tt] in
            match run h (ensureReplicationRole s3Src (sf_role_name f) srcBucket dstBucket
                           (sf_dest_region f)) hist3 with
            | (t4, Stopped x) => (t4, Stopped x)
            | (t4, Done (_, Some err)) =>
                (t4, Stopped (Fatalf "Failed to ensure IAM replication role: %v"
                                [FErr (Some err)]))
            | (t4, Done (roleArn, None)) =>
                let hist4 :=
                  t4 ++ [Ev (Printf "Replication role ready: %s\n" [FStr roleArn]) tt] in
                match run h (putReplicationConfiguration s3Src srcBucket dstBucket roleArn)
                        hist4 with
                | (t5, Stopped x) => (t5, Stopped x)
                | (t5, Done (Some err)) =>
                    (t5, Stopped (Fatalf "Failed to put replication configuration: %v"
                                    [FErr (Some err)]))
                | (t5, Done None) =>
                    (t5 ++ [Ev (Println
                                  "Replication configuration applied to source bucket.") tt;
                            Ev (Println "Cross-region replication setup complete.") tt],
                     Done tt)
                end
            end
        end
    end.
Proof.
  intros Hsrc Hdst Hbucket hist1. unfold setupMain.
  apply String.eqb_neq in Hsrc, Hdst. rewrite Hsrc, Hdst.
  cbn [orb bind call run app].
  rewrite (unit_answer (h _ _ _)).
  rewrite run_bind, Hbucket.
  cbn [bind call run]. rewrite (unit_answer (h _ (Println _) _)). fold hist1.
  unfold enableBucketVersioning. cbn [bind call run].
  destruct (h _ versionSrc hist1) as [err|]; [done|].
  cbn [bind call run]. rewrite (unit_answer (h _ (Println _) _)).
  rewrite <- (assoc_L (++) hist1). cbn [app].
  set (hist2 := hist1 ++ [_; _]).
  destruct (h _ versionDst hist2) as [err|]; [done|].
  cbn [bind call run]. rewrite (unit_answer (h _ (Println _) _)).
  rewrite <- (assoc_L (++) hist2). cbn [app].
  set (hist3 := hist2 ++ [_; _]).
  rewrite run_bind.
  destruct (run h (ensureReplicationRole _ _ _ _ _) hist3) as [t4 [[roleArn [err|]]|x]];
    [done| |done].
  cbn [bind call run]. rewrite (unit_answer (h _ (Printf _ _) _)).
  set (hist4 := t4 ++ [_]).
  rewrite run_bind.
  destruct (run h (putReplicationConfiguration _ _ _ _) hist4) as [t5 [[err|]|x]];
    [done| |done].
  cbn [bind call run].
  rewrite (unit_answer (h _ (Println _) _)), (unit_answer (h _ (Println _) _)).
  by rewrite <- (assoc_L (++)).
Qed.

End SetupMainFacts.

(** X10. Without a source bucket or without a destination bucket on the
    command line the setup tool stops with a fatal message before any call
    to the services. *)
Theorem setupMain_requires_both_buckets (h : handler) (f : setupFlags) :
  sf_source_bucket f = "" ∨ sf_dest_bucket f = "" →
  run h (setupMain f) []
  = ([], Stopped (Fatalf "Both --source-bucket and --dest-bucket must be provided." [])).
Proof.
  intros Hempty. unfold setupMain.
  destruct Hempty as [-> | ->]; simpl; [done|].
  by rewrite orb_true_r.
Qed.

Lemma setupMain_requires_both_buckets_witness :
  run succeed
    (setupMain {| sf_source_bucket := "src"; sf_source_region := "us-east-1";
                  sf_dest_bucket := ""; sf_dest_region := "us-west-2";
                  sf_role_name := "role-x"; sf_profile := "" |}) []
  = ([], Stopped (Fatalf "Both --source-bucket and --dest-bucket must be provided." [])).
Proof.
  exact (setupMain_requires_both_buckets succeed
           {| sf_source_bucket := "src"; sf_source_region := "us-east-1";
              sf_dest_bucket := ""; sf_dest_region := "us-west-2";
              sf_role_name := "role-x"; sf_profile := "" |}
           (or_intror eq_refl)).
Defined.

(** X11. Versioning gates the rest of the setup.  Once the destination
    bucket is ensured, versioning is enabled on the source and then on the
    destination; a failure of either stops the tool with a fatal message,
    the failed call being the last one made: no role is created and no
    replication configuration is read or written. *)
Theorem setupMain_stops_when_versioning_fails (h : handler) (f : setupFlags)
    (t1 : list event) (err : error) :
  let s3Src := {| Region := sf_source_region f; Profile := sf_profile f |} in
  let s3Dst := {| Region := sf_dest_region f; Profile := sf_profile f |} in
  let banner :=
    Printf "Setting up replication from %s (%s) -> %s (%s)\n"
      [FStr (sf_source_bucket f); FStr (sf_source_region f);
       FStr (sf_dest_bucket f); FStr (sf_dest_region f)] in
  let versionSrc := PutBucketVersioning s3Src (sf_source_bucket f) "Enabled" in
  let versionDst := PutBucketVersioning s3Dst (sf_dest_bucket f) "Enabled" in
  let hist1 := t1 ++ [Ev (Println "Destination bucket exists/ready.") tt] in
  let hist2 :=
    hist1 ++ [Ev versionSrc None; Ev (Println "Versioning enabled on source bucket.") tt] in
  sf_source_bucket f ≠ "" →
  sf_dest_bucket f ≠ "" →
  run h (ensureBucketExists s3Dst (sf_dest_bucket f) (sf_dest_region f)) [Ev banner tt]
  = (t1, Done None) →
  (h _ versionSrc hist1 = Some err →
   run h (setupMain f) []
   = (hist1 ++ [Ev versionSrc (Some err)],
      Stopped (Fatalf "Failed enabling versioning on source bucket: %v" [FErr (Some err)])))
  ∧ (h _ versionSrc hist1 = None →
     h _ versionDst hist2 = Some err →
     run h (setupMain f) []
     = (hist2 ++ [Ev versionDst (Some err)],
        Stopped (Fatalf "Failed enabling versioning on destination bucket: %v"
                   [FErr (Some err)]))).
Proof.
  intros s3Src s3Dst banner versionSrc versionDst hist1 hist2 Hsrc Hdst Hbucket.
  pose proof (setupMain_after_bucket h f t1 Hsrc Hdst Hbucket) as Hmain.
  cbv zeta in Hmain. fold s3Src s3Dst versionSrc versionDst hist1 in Hmain.
  split.
  - intros Hv. by rewrite Hv in Hmain.
  - intros Hv1 Hv2. rewrite Hv1 in Hmain. fold hist2 in Hmain. by rewrite Hv2 in Hmain.
Qed.

Lemma setupMain_stops_when_versioning_fails_witness :
  let denied := AwsError "AccessDenied" "Access Denied" in
  snd (run (versioningFails "dst" denied) (setupMain exampleFlags) [])
  = Stopped (Fatalf "Failed enabling versioning on destination bucket: %v"
               [FErr (Some denied)])
  ∧ invocations (fst (run (versioningFails "dst" denied) (setupMain exampleFlags) []))
    = [Invoke (Printf "Setting up replication from %s (%s) -> %s (%s)\n"
                 [FStr "src"; FStr "us-east-1"; FStr "dst"; FStr "us-west-2"]);
       Invoke (HeadBucket {| Region := "us-west-2"; Profile := "" |} "dst");
       Invoke (Println "Destination bucket exists/ready.");
       Invoke (PutBucketVersioning {| Region := "us-east-1"; Profile := "" |} "src" "Enabled");
       Invoke (Println "Versioning enabled on source bucket.");
       Invoke (PutBucketVersioning {| Region := "us-west-2"; Profile := "" |} "dst" "Enabled")].
Proof.
  pose proof (proj2 (setupMain_stops_when_versioning_fails
                       (versioningFails "dst" (AwsError "AccessDenied" "Access Denied"))
                       exampleFlags _ (AwsError "AccessDenied" "Access Denied")
                       ltac:(discriminate) ltac:(discriminate) eq_refl)
                    eq_refl eq_refl) as Hrun.
  cbv zeta. rewrite Hrun. split; reflexivity.
Defined.

(** X12. The role and the replication configuration gate the end of the
    setup.  After the bucket and versioning stages, an error of
    [ensureReplicationRole] stops the tool before the replication
    configuration is touched, and an error of [putReplicationConfiguration]
    stops it with a fatal message. *)
Theorem setupMain_stops_when_role_or_replication_fails (h : handler) (f : setupFlags)
    (t1 t4 : list event) (roleArn : string) (err : error) :
  let s3Src := {| Region := sf_source_region f; Profile := sf_profile f |} in
  let s3Dst := {| Region := sf_dest_region f; Profile := sf_profile f |} in
  let banner :=
    Printf "Setting up replication from %s (%s) -> %s (%s)\n"
      [FStr (sf_source_bucket f); FStr (sf_source_region f);
       FStr (sf_dest_bucket f); FStr (sf_dest_region f)] in
  let versionSrc := PutBucketVersioning s3Src (sf_source_bucket f) "Enabled" in
  let versionDst := PutBucketVersioning s3Dst (sf_dest_bucket f) "Enabled" in
  let hist1 := t1 ++ [Ev (Println "Destination bucket exists/ready.") tt] in
  let hist2 :=
    hist1 ++ [Ev versionSrc None; Ev (Println "Versioning enabled on source bucket.") tt] in
  let hist3 :=
    hist2 ++ [Ev versionDst None;
              Ev (Println "Versioning enabled on destination bucket.") tt] in
  let role :=
    ensureReplicationRole s3Src (sf_role_name f) (sf_source_bucket f) (sf_dest_bucket f)
      (sf_dest_region f) in
  let hist4 := t4 ++ [Ev (Printf "Replication role ready: %s\n" [FStr roleArn]) tt] in
  sf_source_bucket f ≠ "" →
  sf_dest_bucket f ≠ "" →
  run h (ensureBucketExists s3Dst (sf_dest_bucket f) (sf_dest_region f)) [Ev banner tt]
  = (t1, Done None) →
  h _ versionSrc hist1 = None →
  h _ versionDst hist2 = None →
  (run h role hist3 = (t4, Done (roleArn, Some err)) →
   run h (setupMain f) []
   = (t4, Stopped (Fatalf "Failed to ensure IAM replication role: %v" [FErr (Some err)])))
  ∧ (run h role hist3 = (t4, Done (roleArn, None)) →
     ∀ t5,
       run h (putReplicationConfiguration s3Src (sf_source_bucket f) (sf_dest_bucket f)
                roleArn) hist4
       = (t5, Done (Some err)) →
       run h (setupMain f) []
       = (t5, Stopped (Fatalf "Failed to put replication configuration: %v"
                         [FErr (Some err)]))).
Proof.
  intros s3Src s3Dst banner versionSrc versionDst hist1 hist2 hist3 role hist4
    Hsrc Hdst Hbucket Hv1 Hv2.
  pose proof (setupMain_after_bucket h f t1 Hsrc Hdst Hbucket) as Hmain.
  cbv zeta in Hmain. fold s3Src s3Dst versionSrc versionDst hist1 in Hmain.
  rewrite Hv1 in Hmain. fold hist2 in Hmain. rewrite Hv2 in Hmain.
  fold hist3 role in Hmain.
  split.
  - intros Hrole. by rewrite Hrole in Hmain.
  - intros Hrole t5 Hput. rewrite Hrole in Hmain. fold hist4 in Hmain.
    by rewrite Hput in Hmain.
Qed.

Lemma setupMain_stops_when_role_or_replication_fails_witness :
  let throttled := AwsError "Throttling" "Rate exceeded" in
  snd (run (writeFails throttled) (setupMain exampleFlags) [])
  = Stopped (Fatalf "Failed to put replication configuration: %v"
               [FErr (Some (WrapError "PutBucketReplication failed: " throttled))]).
Proof.
  exact (f_equal snd
           (proj2 (setupMain_stops_when_role_or_replication_fails
                     (writeFails (AwsError "Throttling" "Rate exceeded"))
                     exampleFlags _ _ "arn:aws:iam::1:role/new"
                     (WrapError "PutBucketReplication failed: "
                        (AwsError "Throttling" "Rate exceeded"))
                     ltac:(discriminate) ltac:(discriminate) eq_refl eq_refl eq_refl)
                  eq_refl _ eq_refl)).
Defined.

(** X13. When every stage succeeds the setup tool runs to its end, and the
    stages are chained: the replication configuration is written on the
    source bucket, for the destination bucket, with the ARN that
    [ensureReplicationRole] returned; the two closing lines are printed
    last. *)
Theorem setupMain_completes (h : handler) (f : setupFlags)
    (t1 t4 t5 : list event) (roleArn : string) :
  let s3Src := {| Region := sf_source_region f; Profile := sf_profile f |} in
  let s3Dst := {| Region := sf_dest_region f; Profile := sf_profile f |} in
  let banner :=
    Printf "Setting up replication from %s (%s) -> %s (%s)\n"
      [FStr (sf_source_bucket f); FStr (sf_source_region f);
       FStr (sf_dest_bucket f); FStr (sf_dest_region f)] in
  let versionSrc := PutBucketVersioning s3Src (sf_source_bucket f) "Enabled" in
  let versionDst := PutBucketVersioning s3Dst (sf_dest_bucket f) "Enabled" in
  let hist1 := t1 ++ [Ev (Println "Destination bucket exists/ready.") tt] in
  let hist2 :=
    hist1 ++ [Ev versionSrc None; Ev (Println "Versioning enabled on source bucket.") tt] in
  let hist3 :=
    hist2 ++ [Ev versionDst None;
              Ev (Println "Versioning enabled on destination bucket.") tt] in
  let hist4 := t4 ++ [Ev (Printf "Replication role ready: %s\n" [FStr roleArn]) tt] in
  sf_source_bucket f ≠ "" →
  sf_dest_bucket f ≠ "" →
  run h (ensureBucketExists s3Dst (sf_dest_bucket f) (sf_dest_region f)) [Ev banner tt]
  = (t1, Done None) →
  h _ versionSrc hist1 = None →
  h _ versionDst hist2 = None →
  run h (ensureReplicationRole s3Src (sf_role_name f) (sf_source_bucket f)
           (sf_dest_bucket f) (sf_dest_region f)) hist3
  = (t4, Done (roleArn, None)) →
  run h (putReplicationConfiguration s3Src (sf_source_bucket f) (sf_dest_bucket f) roleArn)
    hist4
  = (t5, Done None) →
  run h (setupMain f) []
  = (t5 ++ [Ev (Println "Replication configuration applied to source bucket.") tt;
            Ev (Println "Cross-region replication setup complete.") tt],
     Done tt)
  ∧ ∃ getOut,
      t5 = hist4
           ++ [Ev (GetBucketReplication s3Src (sf_source_bucket f)) getOut;
               Ev (PutBucketReplication s3Src (sf_source_bucket f)
                     {| s3.Role := Some roleArn;
                        s3.Rules :=
                          reconcileRules (sf_dest_bucket f) (existingRulesOf getOut) |})
                 None].
Proof.
  intros s3Src s3Dst banner versionSrc versionDst hist1 hist2 hist3 hist4
    Hsrc Hdst Hbucket Hv1 Hv2 Hrole Hput.
  pose proof (setupMain_after_bucket h f t1 Hsrc Hdst Hbucket) as Hmain.
  cbv zeta in Hmain. fold s3Src s3Dst versionSrc versionDst hist1 in Hmain.
  rewrite Hv1 in Hmain. fold hist2 in Hmain. rewrite Hv2 in Hmain.
  fold hist3 in Hmain. rewrite Hrole in Hmain. fold hist4 in Hmain.
  rewrite Hput in Hmain. split; [exact Hmain|].
  rewrite putReplicationConfiguration_run in Hput. cbv zeta in Hput.
  injection Hput as Ht5 Herr.
  destruct (h _ (PutBucketReplication _ _ _) _) as [e|] eqn:Hans; [discriminate Herr|].
  eexists. rewrite <- Ht5. by rewrite <- (assoc_L (++)).
Qed.

Lemma setupMain_completes_witness :
  snd (run succeed (setupMain exampleFlags) []) = Done tt
  ∧ lastWritten "src" (fst (run succeed (setupMain exampleFlags) []))
    = Some {| s3.Role := Some "arn:aws:iam::1:role/new";
              s3.Rules := [mkRule "dst" (Some 1%Z)] |}.
Proof.
  split; [|reflexivity].
  exact (f_equal snd
           (proj1 (setupMain_completes succeed exampleFlags _ _ _ "arn:aws:iam::1:role/new"
                     ltac:(discriminate) ltac:(discriminate)
                     eq_refl eq_refl eq_refl eq_refl eq_refl))).
Defined.

(** * Further properties of the verifiers *)

(** ** The polling loop under any answers *)

Lemma lookedUp_app (l1 l2 : list event) :
  lookedUp (l1 ++ l2) = lookedUp l1 ++ lookedUp l2.
Proof. unfold lookedUp. apply flat_map_app. Qed.

Lemma pollLoop_bounds (h : handler) (s3Dst : client) (dstBucket key : string)
    (n : nat) (i : Z) (hist : list event) :
  ∃ trace found,
    run h (pollLoop s3Dst dstBucket key n i) hist = (hist ++ trace, Done found)
    ∧ (headCount trace <= n)%nat
    ∧ sleepTotal trace = (10 * Second * Z.of_nat (headCount trace))%Z
    ∧ lookedUp trace = []
    ∧ Forall (isPollStep s3Dst dstBucket key) (invocations trace)
    ∧ (found = false → headCount trace = n)
    ∧ (found = true →
       ∃ before, trace = before ++ [Ev (HeadObject s3Dst dstBucket key) None]).
Proof.
  revert i hist. induction n as [|n IH]; intros i hist.
  - exists [], false. rewrite app_nil_r. by split_and!.
  - destruct (h _ (HeadObject s3Dst dstBucket key)
                (hist ++ [Ev (Sleep (10 * Second)) tt])) as [err|] eqn:Hcheck.
    + rewrite (pollLoop_failed_round h s3Dst dstBucket key n i hist err Hcheck).
      destruct (IH (i + 1)%Z
                  (hist ++ [Ev (Sleep (10 * Second)) tt;
                            Ev (HeadObject s3Dst dstBucket key) (Some err);
                            Ev (Printf "Check %d: object not replicated yet\n"
                                  [FInt (i + 1)]) tt]))
        as (trace & found & Hrun & Hcount & Hslept & Hlook & Hsteps & Hmiss & Hhit).
      exists ([Ev (Sleep (10 * Second)) tt;
               Ev (HeadObject s3Dst dstBucket key) (Some err);
               Ev (Printf "Check %d: object not replicated yet\n" [FInt (i + 1)]) tt]
              ++ trace), found.
      split_and!.
      * rewrite Hrun. by rewrite <- (assoc_L (++)).
      * rewrite headCount_app. change (headCount [_; _; _]) with 1. lia.
      * rewrite sleepTotal_app, headCount_app, Hslept.
        change (headCount [_; _; _]) with 1. simpl. unfold Second. lia.
      * by rewrite lookedUp_app, Hlook.
      * rewrite invocations_app. apply Forall_app. split; [|done].
        simpl. rewrite !Forall_cons.
        split_and!; [by left|by right; left|right; right; by eexists|by apply Forall_nil].
      * intros Hf. rewrite headCount_app, (Hmiss Hf). reflexivity.
      * intros Hf. destruct (Hhit Hf) as [before ->].
        eexists. by rewrite (assoc_L (++)).
    + rewrite (pollLoop_success_round h s3Dst dstBucket key n i hist Hcheck).
      exists [Ev (Sleep (10 * Second)) tt; Ev (HeadObject s3Dst dstBucket key) None], true.
      split_and!; try done.
      * change (headCount [_; _]) with 1. lia.
      * simpl. rewrite !Forall_cons.
        split_and!; [by left|by right; left|by apply Forall_nil].
      * by exists [Ev (Sleep (10 * Second)) tt].
Qed.

(** X14. Whatever the destination answers, the polling loop returns after
    at most 12 presence checks, having slept 10 seconds before each of
    them and at no other time (120 seconds at most); it performs nothing
    but sleeps, checks of the probe at the given destination and progress
    lines.  It leaves [found] false only after all 12 checks, and true
    only with a successful check as its last operation. *)
Theorem pollLoop_budget (h : handler) (s3Dst : client) (dstBucket key : string)
    (hist : list event) :
  ∃ trace found,
    run h (pollLoop s3Dst dstBucket key 12 0) hist = (hist ++ trace, Done found)
    ∧ (headCount trace <= 12)%nat
    ∧ sleepTotal trace = (10 * Second * Z.of_nat (headCount trace))%Z
    ∧ (sleepTotal trace <= 120 * Second)%Z
    ∧ Forall (isPollStep s3Dst dstBucket key) (invocations trace)
    ∧ (found = false → headCount trace = 12)
    ∧ (found = true →
       ∃ before, trace = before ++ [Ev (HeadObject s3Dst dstBucket key) None]).
Proof.
  destruct (pollLoop_bounds h s3Dst dstBucket key 12 0 hist)
    as (trace & found & Hrun & Hcount & Hslept & _ & Hsteps & Hmiss & Hhit).
  exists trace, found. split_and!; try done.
  rewrite Hslept. unfold Second. lia.
Qed.

Lemma pollLoop_budget_witness :
  let s3Dst := {| Region := "us-west-2"; Profile := "" |} in
  let elsewhere := Ok {| s3.LocationConstraint := Some "us-west-2" |} in
  sleepTotal (fst (run (replicatesAt 3 elsewhere) (pollLoop s3Dst "dst" "p.txt" 12 0) []))
  = 30000000000%Z
  ∧ ∃ trace found,
      run (replicatesAt 3 elsewhere) (pollLoop s3Dst "dst" "p.txt" 12 0) []
      = ([] ++ trace, Done found)
      ∧ (headCount trace <= 12)%nat.
Proof.
  split; [reflexivity|].
  destruct (pollLoop_budget
              (replicatesAt 3 (Ok {| s3.LocationConstraint := Some "us-west-2" |}))
              {| Region := "us-west-2"; Profile := "" |} "dst" "p.txt" [])
    as (trace & found & Hrun & Hcount & _).
  by exists trace, found.
Defined.

(** ** The check phase over all destinations *)

Lemma checkDestination_visits (h : handler) (srcRegion profile key dstBucket : string)
    (hist : list event) :
  ∃ trace,
    run h (checkDestination srcRegion profile key dstBucket) hist = (hist ++ trace, Done tt)
    ∧ lookedUp trace = [dstBucket]
    ∧ (headCount trace <= 12)%nat
    ∧ (sleepTotal trace <= 120 * Second)%Z.
Proof.
  rewrite checkDestination_run.
  set (lookup := GetBucketLocation {| Region := srcRegion; Profile := profile |} dstBucket).
  set (hist1 := hist ++ [Ev (Printf _ _) tt]).
  set (region := resolveRegion srcRegion (h _ lookup hist1)).
  set (said :=
    [Ev (Printf "Using region %s for bucket %s\n" [FStr region; FStr dstBucket]) tt;
     Ev (Println "Waiting for replication (may take 30–60 seconds)...") tt]).
  destruct (pollLoop_bounds h {| Region := region; Profile := profile |} dstBucket key 12 0
              ((hist1 ++ [Ev lookup (h _ lookup hist1)]) ++ said))
    as (trace & found & Hrun & Hcount & Hslept & Hlook & _).
  rewrite (pollDestination_reports h profile key region dstBucket
             (hist1 ++ [Ev lookup (h _ lookup hist1)]) trace found Hrun).
  fold said. eexists (_ :: _ :: said ++ trace ++ [_]). split_and!.
  - subst hist1. by rewrite <- !(assoc_L (++)).
  - change (lookedUp (?a :: ?b :: ?l)) with (lookedUp [a; b] ++ lookedUp l).
    rewrite !lookedUp_app, Hlook. by destruct found.
  - rewrite !headCount_cons, !headCount_app.
    replace (headCount said) with 0 by reflexivity.
    rewrite headCount_cons. simpl. change (headCount []) with 0.
    destruct found; simpl; lia.
  - change (sleepTotal (?a :: ?b :: ?l)) with (sleepTotal l).
    rewrite !sleepTotal_app, Hslept.
    replace (sleepTotal said) with 0%Z by reflexivity.
    replace (sleepTotal [_]) with 0%Z by (by destruct found).
    unfold Second. lia.
Qed.

Lemma forEach_checkDestination_returns (h : handler)
    (srcRegion profile key : string) (destBuckets : list string) (hist : list event) :
  ∃ trace,
    run h (forEach destBuckets (checkDestination srcRegion profile key)) hist
    = (hist ++ trace, Done tt)
    ∧ lookedUp trace = destBuckets
    ∧ (headCount trace <= 12 * length destBuckets)%nat
    ∧ (sleepTotal trace <= 120 * Second * Z.of_nat (length destBuckets))%Z.
Proof.
  revert hist. induction destBuckets as [|d ds IH]; intros hist.
  - exists []. rewrite app_nil_r. by split_and!.
  - cbn [forEach]. rewrite run_bind.
    destruct (checkDestination_visits h srcRegion profile key d hist)
      as (t1 & Hrun1 & Hlook1 & Hcount1 & Hslept1).
    rewrite Hrun1.
    destruct (IH (hist ++ t1)) as (t2 & Hrun2 & Hlook2 & Hcount2 & Hslept2).
    rewrite Hrun2. exists (t1 ++ t2). split_and!.
    + by rewrite (assoc_L (++)).
    + by rewrite lookedUp_app, Hlook1, Hlook2.
    + rewrite headCount_app. simpl. lia.
    + rewrite sleepTotal_app. cbn [length]. lia.
Qed.


(** X15. The check phase of the extended verifier visits every destination,
    in order, and always hands over to what follows: whether a probe is
    found or times out, each destination gets its location lookup and at
    most 12 checks, and the loop over the destinations returns normally.
    The whole phase sleeps at most 120 seconds per destination. *)
Theorem check_phase_visits_every_destination (h : handler)
    (srcRegion profile key : string) (destBuckets : list string) (hist : list event) :
  ∃ trace,
    run h (forEach destBuckets (checkDestination srcRegion profile key)) hist
    = (hist ++ trace, Done tt)
    ∧ lookedUp trace = destBuckets
    ∧ (headCount trace <= 12 * length destBuckets)%nat
    ∧ (sleepTotal trace <= 120 * Second * Z.of_nat (length destBuckets))%Z.
Proof. apply forEach_checkDestination_returns. Qed.

Lemma check_phase_visits_every_destination_witness :
  let never := replicatesAt 0 (Ok {| s3.LocationConstraint := Some "us-west-2" |}) in
  snd (run never (forEach ["a"; "b"] (checkDestination "us-east-1" "" "p.txt")) [])
  = Done tt
  ∧ headCount (fst (run never (forEach ["a"; "b"] (checkDestination "us-east-1" "" "p.txt"))
                      []))
    = 24.
Proof.
  split; [|vm_compute; reflexivity].
  destruct (check_phase_visits_every_destination
              (replicatesAt 0 (Ok {| s3.LocationConstraint := Some "us-west-2" |}))
              "us-east-1" "" "p.txt" ["a"; "b"] []) as (trace & Hrun & _).
  cbv zeta. by rewrite Hrun.
Defined.

(** ** Destination discovery *)

Lemma destBucketsOf_from (scan : string → option string)
    (rules : list s3.ReplicationRule) (acc : list string) :
  fold_left
    (λ (destBuckets : list string) rule,
       match s3.rr_Destination rule with
       | Some d =>
           match s3.Bucket d with
           | Some arn =>
               match scan arn with
               | Some bucketName => destBuckets ++ [bucketName]
               | None => destBuckets
               end
           | None => destBuckets
           end
       | None => destBuckets
       end) rules acc
  = acc ++ omap (scannedDestination scan) rules.
Proof.
  revert acc. induction rules as [|r rules IH]; intros acc; simpl.
  - by rewrite app_nil_r.
  - rewrite IH. unfold scannedDestination at 2, destRef.
    destruct (s3.rr_Destination r) as [d|]; [|done].
    destruct (s3.Bucket d) as [arn|]; [|done].
    destruct (scan arn); [|done]. by rewrite <- (assoc_L (++)).
Qed.

(** X16. The destinations of the extended verifier are read off the rules
    one by one: each rule whose destination reference scans to a bucket
    name gives one entry, in rule order, and rules without one give none.
    Nothing is merged: a destination named by two rules is listed, and so
    checked, twice. *)
Theorem destBucketsOf_one_per_rule (scan : string → option string)
    (rules : list s3.ReplicationRule) :
  destBucketsOf scan rules = omap (scannedDestination scan) rules
  ∧ (length (destBucketsOf scan rules) <= length rules)%nat
  ∧ ∀ r name,
      scannedDestination scan r = Some name →
      destBucketsOf scan (rules ++ [r]) = destBucketsOf scan rules ++ [name].
Proof.
  assert (Hall : ∀ l, destBucketsOf scan l = omap (scannedDestination scan) l).
  { intros l. unfold destBucketsOf. by rewrite destBucketsOf_from. }
  split_and!.
  - apply Hall.
  - rewrite Hall. induction rules as [|r rules IH]; csimpl; [done|].
    destruct (scannedDestination scan r); csimpl; lia.
  - intros r name Hname. rewrite !Hall, omap_app. simpl. by rewrite Hname.
Qed.

Lemma destBucketsOf_one_per_rule_witness :
  destBucketsOf scanAfterPrefix rulesTwiceDst = ["dst"; "dst"].
Proof.
  exact (proj2 (proj2 (destBucketsOf_one_per_rule scanAfterPrefix
                         [ruleTo "rule-1" (Some 1%Z) "arn:aws:s3:::dst"]))
           (ruleTo "rule-2" (Some 2%Z) "arn:aws:s3:::dst") "dst" eq_refl).
Defined.

(** ** Listing *)

Lemma listObjects_run (h : handler) (s3client : client) (bucket : string)
    (hist : list event) :
  let list := ListObjectsV2Pages s3client bucket in
  run h (listObjects s3client bucket) hist
  = (hist ++ [Ev list (h _ list hist)],
     match collectKeys (fst (h _ list hist)) with
     | None => Stopped NilDereference
     | Some keys =>
         Done (match snd (h _ list hist) with
               | Some err => ([], Some err)
               | None => (keys, None)
               end)
     end).
Proof.
  unfold listObjects. simpl.
  destruct (collectKeys _); [|done]. by destruct (snd _).
Qed.

Lemma collectKeys_present (pages : list (list (option string))) (keys : list string) :
  concat pages = Some <$> keys → collectKeys pages = Some keys.
Proof.
  intros Hkeys. unfold collectKeys. rewrite Hkeys. by apply mapM_fmap_Some.
Qed.

Lemma forEach_print_run (h : handler) (objects : list string) (hist : list event) :
  run h (forEach objects (λ obj, call (Printf "  %s\n" [FStr obj]))) hist
  = (hist ++ ((λ obj, Ev (Printf "  %s\n" [FStr obj]) tt) <$> objects), Done tt).
Proof.
  revert hist. induction objects as [|obj objects IH]; intros hist; csimpl.
  - by rewrite app_nil_r.
  - rewrite (unit_answer (h _ _ _)), IH. by rewrite <- (assoc_L (++)).
Qed.

(** X17. [listObjects] returns the keys of all pages, concatenated in page
    order, when the listing ends without error; when it ends with an
    error it returns that error and no key, whatever pages came before.
    It makes the one paginated listing call. *)
Theorem listObjects_keys_or_error (h : handler) (s3client : client) (bucket : string)
    (hist : list event) (pages : list (list (option string))) (keys : list string)
    (err : option error) :
  let list := ListObjectsV2Pages s3client bucket in
  h _ list hist = (pages, err) →
  concat pages = Some <$> keys →
  run h (listObjects s3client bucket) hist
  = (hist ++ [Ev list (pages, err)],
     Done (match err with
           | Some err => ([], Some err)
           | None => (keys, None)
           end))
  ∧ length keys = sum_list (length <$> pages).
Proof.
  intros list Hlist Hkeys. split.
  - rewrite listObjects_run. fold list. rewrite Hlist. simpl.
    by rewrite (collectKeys_present pages keys Hkeys).
  - rewrite <- (length_fmap Some keys), <- Hkeys. clear.
    induction pages as [|page pages IH]; csimpl; [done|].
    by rewrite length_app, IH.
Qed.

Lemma listObjects_keys_or_error_witness :
  let s3Src := {| Region := "us-east-1"; Profile := "" |} in
  snd (run (afterSetup 1 (Ok {| s3.LocationConstraint := None |}))
         (listObjects s3Src "src") [])
  = Done (["p.txt"], None).
Proof.
  exact (f_equal snd
           (proj1 (listObjects_keys_or_error
                     (afterSetup 1 (Ok {| s3.LocationConstraint := None |}))
                     {| Region := "us-east-1"; Profile := "" |} "src" []
                     [[Some "p.txt"]] ["p.txt"] None eq_refl eq_refl))).
Defined.

(** X18. A destination is reported as caught up by counts alone.  When its
    listing succeeds, the verifier prints its keys and the two counts, and
    then the line that the destination contains all objects exactly when it
    has at least as many keys as the source; the keys themselves are not
    compared.  When its listing fails, the verifier stops with a fatal
    message. *)
Theorem listDestinationIn_verdict (h : handler) (profile : string)
    (srcObjects : list string) (detectedRegion dstBucket : string) (hist : list event)
    (pages : list (list (option string))) (dstObjects : list string) :
  let s3Dst := {| Region := detectedRegion; Profile := profile |} in
  let list := ListObjectsV2Pages s3Dst dstBucket in
  let hist1 :=
    hist ++ [Ev (Printf "\nListing objects in destination bucket: %s (region: %s)\n"
                   [FStr dstBucket; FStr detectedRegion]) tt] in
  concat pages = Some <$> dstObjects →
  (h _ list hist1 = (pages, None) →
   run h (listDestinationIn profile srcObjects detectedRegion dstBucket) hist
   = (hist1
      ++ Ev list (pages, None)
         :: ((λ obj, Ev (Printf "  %s\n" [FStr obj]) tt) <$> dstObjects)
      ++ [Ev (Printf
                "\nSource bucket has %d objects, destination bucket %s has %d objects\n"
                [FInt (Z.of_nat (length srcObjects)); FStr dstBucket;
                 FInt (Z.of_nat (length dstObjects))]) tt;
          Ev (Println
                (if (length srcObjects <=? length dstObjects)%nat
                 then "✅ Destination bucket contains all (or more) objects."
                 else "⚠️ Some objects may not yet have replicated.")) tt],
      Done tt))
  ∧ (∀ err,
       h _ list hist1 = (pages, Some err) →
       run h (listDestinationIn profile srcObjects detectedRegion dstBucket) hist
       = (hist1 ++ [Ev list (pages, Some err)],
          Stopped (Fatalf "Failed to list destination bucket %s: %v"
                     [FStr dstBucket; FErr (Some err)]))).
Proof.
  intros s3Dst list hist1 Hkeys.
  assert (Hstart : ∀ err,
            h _ list hist1 = (pages, err) →
            run h (listDestinationIn profile srcObjects detectedRegion dstBucket) hist
            = match err with
              | Some err =>
                  (hist1 ++ [Ev list (pages, Some err)],
                   Stopped (Fatalf "Failed to list destination bucket %s: %v"
                              [FStr dstBucket; FErr (Some err)]))
              | None =>
                  run h
                    (forEach dstObjects (λ obj, call (Printf "  %s\n" [FStr obj])) ;;;
                     call (Printf
                             "\nSource bucket has %d objects, destination bucket %s has %d objects\n"
                             [FInt (Z.of_nat (length srcObjects)); FStr dstBucket;
                              FInt (Z.of_nat (length dstObjects))]) ;;;
                     if caughtUp srcObjects dstObjects then
                       call (Println "✅ Destination bucket contains all (or more) objects.")
                     else
                       call (Println "⚠️ Some objects may not yet have replicated."))
                    (hist1 ++ [Ev list (pages, None)])
              end).
  { intros err Hlist. unfold listDestinationIn. cbn [run bind call].
    rewrite (unit_answer (h _ (Printf _ _) _)). fold s3Dst hist1.
    rewrite run_bind, listObjects_run. fold list. rewrite Hlist. cbn [fst snd].
    rewrite (collectKeys_present pages dstObjects Hkeys). by destruct err. }
  split.
  - intros Hlist. rewrite (Hstart None Hlist).
    rewrite run_bind, forEach_print_run. cbn [run bind call].
    rewrite (unit_answer (h _ (Printf _ _) _)). unfold caughtUp.
    destruct (length srcObjects <=? length dstObjects)%nat; cbn [run call];
      rewrite (unit_answer (h _ (Println _) _)); by rewrite <- !(assoc_L (++)).
  - intros err Hlist. by rewrite (Hstart (Some err) Hlist).
Qed.

Lemma listDestinationIn_verdict_witness :
  let world := afterSetup 1 (Ok {| s3.LocationConstraint := None |}) in
  ∃ before,
    fst (run world (listDestinationIn "" ["another-key.txt"] "us-west-2" "dst") [])
    = before ++ [Ev (Println "✅ Destination bucket contains all (or more) objects.") tt].
Proof.
  cbv zeta.
  rewrite (proj1 (listDestinationIn_verdict
                    (afterSetup 1 (Ok {| s3.LocationConstraint := None |}))
                    "" ["another-key.txt"] "us-west-2" "dst" []
                    [[Some "p.txt"]] ["p.txt"] eq_refl) eq_refl).
  by eexists [_; _; _; _].
Defined.

(** ** The extended verifier as a whole *)

(** A run only adds to the history. *)
Lemma run_extends {A : Type} (h : handler) (m : prog A) (hist : list event) :
  ∃ more, fst (run h m hist) = hist ++ more.
Proof.
  revert hist. induction m as [a|x|R op k IH]; intros hist; simpl.
  - exists []. by rewrite app_nil_r.
  - exists []. by rewrite app_nil_r.
  - destruct (IH (h _ op hist) (hist ++ [Ev op (h _ op hist)])) as [more Hmore].
    exists (Ev op (h _ op hist) :: more). rewrite Hmore. by rewrite <- (assoc_L (++)).
Qed.

Section ExtendedMainFacts.

Variable h : handler.
Variable scan : string → option string.
Variables (srcBucket srcRegion profile key : string).

Local Abbreviation s3Src := {| Region := srcRegion; Profile := profile |}.
Local Abbreviation upload := (PutObject s3Src srcBucket key probeContent).
Local Abbreviation fetch := (GetBucketReplication s3Src srcBucket).
Local Abbreviation uploaded :=
  [Ev upload None;
   Ev (Printf "Uploaded object %s to source bucket %s\n" [FStr key; FStr srcBucket]) tt].

(** The verifier up to the end of the check phase and the listing of the
    source bucket. *)
Lemma extendedMain_run :
  srcBucket ≠ "" →
  run h (extendedMain scan srcBucket srcRegion profile key) []
  = match h _ upload [] with
    | Some err =>
        ([Ev upload (Some err)],
         Stopped (Fatalf "Failed to upload object to source bucket: %v" [FErr (Some err)]))
    | None =>
        match h _ fetch uploaded with
        | Failed err =>
            (uploaded ++ [Ev fetch (Failed err)],
             Stopped (Fatalf "Failed to get replication configuration: %v"
                        [FErr (Some err)]))
        | Ok out =>
            let hist3 := uploaded ++ [Ev fetch (Ok out)] in
            match s3.ReplicationConfiguration_ out with
            | None =>
                (hist3,
                 Stopped (Fatalf "Failed to get replication configuration: %v" [FErr None]))
            | Some cfg =>
                let destBuckets := destBucketsOf scan (s3.Rules cfg) in
                match destBuckets with
                | [] =>
                    (hist3,
                     Stopped (Fatalf "No destination buckets found in replication rules."
                                []))
                | _ :: _ =>
                    match run h (forEach destBuckets
                                   (checkDestination srcRegion profile key)) hist3 with
                    | (hist4, Stopped x) => (hist4, Stopped x)
                    | (hist4, Done _) =>
                        let hist5 :=
                          hist4 ++ [Ev (Println "\nListing objects in source bucket:") tt] in
                        match run h (listObjects s3Src srcBucket) hist5 with
                        | (hist6, Stopped x) => (hist6, Stopped x)
                        | (hist6, Done (_, Some err)) =>
                            (hist6,
                             Stopped (Fatalf "Failed to list source bucket: %v"
                                        [FErr (Some err)]))
                        | (hist6, Done (srcObjects, None)) =>
                            run h
                              (forEach destBuckets
                                 (listDestination srcRegion profile srcObjects))
                              (hist6 ++ ((λ obj, Ev (Printf "  %s\n" [FStr obj]) tt)
                                           <$> srcObjects))
                        end
                    end
                end
            end
        end
    end.
Proof.
  intros Hsrc. unfold extendedMain.
  apply String.eqb_neq in Hsrc. rewrite Hsrc.
  cbn [bind call run app].
  destruct (h _ upload []) as [err|]; [done|].
  cbn [bind call run app]. rewrite (unit_answer (h _ (Printf _ _) _)).
  destruct (h _ fetch uploaded) as [out|err]; [|done].
  cbn [app]. destruct (s3.ReplicationConfiguration_ out) as [cfg|]; [|done].
  destruct (destBucketsOf scan (s3.Rules cfg)) as [|d ds] eqn:Hds; [done|].
  cbn [length Nat.eqb]. rewrite run_bind.
  destruct (run h (forEach (d :: ds) _) _) as [hist4 [[]|x]]; [|done].
  cbn [bind call run]. rewrite (unit_answer (h _ (Println _) _)).
  rewrite run_bind.
  destruct (run h (listObjects _ _) _) as [hist6 [[srcObjects [err|]]|x]]; [done| |done].
  by rewrite run_bind, forEach_print_run.
Qed.

End ExtendedMainFacts.

(** X19. The extended verifier needs a source bucket and a successful
    upload: without a source bucket on the command line it stops before any
    call, and when the upload of the probe fails it stops right after it,
    with a fatal message; the replication configuration is not read. *)
Theorem extendedMain_requires_upload (h : handler) (scan : string → option string)
    (srcBucket srcRegion profile key : string) :
  let s3Src := {| Region := srcRegion; Profile := profile |} in
  let upload := PutObject s3Src srcBucket key probeContent in
  (srcBucket = "" →
   run h (extendedMain scan srcBucket srcRegion profile key) []
   = ([], Stopped (Fatalf "--source-bucket must be provided." [])))
  ∧ (srcBucket ≠ "" →
     ∀ err,
       h _ upload [] = Some err →
       run h (extendedMain scan srcBucket srcRegion profile key) []
       = ([Ev upload (Some err)],
          Stopped (Fatalf "Failed to upload object to source bucket: %v"
                     [FErr (Some err)]))).
Proof.
  intros s3Src upload. split.
  - by intros ->.
  - intros Hsrc err Hup. rewrite extendedMain_run by done.
    fold s3Src upload. by rewrite Hup.
Qed.

Lemma extendedMain_requires_upload_witness :
  let denied := AwsError "AccessDenied" "Access Denied" in
  run (uploadFails denied) (extendedMain scanAfterPrefix "src" "us-east-1" "" "p.txt") []
  = ([Ev (PutObject {| Region := "us-east-1"; Profile := "" |} "src" "p.txt" probeContent)
        (Some denied)],
     Stopped (Fatalf "Failed to upload object to source bucket: %v" [FErr (Some denied)])).
Proof.
  exact (proj2 (extendedMain_requires_upload
                  (uploadFails (AwsError "AccessDenied" "Access Denied"))
                  scanAfterPrefix "src" "us-east-1" "" "p.txt")
           ltac:(discriminate) (AwsError "AccessDenied" "Access Denied") eq_refl).
Defined.

(** X20. The extended verifier needs a replication configuration with a
    destination.  After the upload, a failed fetch of the configuration, a
    fetch that returns no configuration, and a configuration none of whose
    rules gives a destination each stop the verifier with a fatal message,
    before any destination is looked up or polled. *)
Theorem extendedMain_requires_destinations (h : handler)
    (scan : string → option string) (srcBucket srcRegion profile key : string) :
  let s3Src := {| Region := srcRegion; Profile := profile |} in
  let upload := PutObject s3Src srcBucket key probeContent in
  let fetch := GetBucketReplication s3Src srcBucket in
  let uploaded :=
    [Ev upload None;
     Ev (Printf "Uploaded object %s to source bucket %s\n" [FStr key; FStr srcBucket]) tt] in
  srcBucket ≠ "" →
  h _ upload [] = None →
  (∀ err,
     h _ fetch uploaded = Failed err →
     run h (extendedMain scan srcBucket srcRegion profile key) []
     = (uploaded ++ [Ev fetch (Failed err)],
        Stopped (Fatalf "Failed to get replication configuration: %v" [FErr (Some err)])))
  ∧ (∀ out,
       h _ fetch uploaded = Ok out →
       s3.ReplicationConfiguration_ out = None →
       run h (extendedMain scan srcBucket srcRegion profile key) []
       = (uploaded ++ [Ev fetch (Ok out)],
          Stopped (Fatalf "Failed to get replication configuration: %v" [FErr None])))
  ∧ (∀ out cfg,
       h _ fetch uploaded = Ok out →
       s3.ReplicationConfiguration_ out = Some cfg →
       omap (scannedDestination scan) (s3.Rules cfg) = [] →
       run h (extendedMain scan srcBucket srcRegion profile key) []
       = (uploaded ++ [Ev fetch (Ok out)],
          Stopped (Fatalf "No destination buckets found in replication rules." []))).
Proof.
  intros s3Src upload fetch uploaded Hsrc Hup.
  pose proof (extendedMain_run h scan srcBucket srcRegion profile key Hsrc) as Hrun.
  fold s3Src upload fetch in Hrun. rewrite Hup in Hrun. fold uploaded in Hrun.
  split_and!.
  - intros err Hfetch. by rewrite Hfetch in Hrun.
  - intros out Hfetch Hcfg. by rewrite Hfetch, Hcfg in Hrun.
  - intros out cfg Hfetch Hcfg Hnone. rewrite Hfetch, Hcfg in Hrun. cbv zeta in Hrun.
    unfold destBucketsOf in Hrun. rewrite destBucketsOf_from, Hnone in Hrun.
    exact Hrun.
Qed.

Lemma extendedMain_requires_destinations_witness :
  snd (run succeed (extendedMain scanAfterPrefix "src" "us-east-1" "" "p.txt") [])
  = Stopped (Fatalf "Failed to get replication configuration: %v" [FErr None])
  ∧ snd (run withoutDestination
           (extendedMain scanAfterPrefix "src" "us-east-1" "" "p.txt") [])
    = Stopped (Fatalf "No destination buckets found in replication rules." []).
Proof.
  split.
  - exact (f_equal snd
             (proj1 (proj2 (extendedMain_requires_destinations succeed scanAfterPrefix
                              "src" "us-east-1" "" "p.txt" ltac:(discriminate) eq_refl))
                _ eq_refl eq_refl)).
  - exact (f_equal snd
             (proj2 (proj2 (extendedMain_requires_destinations withoutDestination
                              scanAfterPrefix "src" "us-east-1" "" "p.txt"
                              ltac:(discriminate) eq_refl))
                _ _ eq_refl eq_refl eq_refl)).
Defined.

(** ** The basic verifier *)

Lemma basicMain_run (h : handler)
    (srcBucket srcRegion dstBucket dstRegion profile key : string) :
  let s3Src := {| Region := srcRegion; Profile := profile |} in
  let s3Dst := {| Region := dstRegion; Profile := profile |} in
  let upload := PutObject s3Src srcBucket key probeContent in
  let announced :=
    [Ev upload None;
     Ev (Printf "Uploaded object %s to source bucket %s\n" [FStr key; FStr srcBucket]) tt;
     Ev (Println "Waiting for replication (may take 30–60 seconds)...") tt] in
  srcBucket ≠ "" →
  dstBucket ≠ "" →
  run h (basicMain srcBucket srcRegion dstBucket dstRegion profile key) []
  = match h _ upload [] with
    | Some err =>
        ([Ev upload (Some err)],
         Stopped (Fatalf "Failed to upload object to source bucket: %v" [FErr (Some err)]))
    | None =>
        match run h (pollLoop s3Dst dstBucket key 12 0) announced with
        | (hist3, Stopped x) => (hist3, Stopped x)
        | (hist3, Done found) =>
            let report :=
              if found
              then Printf "✅ Object %s replicated successfully to bucket %s\n"
                     [FStr key; FStr dstBucket]
              else Printf "❌ Object %s did not replicate to bucket %s within timeout\n"
                     [FStr key; FStr dstBucket] in
            let hist4 :=
              hist3 ++ [Ev report tt;
                        Ev (Println "\nListing objects in source bucket:") tt] in
            let listed := h _ (ListObjectsV2Pages s3Src srcBucket) hist4 in
            let hist5 := hist4 ++ [Ev (ListObjectsV2Pages s3Src srcBucket) listed] in
            match collectKeys (fst listed), snd listed with
            | None, _ => (hist5, Stopped NilDereference)
            | Some _, Some err =>
                (hist5, Stopped (Fatalf "Failed to list source bucket: %v" [FErr (Some err)]))
            | Some srcObjects, None =>
                let hist6 :=
                  hist5 ++ (((λ obj, Ev (Printf "  %s\n" [FStr obj]) tt) <$> srcObjects)
                            ++ [Ev (Println "\nListing objects in destination bucket:") tt]) in
                let listedDst := h _ (ListObjectsV2Pages s3Dst dstBucket) hist6 in
                let hist7 := hist6 ++ [Ev (ListObjectsV2Pages s3Dst dstBucket) listedDst] in
                match collectKeys (fst listedDst), snd listedDst with
                | None, _ => (hist7, Stopped NilDereference)
                | Some _, Some err =>
                    (hist7,
                     Stopped (Fatalf "Failed to list destination bucket: %v"
                                [FErr (Some err)]))
                | Some dstObjects, None =>
                    (hist7
                     ++ ((λ obj, Ev (Printf "  %s\n" [FStr obj]) tt) <$> dstObjects)
                     ++ [Ev (Printf
                               "\nSource bucket has %d objects, destination bucket has %d objects\n"
                               [FInt (Z.of_nat (length srcObjects));
                                FInt (Z.of_nat (length dstObjects))]) tt;
                         Ev (Println
                               (if (length srcObjects <=? length dstObjects)%nat
                                then "✅ Destination bucket contains all (or more) objects."
                                else "⚠️ Some objects may not yet have replicated.")) tt],
                     Done tt)
                end
            end
        end
    end.
Proof.
  intros s3Src s3Dst upload announced Hsrc Hdst. unfold basicMain.
  apply String.eqb_neq in Hsrc, Hdst. rewrite Hsrc, Hdst.
  cbn [orb bind call run app]. fold s3Src s3Dst. fold upload.
  destruct (h _ upload []) as [err|]; [done|].
  cbn [bind call run app].
  rewrite (unit_answer (h _ (Printf _ _) _)), (unit_answer (h _ (Println _) _)).
  fold announced. rewrite run_bind.
  destruct (run h (pollLoop s3Dst dstBucket key 12 0) announced) as [hist3 [found|x]];
    [|done].
  rewrite run_bind.
  assert (Hreport :
    run h (if found
           then call (Printf "✅ Object %s replicated successfully to bucket %s\n"
                        [FStr key; FStr dstBucket])
           else call (Printf "❌ Object %s did not replicate to bucket %s within timeout\n"
                        [FStr key; FStr dstBucket])) hist3
    = (hist3 ++ [Ev (if found
                     then Printf "✅ Object %s replicated successfully to bucket %s\n"
                            [FStr key; FStr dstBucket]
                     else Printf "❌ Object %s did not replicate to bucket %s within timeout\n"
                            [FStr key; FStr dstBucket]) tt], Done tt)).
  { destruct found; cbn [run call]; by rewrite (unit_answer (h _ (Printf _ _) _)). }
  rewrite Hreport. cbn [bind call run].
  rewrite (unit_answer (h _ (Println _) _)).
  rewrite <- (assoc_L (++) hist3). cbn [app].
  rewrite run_bind, listObjects_run.
  set (hist4 := hist3 ++ [_; _]).
  set (listed := h _ (ListObjectsV2Pages s3Src srcBucket) hist4).
  destruct (collectKeys (fst listed)) as [srcObjects|]; [|done].
  destruct (snd listed) as [err|]; [done|].
  rewrite run_bind, forEach_print_run. cbn [bind call run].
  rewrite (unit_answer (h _ (Println _) _)).
  rewrite <- (assoc_L (++) (hist4 ++ _)).
  set (hist6 := (hist4 ++ _) ++ _).
  rewrite run_bind, listObjects_run.
  set (listedDst := h _ (ListObjectsV2Pages s3Dst dstBucket) hist6).
  destruct (collectKeys (fst listedDst)) as [dstObjects|]; [|done].
  destruct (snd listedDst) as [err|]; [done|].
  rewrite run_bind, forEach_print_run. cbn [bind call run].
  rewrite (unit_answer (h _ (Printf _ _) _)). unfold caughtUp.
  destruct (length srcObjects <=? length dstObjects)%nat; cbn [run call];
    rewrite (unit_answer (h _ (Println _) _)); by rewrite <- !(assoc_L (++)).
Qed.

(** ** Region detection on other answers *)

(** X23. A location the lookup reports under its own name is used as it
    is: every constraint other than the empty one and EU is the detected
    region, whatever the source region.  With a location reported, the
    detected region is never empty and never the alias EU. *)
Theorem resolveRegion_other_regions (srcRegion constraint : string) :
  let detected := resolveRegion srcRegion (Ok {| s3.LocationConstraint := Some constraint |}) in
  (constraint ≠ "" → constraint ≠ "EU" → detected = constraint)
  ∧ detected ≠ ""
  ∧ detected ≠ "EU".
Proof.
  unfold resolveRegion. simpl.
  destruct (String.eqb_spec constraint "") as [Hempty|Hempty].
  - rewrite Hempty. simpl. by split_and!.
  - destruct (String.eqb_spec constraint "EU") as [Heu|Heu].
    + by split_and!.
    + by split_and!.
Qed.

Lemma resolveRegion_other_regions_witness :
  resolveRegion "us-east-1" (Ok {| s3.LocationConstraint := Some "ap-south-1" |})
  = "ap-south-1".
Proof.
  exact (proj1 (resolveRegion_other_regions "us-east-1" "ap-south-1")
           ltac:(discriminate) ltac:(discriminate)).
Defined.

(** * Polling and listing, operation by operation *)

Lemma checkAnswers_app (l1 l2 : list event) :
  checkAnswers (l1 ++ l2) = checkAnswers l1 ++ checkAnswers l2.
Proof. unfold checkAnswers. apply flat_map_app. Qed.

(** The polling loop does what [polledWithin] describes, whatever the
    destination answers. *)
Lemma pollLoop_polled (h : handler) (s3Dst : client) (dstBucket key : string)
    (n : nat) (i : Z) (hist : list event) :
  ∃ polls found,
    run h (pollLoop s3Dst dstBucket key n i) hist = (hist ++ polls, Done found)
    ∧ polledWithin s3Dst dstBucket key n i polls found.
Proof.
  revert i hist. induction n as [|n IH]; intros i hist.
  - exists [], false. rewrite app_nil_r. split; [done|]. by exists [].
  - destruct (h _ (HeadObject s3Dst dstBucket key)
                (hist ++ [Ev (Sleep (10 * Second)) tt])) as [err|] eqn:Hcheck.
    + rewrite (pollLoop_failed_round h s3Dst dstBucket key n i hist err Hcheck).
      destruct (IH (i + 1)%Z
                  (hist ++ [Ev (Sleep (10 * Second)) tt;
                            Ev (HeadObject s3Dst dstBucket key) (Some err);
                            Ev (Printf "Check %d: object not replicated yet\n"
                                  [FInt (i + 1)]) tt]))
        as (polls & found & Hrun & errs & Hlen & Hinv & Hans).
      exists ([Ev (Sleep (10 * Second)) tt;
               Ev (HeadObject s3Dst dstBucket key) (Some err);
               Ev (Printf "Check %d: object not replicated yet\n" [FInt (i + 1)]) tt]
              ++ polls), found.
      split; [rewrite Hrun; by rewrite <- (assoc_L (++))|].
      exists (err :: errs). split_and!.
      * destruct found; simpl; lia.
      * rewrite invocations_app, Hinv. reflexivity.
      * rewrite checkAnswers_app, Hans. reflexivity.
    + rewrite (pollLoop_success_round h s3Dst dstBucket key n i hist Hcheck).
      exists [Ev (Sleep (10 * Second)) tt; Ev (HeadObject s3Dst dstBucket key) None], true.
      split; [done|]. exists []. split_and!; [simpl; lia|done|done].
Qed.

(** One turn of the check loop. *)
Lemma checkDestination_segment (h : handler) (srcRegion profile key dstBucket : string)
    (hist : list event) :
  let lookup := GetBucketLocation {| Region := srcRegion; Profile := profile |} dstBucket in
  let hist1 :=
    hist ++ [Ev (Printf "\nChecking replication to destination bucket: %s\n"
                   [FStr dstBucket]) tt] in
  let locOut := h _ lookup hist1 in
  let region := resolveRegion srcRegion locOut in
  ∃ polls found,
    run h (checkDestination srcRegion profile key dstBucket) hist
    = (hist1
       ++ [Ev lookup locOut;
           Ev (Printf "Using region %s for bucket %s\n" [FStr region; FStr dstBucket]) tt;
           Ev (Println "Waiting for replication (may take 30–60 seconds)...") tt]
       ++ polls ++ [Ev (verdictLine key dstBucket found) tt],
       Done tt)
    ∧ polledWithin {| Region := region; Profile := profile |} dstBucket key 12 0 polls found.
Proof.
  intros lookup hist1 locOut region.
  rewrite checkDestination_run. fold lookup hist1. fold locOut. fold region.
  set (said :=
    [Ev (Printf "Using region %s for bucket %s\n" [FStr region; FStr dstBucket]) tt;
     Ev (Println "Waiting for replication (may take 30–60 seconds)...") tt]).
  destruct (pollLoop_polled h {| Region := region; Profile := profile |} dstBucket key 12 0
              ((hist1 ++ [Ev lookup locOut]) ++ said))
    as (polls & found & Hrun & Hpolled).
  exists polls, found. split; [|done].
  rewrite (pollDestination_reports h profile key region dstBucket
             (hist1 ++ [Ev lookup locOut]) polls found Hrun).
  fold said. unfold verdictLine. by rewrite <- !(assoc_L (++)).
Qed.

(** The check loop over all destinations, turn by turn. *)
Lemma forEach_checkDestination_segments (h : handler) (srcRegion profile key : string)
    (destBuckets : list string) (hist : list event) :
  ∃ segments,
    run h (forEach destBuckets (checkDestination srcRegion profile key)) hist
    = (hist ++ concat segments, Done tt)
    ∧ Forall2 (checkedDestination srcRegion profile key) destBuckets segments.
Proof.
  revert hist. induction destBuckets as [|d ds IH]; intros hist.
  - exists []. simpl. rewrite app_nil_r. by split.
  - cbn [forEach]. rewrite run_bind.
    destruct (checkDestination_segment h srcRegion profile key d hist)
      as (polls & found & Hrun & Hpolled).
    rewrite Hrun.
    set (lookup := GetBucketLocation {| Region := srcRegion; Profile := profile |} d) in *.
    set (hist1 := hist ++ [Ev (Printf _ _) tt]) in *.
    set (locOut := h _ lookup hist1) in *.
    set (segment :=
      [Ev (Printf "\nChecking replication to destination bucket: %s\n" [FStr d]) tt;
       Ev lookup locOut;
       Ev (Printf "Using region %s for bucket %s\n"
             [FStr (resolveRegion srcRegion locOut); FStr d]) tt;
       Ev (Println "Waiting for replication (may take 30–60 seconds)...") tt]
      ++ polls ++ [Ev (verdictLine key d found) tt]).
    destruct (IH (hist ++ segment)) as (segments & Hrest & Hall).
    exists (segment :: segments). split.
    + replace (hist1 ++ _) with (hist ++ segment)
        by (subst segment hist1; by rewrite <- (assoc_L (++))).
      rewrite Hrest. simpl. by rewrite <- (assoc_L (++)).
    + constructor; [|done]. by exists locOut, polls, found.
Qed.

(** The listing of one destination, on every answer. *)
Lemma listDestinationIn_run (h : handler) (profile : string) (srcObjects : list string)
    (detectedRegion dstBucket : string) (hist : list event) :
  let s3Dst := {| Region := detectedRegion; Profile := profile |} in
  let list := ListObjectsV2Pages s3Dst dstBucket in
  let hist1 :=
    hist ++ [Ev (Printf "\nListing objects in destination bucket: %s (region: %s)\n"
                   [FStr dstBucket; FStr detectedRegion]) tt] in
  let listed := h _ list hist1 in
  run h (listDestinationIn profile srcObjects detectedRegion dstBucket) hist
  = match collectKeys (fst listed), snd listed with
    | None, _ => (hist1 ++ [Ev list listed], Stopped NilDereference)
    | Some _, Some err =>
        (hist1 ++ [Ev list listed],
         Stopped (Fatalf "Failed to list destination bucket %s: %v"
                    [FStr dstBucket; FErr (Some err)]))
    | Some dstObjects, None =>
        (hist1 ++ Ev list listed
                  :: ((λ obj, Ev (Printf "  %s\n" [FStr obj]) tt) <$> dstObjects)
                  ++ [Ev (Printf
                            "\nSource bucket has %d objects, destination bucket %s has %d objects\n"
                            [FInt (Z.of_nat (length srcObjects)); FStr dstBucket;
                             FInt (Z.of_nat (length dstObjects))]) tt;
                      Ev (Println
                            (if (length srcObjects <=? length dstObjects)%nat
                             then "✅ Destination bucket contains all (or more) objects."
                             else "⚠️ Some objects may not yet have replicated.")) tt],
         Done tt)
    end.
Proof.
  intros s3Dst list hist1 listed. unfold listDestinationIn. cbn [run bind call].
  rewrite (unit_answer (h _ (Printf _ _) _)). fold s3Dst hist1.
  rewrite run_bind, listObjects_run. fold list. fold listed.
  destruct (collectKeys (fst listed)) as [dstObjects|]; [|done].
  destruct (snd listed) as [err|]; [done|].
  rewrite run_bind, forEach_print_run. cbn [run bind call].
  rewrite (unit_answer (h _ (Printf _ _) _)). unfold caughtUp.
  destruct (length srcObjects <=? length dstObjects)%nat; cbn [run call];
    rewrite (unit_answer (h _ (Println _) _)); by rewrite <- !(assoc_L (++)).
Qed.

(** X21. A timeout does not end the extended verifier.  With the probe
    uploaded and at least one destination configured, the verifier takes
    the destinations in turn: for each it looks the location up, polls the
    destination through a client of the detected region (waits and presence
    checks as the polling loop makes them, at most 12 checks) and prints the
    verdict of that polling.  Then, whatever the polls gave, it goes on to
    list the source bucket. *)
Theorem extendedMain_lists_after_polling (h : handler) (scan : string → option string)
    (srcBucket srcRegion profile key : string)
    (out : s3.GetBucketReplicationOutput) (cfg : s3.ReplicationConfiguration) :
  let s3Src := {| Region := srcRegion; Profile := profile |} in
  let upload := PutObject s3Src srcBucket key probeContent in
  let fetch := GetBucketReplication s3Src srcBucket in
  let uploaded :=
    [Ev upload None;
     Ev (Printf "Uploaded object %s to source bucket %s\n" [FStr key; FStr srcBucket]) tt] in
  srcBucket ≠ "" →
  h _ upload [] = None →
  h _ fetch uploaded = Ok out →
  s3.ReplicationConfiguration_ out = Some cfg →
  destBucketsOf scan (s3.Rules cfg) ≠ [] →
  ∃ segments listed rest,
    fst (run h (extendedMain scan srcBucket srcRegion profile key) [])
    = (uploaded ++ [Ev fetch (Ok out)]) ++ concat segments
      ++ [Ev (Println "\nListing objects in source bucket:") tt;
          Ev (ListObjectsV2Pages s3Src srcBucket) listed]
      ++ rest
    ∧ Forall2 (checkedDestination srcRegion profile key)
        (destBucketsOf scan (s3.Rules cfg)) segments
    ∧ lookedUp (concat segments) = destBucketsOf scan (s3.Rules cfg)
    ∧ (headCount (concat segments) <= 12 * length (destBucketsOf scan (s3.Rules cfg)))%nat.
Proof.
  intros s3Src upload fetch uploaded Hsrc Hup Hfetch Hcfg Hsome.
  pose proof (extendedMain_run h scan srcBucket srcRegion profile key Hsrc) as Hrun.
  fold s3Src upload fetch in Hrun. rewrite Hup in Hrun. fold uploaded in Hrun.
  rewrite Hfetch, Hcfg in Hrun. cbv zeta in Hrun.
  destruct (destBucketsOf scan (s3.Rules cfg)) as [|d ds] eqn:Hds; [done|].
  destruct (forEach_checkDestination_segments h srcRegion profile key (d :: ds)
              (uploaded ++ [Ev fetch (Ok out)])) as (segments & Hsegs & Hall).
  destruct (forEach_checkDestination_returns h srcRegion profile key (d :: ds)
              (uploaded ++ [Ev fetch (Ok out)])) as (polls & Hpolls & Hlook & Hcount & _).
  assert (Hsame : polls = concat segments).
  { rewrite Hsegs in Hpolls. by injection Hpolls as Heq. }
  subst polls.
  rewrite Hsegs, listObjects_run in Hrun.
  exists segments, (h _ (ListObjectsV2Pages s3Src srcBucket)
                      (((uploaded ++ [Ev fetch (Ok out)]) ++ concat segments)
                       ++ [Ev (Println "\nListing objects in source bucket:") tt])).
  set (listed := h _ (ListObjectsV2Pages s3Src srcBucket) _) in *.
  set (hist6 := (_ ++ [Ev (Println _) tt]) ++ [Ev (ListObjectsV2Pages s3Src srcBucket) listed])
    in Hrun.
  assert (Hhist6 : ∀ rest,
            hist6 ++ rest
            = (uploaded ++ [Ev fetch (Ok out)]) ++ concat segments
              ++ [Ev (Println "\nListing objects in source bucket:") tt;
                  Ev (ListObjectsV2Pages s3Src srcBucket) listed] ++ rest).
  { intros rest. subst hist6. by rewrite <- !(assoc_L (++)). }
  destruct (collectKeys (fst listed)) as [keys|].
  2:{ exists []. rewrite Hrun. split_and!; [|done..].
      cbn [fst]. by rewrite <- Hhist6, app_nil_r. }
  destruct (snd listed) as [err|].
  { exists []. rewrite Hrun. split_and!; [|done..].
    cbn [fst]. by rewrite <- Hhist6, app_nil_r. }
  destruct (run_extends h (forEach (d :: ds) (listDestination srcRegion profile keys))
              (hist6 ++ ((λ obj, Ev (Printf "  %s\n" [FStr obj]) tt) <$> keys)))
    as [more Hmore].
  exists (((λ obj, Ev (Printf "  %s\n" [FStr obj]) tt) <$> keys) ++ more).
  split_and!; [|done..].
  rewrite Hrun, Hmore. rewrite <- Hhist6. by rewrite <- (assoc_L (++)).
Qed.

Lemma extendedMain_lists_after_polling_witness :
  let never := afterSetup 0 (Ok {| s3.LocationConstraint := Some "us-west-2" |}) in
  let s3Src := {| Region := "us-east-1"; Profile := "" |} in
  (∃ before segments listed rest,
     fst (run never (extendedMain scanAfterPrefix "src" "us-east-1" "" "p.txt") [])
     = before ++ concat segments
       ++ [Ev (Println "\nListing objects in source bucket:") tt;
           Ev (ListObjectsV2Pages s3Src "src") listed]
       ++ rest
     ∧ Forall2 (checkedDestination "us-east-1" "" "p.txt") ["dst"] segments)
  ∧ headCount (fst (run never (extendedMain scanAfterPrefix "src" "us-east-1" "" "p.txt") []))
    = 12.
Proof.
  split; [|vm_compute; reflexivity].
  destruct (extendedMain_lists_after_polling
              (afterSetup 0 (Ok {| s3.LocationConstraint := Some "us-west-2" |}))
              scanAfterPrefix "src" "us-east-1" "" "p.txt" _ _
              ltac:(discriminate) eq_refl eq_refl eq_refl ltac:(discriminate))
    as (segments & listed & rest & Hrun & Hall & _).
  eexists _, segments, listed, rest. split; [exact Hrun|exact Hall].
Defined.

(** X22. The basic verifier polls the destination it is given, in the
    region it is given, without looking anything up.  A failed upload stops
    it at once.  Otherwise it polls the destination through a client of the
    destination region of the command line (waits and presence checks as
    the polling loop makes them, at least one and at most 12 checks), prints
    the verdict of that polling, found exactly when the last check
    succeeded, and goes on to list the source bucket whether or not the
    probe appeared. *)
Theorem basicMain_polls_given_destination (h : handler)
    (srcBucket srcRegion dstBucket dstRegion profile key : string) :
  let s3Src := {| Region := srcRegion; Profile := profile |} in
  let s3Dst := {| Region := dstRegion; Profile := profile |} in
  let upload := PutObject s3Src srcBucket key probeContent in
  let announced :=
    [Ev upload None;
     Ev (Printf "Uploaded object %s to source bucket %s\n" [FStr key; FStr srcBucket]) tt;
     Ev (Println "Waiting for replication (may take 30–60 seconds)...") tt] in
  srcBucket ≠ "" →
  dstBucket ≠ "" →
  (∀ err,
     h _ upload [] = Some err →
     run h (basicMain srcBucket srcRegion dstBucket dstRegion profile key) []
     = ([Ev upload (Some err)],
        Stopped (Fatalf "Failed to upload object to source bucket: %v" [FErr (Some err)])))
  ∧ (h _ upload [] = None →
     ∃ polls (found : bool) listed rest,
       fst (run h (basicMain srcBucket srcRegion dstBucket dstRegion profile key) [])
       = announced ++ polls
         ++ [Ev (verdictLine key dstBucket found) tt;
             Ev (Println "\nListing objects in source bucket:") tt;
             Ev (ListObjectsV2Pages s3Src srcBucket) listed]
         ++ rest
       ∧ polledWithin s3Dst dstBucket key 12 0 polls found
       ∧ Forall (isPollStep s3Dst dstBucket key) (invocations polls)
       ∧ (headCount polls <= 12)%nat
       ∧ (found = false → headCount polls = 12)).
Proof.
  intros s3Src s3Dst upload announced Hsrc Hdst.
  pose proof (basicMain_run h srcBucket srcRegion dstBucket dstRegion profile key Hsrc Hdst)
    as Hrun.
  cbv zeta in Hrun. fold s3Src s3Dst in Hrun. fold upload in Hrun. fold announced in Hrun.
  split.
  - intros err Hup. by rewrite Hup in Hrun.
  - intros Hup. rewrite Hup in Hrun.
    destruct (pollLoop_polled h s3Dst dstBucket key 12 0 announced)
      as (polls & found & Hpoll & Hpolled).
    destruct (pollLoop_bounds h s3Dst dstBucket key 12 0 announced)
      as (polls' & found' & Hpoll' & Hcount & _ & _ & Hsteps & Hmiss & _).
    assert (Hsame : polls' = polls ∧ found' = found).
    { rewrite Hpoll in Hpoll'. by injection Hpoll' as Heq ->. }
    destruct Hsame as [-> ->].
    rewrite Hpoll in Hrun. fold (verdictLine key dstBucket found) in Hrun.
    set (hist4 := (announced ++ polls) ++ [Ev (verdictLine key dstBucket found) tt;
                                           Ev (Println _) tt]) in *.
    set (listed := h _ (ListObjectsV2Pages s3Src srcBucket) hist4) in *.
    assert (Hhist5 : ∀ rest,
              (hist4 ++ [Ev (ListObjectsV2Pages s3Src srcBucket) listed]) ++ rest
              = announced ++ polls
                ++ [Ev (verdictLine key dstBucket found) tt;
                    Ev (Println "\nListing objects in source bucket:") tt;
                    Ev (ListObjectsV2Pages s3Src srcBucket) listed] ++ rest).
    { intros rest. subst hist4. by rewrite <- !(assoc_L (++)). }
    exists polls, found, listed.
    destruct (collectKeys (fst listed)) as [srcObjects|].
    2:{ exists []. rewrite Hrun. split_and!; [|done..].
        cbn [fst]. by rewrite <- Hhist5, app_nil_r. }
    destruct (snd listed) as [err|].
    { exists []. rewrite Hrun. split_and!; [|done..].
      cbn [fst]. by rewrite <- Hhist5, app_nil_r. }
    set (hist6 := _ ++ (_ ++ [Ev (Println "\nListing objects in destination bucket:") tt]))
      in Hrun.
    set (listedDst := h _ (ListObjectsV2Pages s3Dst dstBucket) hist6) in *.
    destruct (collectKeys (fst listedDst)) as [dstObjects|];
      [destruct (snd listedDst) as [err|]|];
      eexists; rewrite Hrun; (split_and!; [|done..]); cbn [fst]; subst hist6;
      rewrite <- ?(assoc_L (++) (hist4 ++ [_])); apply Hhist5.
Qed.

Lemma basicMain_polls_given_destination_witness :
  let never := afterSetup 0 (Ok {| s3.LocationConstraint := None |}) in
  let s3Dst := {| Region := "us-west-2"; Profile := "" |} in
  (∃ polls found before after,
     fst (run never (basicMain "src" "us-east-1" "dst" "us-west-2" "" "p.txt") [])
     = before ++ polls ++ Ev (verdictLine "p.txt" "dst" found) tt :: after
     ∧ polledWithin s3Dst "dst" "p.txt" 12 0 polls found)
  ∧ invocations (fst (run never (basicMain "src" "us-east-1" "dst" "us-west-2" "" "p.txt") []))
    !! 39
    = Some (Invoke (verdictLine "p.txt" "dst" false))
  ∧ headCount (fst (run never (basicMain "src" "us-east-1" "dst" "us-west-2" "" "p.txt") []))
    = 12.
Proof.
  split_and!; [|vm_compute; reflexivity..].
  destruct (proj2 (basicMain_polls_given_destination
                     (afterSetup 0 (Ok {| s3.LocationConstraint := None |}))
                     "src" "us-east-1" "dst" "us-west-2" "" "p.txt"
                     ltac:(discriminate) ltac:(discriminate)) eq_refl)
    as (polls & found & listed & rest & Hrun & Hpolled & _).
  eexists polls, found, _, _. split; [exact Hrun|exact Hpolled].
Defined.

(** * Region detection and the clients it leads to *)

(** The normalisation the program applies to a location constraint it
    receives: the empty string becomes us-east-1 and EU becomes eu-west-1. *)
Lemma resolveRegion_aliases (srcRegion : string) :
  resolveRegion srcRegion (Ok {| s3.LocationConstraint := Some "" |}) = "us-east-1"
  ∧ resolveRegion srcRegion (Ok {| s3.LocationConstraint := Some "EU" |}) = "eu-west-1".
Proof. by split. Qed.

(** C9. When the location lookup fails, or answers without a location, the
    detected region is the source region and nothing of the lookup's
    failure is passed on.  In the check loop the destination is then polled
    through a client of the source region: the region line names the source
    region, the waits and presence checks of the polling loop follow, the
    checks addressed to the destination bucket through that client, then
    the verdict, and the turn returns normally.  In the listing loop the
    destination is listed through a client of the source region; the turn
    ends as that listing decides, and a fatal stop carries the listing's
    error. *)
Theorem C9_lookup_failure_falls_back_to_source_region (h : handler)
    (srcRegion profile key dstBucket : string) (srcObjects : list string)
    (locOut : result s3.GetBucketLocationOutput) :
  (∃ err, locOut = Failed err) ∨ locOut = Ok {| s3.LocationConstraint := None |} →
  let s3Src := {| Region := srcRegion; Profile := profile |} in
  let lookup := GetBucketLocation s3Src dstBucket in
  let listing := ListObjectsV2Pages s3Src dstBucket in
  resolveRegion srcRegion locOut = srcRegion
  ∧ (∀ hist : list event,
       let hist1 :=
         hist ++ [Ev (Printf "\nChecking replication to destination bucket: %s\n"
                        [FStr dstBucket]) tt] in
       h _ lookup hist1 = locOut →
       ∃ polls found,
         run h (checkDestination srcRegion profile key dstBucket) hist
         = (hist1
            ++ [Ev lookup locOut;
                Ev (Printf "Using region %s for bucket %s\n"
                      [FStr srcRegion; FStr dstBucket]) tt;
                Ev (Println "Waiting for replication (may take 30–60 seconds)...") tt]
            ++ polls ++ [Ev (verdictLine key dstBucket found) tt],
            Done tt)
         ∧ polledWithin s3Src dstBucket key 12 0 polls found)
  ∧ (∀ hist : list event,
       h _ lookup hist = locOut →
       let hist2 :=
         hist ++ [Ev lookup locOut;
                  Ev (Printf "\nListing objects in destination bucket: %s (region: %s)\n"
                        [FStr dstBucket; FStr srcRegion]) tt] in
       let listed := h _ listing hist2 in
       run h (listDestination srcRegion profile srcObjects dstBucket) hist
       = match collectKeys (fst listed), snd listed with
         | None, _ => (hist2 ++ [Ev listing listed], Stopped NilDereference)
         | Some _, Some err =>
             (hist2 ++ [Ev listing listed],
              Stopped (Fatalf "Failed to list destination bucket %s: %v"
                         [FStr dstBucket; FErr (Some err)]))
         | Some dstObjects, None =>
             (hist2 ++ Ev listing listed
                       :: ((λ obj, Ev (Printf "  %s\n" [FStr obj]) tt) <$> dstObjects)
                       ++ [Ev (Printf
                                 "\nSource bucket has %d objects, destination bucket %s has %d objects\n"
                                 [FInt (Z.of_nat (length srcObjects)); FStr dstBucket;
                                  FInt (Z.of_nat (length dstObjects))]) tt;
                           Ev (Println
                                 (if (length srcObjects <=? length dstObjects)%nat
                                  then "✅ Destination bucket contains all (or more) objects."
                                  else "⚠️ Some objects may not yet have replicated.")) tt],
              Done tt)
         end).
Proof.
  intros Hloc s3Src lookup listing.
  assert (Hres : resolveRegion srcRegion locOut = srcRegion).
  { by destruct Hloc as [[err ->]| ->]. }
  split_and!.
  - exact Hres.
  - intros hist hist1 Hlook.
    destruct (checkDestination_segment h srcRegion profile key dstBucket hist)
      as (polls & found & Hrun & Hpolled).
    fold s3Src lookup hist1 in Hrun, Hpolled.
    rewrite Hlook, Hres in Hrun. rewrite Hlook, Hres in Hpolled.
    by exists polls, found.
  - intros hist Hlook hist2 listed.
    rewrite listDestination_run. fold s3Src lookup. rewrite Hlook, Hres.
    rewrite listDestinationIn_run. fold s3Src listing.
    rewrite <- (assoc_L (++) hist [_] [_]). cbn [app]. fold hist2. fold listed.
    reflexivity.
Qed.

Lemma C9_lookup_failure_falls_back_to_source_region_witness :
  let denied := Failed (AwsError "AccessDenied" "Access Denied") in
  let s3Src := {| Region := "eu-central-1"; Profile := "" |} in
  (∃ polls found,
     run (afterSetup 3 denied) (checkDestination "eu-central-1" "" "p.txt" "dst") []
     = ([Ev (Printf "\nChecking replication to destination bucket: %s\n" [FStr "dst"]) tt;
         Ev (GetBucketLocation s3Src "dst") denied;
         Ev (Printf "Using region %s for bucket %s\n" [FStr "eu-central-1"; FStr "dst"]) tt;
         Ev (Println "Waiting for replication (may take 30–60 seconds)...") tt]
        ++ polls ++ [Ev (verdictLine "p.txt" "dst" found) tt],
        Done tt)
     ∧ polledWithin s3Src "dst" "p.txt" 12 0 polls found)
  ∧ run (afterSetup 3 denied) (listDestination "eu-central-1" "" ["p.txt"] "dst") []
    = ([Ev (GetBucketLocation s3Src "dst") denied;
        Ev (Printf "\nListing objects in destination bucket: %s (region: %s)\n"
              [FStr "dst"; FStr "eu-central-1"]) tt;
        Ev (ListObjectsV2Pages s3Src "dst") ([[Some "p.txt"]], None);
        Ev (Printf "  %s\n" [FStr "p.txt"]) tt;
        Ev (Printf "\nSource bucket has %d objects, destination bucket %s has %d objects\n"
              [FInt 1; FStr "dst"; FInt 1]) tt;
        Ev (Println "✅ Destination bucket contains all (or more) objects.") tt],
       Done tt).
Proof.
  pose proof (C9_lookup_failure_falls_back_to_source_region
                (afterSetup 3 (Failed (AwsError "AccessDenied" "Access Denied")))
                "eu-central-1" "" "p.txt" "dst" ["p.txt"]
                (Failed (AwsError "AccessDenied" "Access Denied"))
                (or_introl (ex_intro _ _ eq_refl))) as (_ & Hcheck & Hlist).
  split.
  - exact (Hcheck [] eq_refl).
  - exact (Hlist [] eq_refl).
Defined.

(** C8.  The legacy alias of the original default region does not resolve
    to us-east-1.  The lookup of a destination in that region comes back
    without a location (see [defaultRegionLocation]), the branch that holds
    the normalisation is skipped, and the detected region stays the source
    region.  Here the source region is eu-central-1: the region line names
    eu-central-1 and the destination is polled and listed through clients
    of eu-central-1. *)
Theorem C8_default_region_destination_gets_source_region :
  let s3Src := {| Region := "eu-central-1"; Profile := "" |} in
  let outcome :=
    run (afterSetup 1 defaultRegionLocation)
      (extendedMain scanAfterPrefix "src" "eu-central-1" "" "p.txt") [] in
  resolveRegion "eu-central-1" defaultRegionLocation = "eu-central-1"
  ∧ resolveRegion "eu-central-1" defaultRegionLocation ≠ "us-east-1"
  ∧ snd outcome = Done tt
  ∧ invocations (fst outcome)
    = [Invoke (PutObject s3Src "src" "p.txt" probeContent);
       Invoke (Printf "Uploaded object %s to source bucket %s\n" [FStr "p.txt"; FStr "src"]);
       Invoke (GetBucketReplication s3Src "src");
       Invoke (Printf "\nChecking replication to destination bucket: %s\n" [FStr "dst"]);
       Invoke (GetBucketLocation s3Src "dst");
       Invoke (Printf "Using region %s for bucket %s\n" [FStr "eu-central-1"; FStr "dst"]);
       Invoke (Println "Waiting for replication (may take 30–60 seconds)...");
       Invoke (Sleep 10000000000);
       Invoke (HeadObject s3Src "dst" "p.txt");
       Invoke (Printf "✅ Object %s replicated successfully to bucket %s\n"
                 [FStr "p.txt"; FStr "dst"]);
       Invoke (Println "\nListing objects in source bucket:");
       Invoke (ListObjectsV2Pages s3Src "src");
       Invoke (Printf "  %s\n" [FStr "p.txt"]);
       Invoke (GetBucketLocation s3Src "dst");
       Invoke (Printf "\nListing objects in destination bucket: %s (region: %s)\n"
                 [FStr "dst"; FStr "eu-central-1"]);
       Invoke (ListObjectsV2Pages s3Src "dst");
       Invoke (Printf "  %s\n" [FStr "p.txt"]);
       Invoke (Printf
                 "\nSource bucket has %d objects, destination bucket %s has %d objects\n"
                 [FInt 1; FStr "dst"; FInt 1]);
       Invoke (Println "✅ Destination bucket contains all (or more) objects.")].
Proof.
  cbv zeta. split_and!.
  - reflexivity.
  - discriminate.
  - vm_compute. reflexivity.
  - vm_compute. reflexivity.
Qed.
